(** * next-mongo-connector: security validator and connection manager

    A shallow embedding of [src/connector.ts] (classes
    [MongoSecurityValidator] and [MongoConnectionManager]) together with the
    properties the specification states about them, and further properties
    read off the code.

    Data.
    - A JavaScript string is a [string]; its length is counted in characters
      of that type, which agrees with JavaScript on ASCII text.
    - A JavaScript number that the code uses as a bound or a time is a [Z]
      (the decimal text of a whole number is JavaScript's below 10^21).  The
      retry budget, which the code also compares for identity with a
      counter, is a [JsNumber], a whole number or one that is not whole.
      [NaN], being falsy where the code reads it, counts as an absent field;
      an infinite budget, under which the loop has no bound, is not
      represented.
    - An optional field or argument ([x?: T]) that the code reads is an
      [option T]: reading an absent key gives [undefined].  Where the code
      spreads an object, a key of that object is a [Key T]: absent, or
      present with a value or with [undefined].
    - The [Map] of the cache is a [gmap] from names to addresses of records;
      records, driver handles and promises live in heaps, so that what the
      code shares by reference is shared here by address.

    Control.
    - [throw], and the rejection of the promise of an [async] function, is a
      [Throw] completion; a function that can do neither has no such case.
    - A function of the manager is a transition of the process state [World].
      An [await] on the driver is answered by an oracle ([Driver], and the
      [close_failure] of a handle).  [connect] is given in two halves, before
      and after its [await], so that another call can run in between; their
      composition [connect] is a call that nothing interleaves with.
    - User callbacks are observers: the manager depends on them only through
      whether they return or throw.

    Outside the embedding.  The platform's [URL] constructor is an operation
    of the class [Platform], and every statement holds for every instance.
    [createSecureOptions] prepares the second argument of the driver's
    [createConnection]; it is given on its own, the driver being an oracle
    that is not asked about its options.  The probe of [healthCheck] is an
    oracle as well ([Pinger]).  Left out are the bodies of the event
    listeners, which run on later driver events, the functions that poll on
    a real-time timer ([waitForConnection], [batchHealthCheck]'s concurrent
    probes, the interval of [startConnectionMonitoring], of which one round
    is [check]) and the part of [connectMultiDb] after its calls of [connect]
    have started.  Of [index.ts], the functions that do more than forward to
    the manager are in [Index]. *)

From Stdlib Require Import ZArith String Ascii List Bool Lia.
From stdpp Require Import base option gmap strings list pretty.

Open Scope string_scope.

(** ** JavaScript string primitives used by the validator *)

Module JsString.

(** [s.startsWith(p)] *)
Fixpoint startsWith (p s : string) : bool :=
  match p, s with
  | EmptyString, _ => true
  | String _ _, EmptyString => false
  | String a p', String b s' => Ascii.eqb a b && startsWith p' s'
  end.

(** [s.includes(needle)]: some suffix of [s] starts with [needle]. *)
Fixpoint includes (needle s : string) : bool :=
  startsWith needle s ||
  match s with
  | EmptyString => false
  | String _ s' => includes needle s'
  end.

(** [s.indexOf(needle)], with [None] for JavaScript's [-1]. *)
Fixpoint indexOf (needle s : string) : option nat :=
  if startsWith needle s then Some 0
  else match s with
       | EmptyString => None
       | String _ s' => S <$> indexOf needle s'
       end.

(** [s.substring(n)] and [s.slice(n)] for [0 <= n]: the text from index [n] on. *)
Fixpoint drop (n : nat) (s : string) : string :=
  match n, s with
  | O, _ => s
  | S _, EmptyString => EmptyString
  | S n', String _ s' => drop n' s'
  end.

(** [s.slice(0, -1)]: all but the last character. *)
Fixpoint dropLast (s : string) : string :=
  match s with
  | EmptyString => EmptyString
  | String _ EmptyString => EmptyString
  | String c s' => String c (dropLast s')
  end.

(** [s.slice(1, -1)] *)
Definition slice_1_m1 (s : string) : string := dropLast (drop 1 s).

(** [s.endsWith(suffix)] *)
Definition endsWith (suffix s : string) : bool :=
  (String.length suffix <=? String.length s)%nat &&
  String.eqb (drop (String.length s - String.length suffix) s) suffix.

(** White space removed by [trim] (the ASCII part of the ECMAScript set:
    TAB, LF, VT, FF, CR, SPACE). *)
Definition is_whitespace (c : ascii) : bool :=
  let n := nat_of_ascii c in
  ((9 <=? n) && (n <=? 13) || (n =? 32))%nat.

Fixpoint trimStart (s : string) : string :=
  match s with
  | EmptyString => EmptyString
  | String c s' => if is_whitespace c then trimStart s' else s
  end.

Fixpoint trimEnd (s : string) : string :=
  match s with
  | EmptyString => EmptyString
  | String c s' =>
      match trimEnd s' with
      | EmptyString => if is_whitespace c then EmptyString else String c EmptyString
      | t => String c t
      end
  end.

(** [s.trim()] *)
Definition trim (s : string) : string := trimEnd (trimStart s).

(** The character class [\d] (and the complement of [[^0-9]]). *)
Definition is_digit (c : ascii) : bool :=
  let n := nat_of_ascii c in ((48 <=? n) && (n <=? 57))%nat.

(** The longest prefix of digits, and what follows it. *)
Fixpoint span_digits (s : string) : string * string :=
  match s with
  | EmptyString => (EmptyString, EmptyString)
  | String c s' =>
      if is_digit c
      then let '(ds, rest) := span_digits s' in (String c ds, rest)
      else (EmptyString, s)
  end.

(** [s.match(/:\d+[^0-9]/)]: the text of the leftmost match, [None] for
    [null].  A match starts at a colon that is followed by at least one
    digit; as the character after the digits must not be a digit, the run of
    digits is maximal, and it must not end the string. *)
Fixpoint match_port_regex (s : string) : option string :=
  match s with
  | EmptyString => None
  | String c s' =>
      if Ascii.eqb c ":" then
        match span_digits s' with
        | (String d ds, String stop _) =>
            Some (String c (String d ds ++ String stop EmptyString))
        | _ => match_port_regex s'
        end
      else match_port_regex s'
  end.

(** [s.match(/^(mongodb:\/\/|mongodb\+srv:\/\/)/)]: the matched prefix. *)
Definition match_protocol_regex (s : string) : option string :=
  if startsWith "mongodb://" s then Some "mongodb://"
  else if startsWith "mongodb+srv://" s then Some "mongodb+srv://"
  else None.

Definition digit_value (c : ascii) : Z := Z.of_nat (nat_of_ascii c) - 48.

(** Value of a string of decimal digits, most significant first. *)
Fixpoint digits_value_from (acc : Z) (s : string) : Z :=
  match s with
  | EmptyString => acc
  | String c s' => digits_value_from (10 * acc + digit_value c) s'
  end.

(** [parseInt(s, 10)]: leading white space, an optional sign, then the
    longest run of digits; [None] is [NaN] (no digit found). *)
Definition parseInt10 (s : string) : option Z :=
  let s1 := trimStart s in
  let '(sign, s2) :=
    match s1 with
    | String "-" r => ((-1)%Z, r)
    | String "+" r => (1%Z, r)
    | _ => (1%Z, s1)
    end in
  match fst (span_digits s2) with
  | EmptyString => None
  | ds => Some (sign * digits_value_from 0 ds)%Z
  end.

(** [list.join(', ')] *)
Fixpoint join (sep : string) (l : list string) : string :=
  match l with
  | [] => EmptyString
  | [x] => x
  | x :: rest => x ++ sep ++ join sep rest
  end.

End JsString.

(** ** Completions: normal return or a thrown value *)

(** What a [catch (error)] clause can receive. *)
Inductive Thrown : Type :=
  | ErrorInstance (message : string)   (* an [Error] object *)
  | OtherValue.                        (* anything else *)

(** [error instanceof Error ? error.message : 'Unknown error'] *)
Definition message_or_unknown (e : Thrown) : string :=
  match e with
  | ErrorInstance m => m
  | OtherValue => "Unknown error"
  end.

(** [(error as Error).message] inside a template literal. *)
Definition message_of (e : Thrown) : string :=
  match e with
  | ErrorInstance m => m
  | OtherValue => "undefined"
  end.

Inductive Completion (A : Type) : Type :=
  | Normal (a : A)
  | Throw (e : Thrown).
Arguments Normal {A} a.
Arguments Throw {A} e.

(** ** The platform's URL parser *)

(** The fields of a WHATWG [URL] object that the validator reads. *)
Record URL : Type := mkURL {
  protocol : string;   (* scheme with its trailing colon *)
  username : string;
  password : string;
  hostname : string;
  port     : string;   (* empty when absent *)
  pathname : string;
  search   : string;   (* empty, or starting with a question mark *)
  hash     : string    (* empty, or starting with a hash sign *)
}.

(** [new URL(uri)] either builds a [URL] or throws. *)
Class Platform : Type := { new_URL : string -> Completion URL }.

(** ** MongoSecurityValidator *)

Module SECURITY_CONFIG.
Definition DEFAULT_TIMEOUT : Z := 30000.
Definition MAX_RETRIES : Z := 3.
Definition RETRY_DELAY : Z := 5000.
Definition ALLOWED_PROTOCOLS : list string := ["mongodb"; "mongodb+srv"].
End SECURITY_CONFIG.

Definition DEFAULT_CONNECTION_NAME : string := "default".

Record SecurityValidation : Type := mkValidation {
  isValid  : bool;
  errors   : list string;
  warnings : list string
}.

(** [result.errors.push(msg)] *)
Definition errors_push (msg : string) (r : SecurityValidation) : SecurityValidation :=
  {| isValid := isValid r; errors := (errors r ++ [msg])%list; warnings := warnings r |}.

(** [result.warnings.push(msg)] *)
Definition warnings_push (msg : string) (r : SecurityValidation) : SecurityValidation :=
  {| isValid := isValid r; errors := errors r; warnings := (warnings r ++ [msg])%list |}.

(** [result.isValid = false] *)
Definition set_invalid (r : SecurityValidation) : SecurityValidation :=
  {| isValid := false; errors := errors r; warnings := warnings r |}.

(** The recurring pair [result.errors.push(msg); result.isValid = false]. *)
Definition fail_with (msg : string) (r : SecurityValidation) : SecurityValidation :=
  set_invalid (errors_push msg r).

Definition fresh_result : SecurityValidation :=
  {| isValid := true; errors := []; warnings := [] |}.

(** [process.env.NODE_ENV === 'production'] *)
Definition is_production (NODE_ENV : option string) : bool :=
  match NODE_ENV with
  | Some v => String.eqb v "production"
  | None => false
  end.

Module MongoSecurityValidator.
Import JsString.

(** The structural checks that run before [new URL]; each one that fires
    returns at once with its single error.  [None]: all of them passed. *)
Definition check_required (uri : string) : option string :=
  if String.eqb uri "" then Some "MongoDB URI is required and must be a string" else None.

Definition check_incomplete (uri : string) : option string :=
  if String.eqb (trim uri) "" || String.eqb uri "mongodb://" || String.eqb uri "mongodb+srv://"
  then Some "Invalid URI format: incomplete URI" else None.

Definition check_credentials_without_protocol (uri : string) : option string :=
  if includes "@" uri && negb (includes "://" uri)
  then Some "Invalid URI format: malformed URI with credentials but no protocol" else None.

Definition check_hostname_after_at (uri : string) : option string :=
  match indexOf "@" uri with
  | Some atIndex =>
      let afterAt := drop (atIndex + 1) uri in
      if String.eqb afterAt "" || startsWith ":" afterAt || startsWith "/" afterAt
      then Some "Invalid URI format: missing hostname after credentials" else None
  | None => None
  end.

Definition check_at_after_protocol (uri : string) : option string :=
  match match_protocol_regex uri with
  | Some matched =>
      let afterProtocol := drop (String.length matched) uri in
      if startsWith "@" afterProtocol
      then Some "Invalid URI format: @ found without username/password" else None
  | None => None
  end.

Definition check_trailing_at (uri : string) : option string :=
  if endsWith "@" uri
  then Some "Invalid URI format: missing hostname after credentials" else None.

(** [isNaN(portNum) || portNum < 1 || portNum > 65535] *)
Definition port_out_of_range (portNum : option Z) : bool :=
  match portNum with
  | None => true
  | Some n => (n <? 1)%Z || (65535 <? n)%Z
  end.

Definition check_port (uri : string) : option string :=
  match match_port_regex uri with
  | Some portMatch =>
      let port := slice_1_m1 portMatch in
      let portNum := parseInt10 port in
      if port_out_of_range portNum
      then Some "Invalid URI format: invalid port number" else None
  | None => None
  end.

(** The checks in source order; the first that fires decides. *)
Definition checks_before_port : list (string -> option string) :=
  [ check_required; check_incomplete; check_credentials_without_protocol;
    check_hostname_after_at; check_at_after_protocol; check_trailing_at ].

Definition structural_checks : list (string -> option string) :=
  checks_before_port ++ [check_port].

Fixpoint first_failure (checks : list (string -> option string)) (uri : string)
  : option string :=
  match checks with
  | [] => None
  | c :: rest =>
      match c uri with
      | Some msg => Some msg
      | None => first_failure rest uri
      end
  end.

(** The callback of [allowedHosts.some(...)]. *)
Definition host_matches (hostname allowedHost : string) : bool :=
  if startsWith "*." allowedHost then
    let domain := drop 2 allowedHost in
    (String.length domain + 1 <? String.length hostname)%nat &&
    endsWith ("." ++ domain) hostname
  else String.eqb hostname allowedHost.

(** [allowedHosts.some(...)] *)
Definition isAllowed (hostname : string) (allowedHosts : list string) : bool :=
  existsb (host_matches hostname) allowedHosts.

Definition check_protocol (url : URL) (r : SecurityValidation) : SecurityValidation :=
  let scheme := dropLast (protocol url) in
  if negb (existsb (String.eqb scheme) SECURITY_CONFIG.ALLOWED_PROTOCOLS)
  then fail_with ("Invalid protocol: " ++ protocol url ++ ". Allowed: "
                  ++ join ", " SECURITY_CONFIG.ALLOWED_PROTOCOLS) r
  else r.

Definition check_host_whitelist (url : URL) (allowedHosts : option (list string))
    (r : SecurityValidation) : SecurityValidation :=
  match allowedHosts with
  | Some ((_ :: _) as hosts) =>
      if negb (isAllowed (hostname url) hosts)
      then fail_with ("Host " ++ hostname url ++ " is not in the allowed hosts list") r
      else r
  | _ => r
  end.

Definition check_suspicious (uri : string) (r : SecurityValidation) : SecurityValidation :=
  if includes "javascript:" uri || includes "data:" uri
  then fail_with "Potentially malicious URI detected" r
  else r.

Definition warn_localhost (NODE_ENV : option string) (url : URL)
    (r : SecurityValidation) : SecurityValidation :=
  if is_production NODE_ENV &&
     (String.eqb (hostname url) "localhost" || String.eqb (hostname url) "127.0.0.1")
  then warnings_push "Using localhost in production environment" r
  else r.

(** A non-empty string is truthy. *)
Definition truthy (s : string) : bool := negb (String.eqb s "").

Definition warn_credentials (url : URL) (r : SecurityValidation) : SecurityValidation :=
  if truthy (username url) || truthy (password url)
  then warnings_push "Credentials detected in URI. Consider using environment variables" r
  else r.

(** The two checks that end the [try] block with [return result]. *)
Definition placeholder_hostname (url : URL) : bool :=
  (String.eqb (hostname url) "invalid" || String.eqb (hostname url) "host") &&
  (let afterHostname := pathname url ++ search url ++ hash url in
   negb (truthy (port url)) &&
   (String.eqb afterHostname "/" || String.eqb afterHostname "")).

Definition degenerate_path (url : URL) : bool :=
  negb (truthy (port url)) && String.eqb (pathname url) "/" &&
  negb (truthy (search url)) && negb (truthy (hash url)).

(** The statements of the [try] block after [new URL(uri)] succeeded. *)
Definition validate_parsed (NODE_ENV : option string) (uri : string)
    (allowedHosts : option (list string)) (url : URL)
    (r : SecurityValidation) : SecurityValidation :=
  let r := check_protocol url r in
  let r := check_host_whitelist url allowedHosts r in
  let r := check_suspicious uri r in
  let r := warn_localhost NODE_ENV url r in
  let r := warn_credentials url r in
  if placeholder_hostname url
  then fail_with "Invalid URI format: malformed hostname" r
  else if degenerate_path url
  then fail_with "Invalid URI format: missing database name or path" r
  else r.

Section WithPlatform.
Context `{Platform}.

(** [validateURI(uri, allowedHosts)].  The only statement that can throw
    is [new URL(uri)], the first of the [try] block, and the [catch]
    clause turns its exception into an error of the result. *)
Definition validateURI (NODE_ENV : option string) (uri : string)
    (allowedHosts : option (list string)) : Completion SecurityValidation :=
  let result := fresh_result in
  match first_failure structural_checks uri with
  | Some msg => Normal (fail_with msg result)
  | None =>
      match new_URL uri with
      | Normal url => Normal (validate_parsed NODE_ENV uri allowedHosts url result)
      | Throw error =>
          Normal (fail_with ("Invalid URI format: " ++ message_or_unknown error) result)
      end
  end.
End WithPlatform.

(** The fields of [mongoose.ConnectOptions] that the connector reads. *)
Record ConnectOptions : Type := mkConnectOptions {
  ssl : option bool;
  tls : option bool;
  tlsAllowInvalidCertificates : option bool;
  tlsAllowInvalidHostnames : option bool;
  maxPoolSize : option Z;
  bufferMaxEntries : option Z
}.

Definition no_options : ConnectOptions :=
  {| ssl := None; tls := None; tlsAllowInvalidCertificates := None;
     tlsAllowInvalidHostnames := None; maxPoolSize := None; bufferMaxEntries := None |}.

(** [x && x > bound] for an optional number. *)
Definition exceeds (x : option Z) (bound : Z) : bool :=
  match x with
  | Some n => negb (n =? 0)%Z && (bound <? n)%Z
  | None => false
  end.

Definition is_false (b : option bool) : bool :=
  match b with Some false => true | _ => false end.

Definition is_true (b : option bool) : bool :=
  match b with Some true => true | _ => false end.

(** [validateOptions(options)] *)
Definition validateOptions (NODE_ENV : option string) (options : ConnectOptions)
  : SecurityValidation :=
  let r := fresh_result in
  let r :=
    if is_production NODE_ENV then
      let r := if is_false (ssl options) || is_false (tls options)
               then fail_with "SSL/TLS must be enabled in production" r else r in
      let r := if is_true (tlsAllowInvalidCertificates options)
               then fail_with "Invalid certificates should not be allowed in production" r
               else r in
      if is_true (tlsAllowInvalidHostnames options)
      then fail_with "Invalid hostnames should not be allowed in production" r
      else r
    else r in
  let r := if exceeds (maxPoolSize options) 100
           then warnings_push "Very large connection pool size detected" r else r in
  if exceeds (bufferMaxEntries options) 1000
  then warnings_push "Very large buffer size detected" r else r.

End MongoSecurityValidator.


(** ** MongoConnectionManager: data model *)

Inductive ConnectionState : Type :=
  | DISCONNECTED | CONNECTING | CONNECTED | DISCONNECTING | ERROR.

#[global] Instance ConnectionState_eq_dec : EqDecision ConnectionState.
Proof. solve_decision. Defined.

Record ConnectionInfo : Type := mkInfo {
  state : ConnectionState;
  connectedAt : option Z;
  lastError : option Thrown;
  host : option string;
  database : option string;
  connectionName : string;
  retryCount : Z
}.

(** The number given as [maxRetries].  [Whole n] is the whole number [n];
    [Fractional below text] is a finite number that is not whole, with [below]
    the largest whole number under it and [text] what a template literal
    prints for it. *)
Inductive JsNumber : Type :=
  | Whole (n : Z)
  | Fractional (below : Z) (text : string).

(** The largest whole number that is not above [x]: for a whole [attempt],
    [attempt <= x] is [attempt <= whole_part x]. *)
Definition whole_part (x : JsNumber) : Z :=
  match x with
  | Whole n => n
  | Fractional below _ => below
  end.

(** [attempt === x], for a whole [attempt] *)
Definition identical (attempt : Z) (x : JsNumber) : bool :=
  match x with
  | Whole n => (attempt =? n)%Z
  | Fractional _ _ => false
  end.

(** [`${x}`] *)
Definition number_text (x : JsNumber) : string :=
  match x with
  | Whole n => pretty n
  | Fractional _ text => text
  end.

(** [MongoConnectionOptions]; its [connectionName] field is [opt_connectionName]
    here, the name being taken by [ConnectionInfo]. *)
Record MongoConnectionOptions : Type := mkOptions {
  options : option MongoSecurityValidator.ConnectOptions;
  debug : bool;
  connectionTimeout : option Z;
  maxRetries : option JsNumber;
  retryDelay : option Z;
  allowedHosts : option (list string);
  opt_connectionName : option string
}.

(** A user callback.  The manager only depends on whether the call returns or
    throws; [None] is a callback that was not supplied. *)
Inductive CallbackBehaviour : Type :=
  | Returns
  | Throws (e : Thrown).

Record Callbacks : Type := mkCallbacks {
  onConnect : option CallbackBehaviour;
  onDisconnect : option CallbackBehaviour;
  onError : option CallbackBehaviour
}.

(** A [mongoose.Connection] as the manager sees it.  [close_failure] is what
    [close()] throws, if it does. *)
Record Connection : Type := mkConnection {
  readyState : Z;
  conn_host : string;
  conn_name : string;
  close_failure : option Thrown;
  listeners : list string
}.

(** State of a promise. *)
Inductive TaskState : Type :=
  | Pending
  | Fulfilled (handle : nat)
  | Rejected (e : Thrown).

(** [CachedConnection].  [connection] and [promise] refer to the heaps of
    handles and of promises; [info] is kept inside the record: the
    [ConnectionInfo] object is created with the record, the record's [info]
    field is never reassigned, and whoever holds the [ConnectionInfo] (the
    retry loop, the event listeners) is given the record's address. *)
Record CachedConnection : Type := mkCached {
  connection : option nat;
  promise : nat;
  info : ConnectionInfo;
  cc_options : MongoConnectionOptions;
  cc_callbacks : Callbacks
}.

Record GlobalMongoCache : Type := mkCache {
  connections : gmap string nat;   (* the Map, from name to record address *)
  initialized : bool
}.

Inductive ConsoleLevel : Type := LOG | WARN | ERR.

(** What a timer does when it fires. *)
Inductive TimerAction : Type :=
  | RejectTask (task : nat) (e : Thrown).

(** The process: the global cache slot, the manager's static flag, the heaps
    of records, handles and promises, pending timers, console output, the
    clock and the execution mode. *)
Record World : Type := mkWorld {
  global_cache : option GlobalMongoCache;
  shutdownHandlersRegistered : bool;
  objects : gmap nat CachedConnection;
  handles : gmap nat Connection;
  tasks : gmap nat TaskState;
  timers : gmap nat TimerAction;
  console : list (ConsoleLevel * string);
  clock : Z;
  NODE_ENV : option string
}.

Definition with_global_cache (c : option GlobalMongoCache) (w : World) : World :=
  mkWorld c (shutdownHandlersRegistered w) (objects w) (handles w) (tasks w)
          (timers w) (console w) (clock w) (NODE_ENV w).

Definition with_shutdownHandlersRegistered (b : bool) (w : World) : World :=
  mkWorld (global_cache w) b (objects w) (handles w) (tasks w)
          (timers w) (console w) (clock w) (NODE_ENV w).

Definition with_objects (o : gmap nat CachedConnection) (w : World) : World :=
  mkWorld (global_cache w) (shutdownHandlersRegistered w) o (handles w) (tasks w)
          (timers w) (console w) (clock w) (NODE_ENV w).

Definition with_handles (h : gmap nat Connection) (w : World) : World :=
  mkWorld (global_cache w) (shutdownHandlersRegistered w) (objects w) h (tasks w)
          (timers w) (console w) (clock w) (NODE_ENV w).

Definition with_tasks (t : gmap nat TaskState) (w : World) : World :=
  mkWorld (global_cache w) (shutdownHandlersRegistered w) (objects w) (handles w) t
          (timers w) (console w) (clock w) (NODE_ENV w).

Definition with_timers (t : gmap nat TimerAction) (w : World) : World :=
  mkWorld (global_cache w) (shutdownHandlersRegistered w) (objects w) (handles w)
          (tasks w) t (console w) (clock w) (NODE_ENV w).

Definition with_console (c : list (ConsoleLevel * string)) (w : World) : World :=
  mkWorld (global_cache w) (shutdownHandlersRegistered w) (objects w) (handles w)
          (tasks w) (timers w) c (clock w) (NODE_ENV w).

Definition with_clock (t : Z) (w : World) : World :=
  mkWorld (global_cache w) (shutdownHandlersRegistered w) (objects w) (handles w)
          (tasks w) (timers w) (console w) t (NODE_ENV w).

(** [console.log], [console.warn], [console.error] *)
Definition console_write (level : ConsoleLevel) (line : string) (w : World) : World :=
  with_console (console w ++ [(level, line)])%list w.

(** [if (options.debug) console.xxx(line)] *)
Definition debug_write (on : bool) (level : ConsoleLevel) (line : string) (w : World) : World :=
  if on then console_write level line w else w.

(** [initializeGlobalCache] and [getGlobalCache]: the cache object, created
    on first use. *)
Definition empty_cache : GlobalMongoCache :=
  {| connections := ∅; initialized := true |}.

Definition initializeGlobalCache (w : World) : GlobalMongoCache * World :=
  match global_cache w with
  | Some c => (c, w)
  | None => (empty_cache, with_global_cache (Some empty_cache) w)
  end.

Definition getGlobalCache (w : World) : GlobalMongoCache * World :=
  match global_cache w with
  | Some c => (c, w)
  | None => initializeGlobalCache w
  end.

(** Mutation of [cache.connections], the Map of the cache object. *)
Definition update_connections (f : gmap string nat -> gmap string nat) (w : World) : World :=
  match global_cache w with
  | Some c => with_global_cache (Some {| connections := f (connections c);
                                         initialized := initialized c |}) w
  | None => w
  end.

(** [cache.connections.get(name)]: the address of the record and the record. *)
Definition connections_get (name : string) (w : World) : option (nat * CachedConnection) :=
  match global_cache w with
  | Some c =>
      match connections c !! name with
      | Some addr => (fun cc => (addr, cc)) <$> objects w !! addr
      | None => None
      end
  | None => None
  end.

(** Assignment to fields of the record at [addr] and of its [info]. *)
Definition update_object (addr : nat) (f : CachedConnection -> CachedConnection)
    (w : World) : World :=
  with_objects (alter f addr (objects w)) w.

Definition update_info (addr : nat) (f : ConnectionInfo -> ConnectionInfo)
    (w : World) : World :=
  update_object addr
    (fun cc => mkCached (connection cc) (promise cc) (f (info cc))
                        (cc_options cc) (cc_callbacks cc)) w.

Definition set_connection (h : nat) (cc : CachedConnection) : CachedConnection :=
  mkCached (Some h) (promise cc) (info cc) (cc_options cc) (cc_callbacks cc).

Definition set_state (s : ConnectionState) (i : ConnectionInfo) : ConnectionInfo :=
  mkInfo s (connectedAt i) (lastError i) (host i) (database i) (connectionName i)
         (retryCount i).

Definition set_failure (e : Thrown) (attempt : Z) (i : ConnectionInfo) : ConnectionInfo :=
  mkInfo (state i) (connectedAt i) (Some e) (host i) (database i) (connectionName i)
         attempt.

Definition set_connected (now : Z) (c : Connection) (i : ConnectionInfo) : ConnectionInfo :=
  mkInfo CONNECTED (Some now) (lastError i) (Some (conn_host c)) (Some (conn_name c))
         (connectionName i) (retryCount i).

Definition set_retryCount (n : Z) (i : ConnectionInfo) : ConnectionInfo :=
  mkInfo (state i) (connectedAt i) (lastError i) (host i) (database i)
         (connectionName i) n.

(** Promises: creation, and [resolve] / [reject], which only act on a promise
    that is still pending. *)
Definition new_promise (w : World) : nat * World :=
  let t := fresh (dom (tasks w)) in
  (t, with_tasks (<[t := Pending]> (tasks w)) w).

Definition settle (t : nat) (s : TaskState) (w : World) : World :=
  match tasks w !! t with
  | Some Pending => with_tasks (<[t := s]> (tasks w)) w
  | _ => w
  end.

(** Timers.  A timer fires only from the event loop, that is between two
    synchronous sections; [run_timers] fires every timer that is still set. *)
Definition setTimeout (action : TimerAction) (w : World) : nat * World :=
  let id := fresh (dom (timers w)) in
  (id, with_timers (<[id := action]> (timers w)) w).

Definition clearTimeout (id : nat) (w : World) : World :=
  with_timers (delete id (timers w)) w.

Definition fire (action : TimerAction) (w : World) : World :=
  match action with
  | RejectTask t e => settle t (Rejected e) w
  end.

Definition run_timers (w : World) : World :=
  foldr (fun entry w' => fire entry.2 w') (with_timers ∅ w) (map_to_list (timers w)).

(** ** The database driver *)

(** What becomes of a handle that [mongoose.createConnection] returned while
    [waitForConnectionReady] waits for it. *)
Inductive Readiness : Type :=
  | ReadyInTime                 (* readyState 1 is seen, or 'connected' is emitted *)
  | EmitsError (e : Thrown)     (* 'error' is emitted first *)
  | NeverReady.                 (* neither happens before the deadline *)

Inductive DialOutcome : Type :=
  | CreateThrows (e : Thrown)
  | Created (c : Connection) (r : Readiness).

(** The driver's answer to the n-th call of [mongoose.createConnection] made
    by one retry loop. *)
Definition Driver : Type := Z -> DialOutcome.

(** [x || dflt] for an optional number. *)
Definition or_default (x : option Z) (dflt : Z) : Z :=
  match x with
  | Some n => if (n =? 0)%Z then dflt else n
  | None => dflt
  end.

(** [x || dflt] for an optional number that need not be whole; only zero
    is falsy. *)
Definition number_or_default (x : option JsNumber) (dflt : Z) : JsNumber :=
  match x with
  | Some (Whole n) => if (n =? 0)%Z then Whole dflt else Whole n
  | Some (Fractional below text) => Fractional below text
  | None => Whole dflt
  end.

(** [options.connectionName || DEFAULT_CONNECTION_NAME] *)
Definition name_or_default (x : option string) : string :=
  match x with
  | Some n => if String.eqb n "" then DEFAULT_CONNECTION_NAME else n
  | None => DEFAULT_CONNECTION_NAME
  end.

Module MongoConnectionManager.
Import JsString MongoSecurityValidator.

(** [registerShutdownHandlers]: the signal handlers are installed once. *)
Definition registerShutdownHandlers (w : World) : World :=
  if shutdownHandlersRegistered w then w
  else with_shutdownHandlersRegistered true w.

(** [waitForConnectionReady(connection, timeoutMs)] *)
Definition waitForConnectionReady (r : Readiness) (timeoutMs : Z) : Completion unit :=
  match r with
  | ReadyInTime => Normal tt
  | EmitsError e => Throw e
  | NeverReady =>
      Throw (ErrorInstance ("Connection timeout after " ++ pretty timeoutMs ++ "ms"))
  end.

(** A user callback called inside [try { await cb(...) } catch { console.error }]. *)
Definition invoke_callback (label : string) (cb : option CallbackBehaviour)
    (w : World) : World :=
  match cb with
  | Some (Throws e) =>
      console_write ERR ("[MongoConnector] " ++ label ++ " callback error: "
                         ++ message_of e) w
  | _ => w
  end.

(** [setupConnectionEvents]: three listeners are attached to the handle
    (what they do when the driver emits the events is not part of this
    development). *)
Definition setupConnectionEvents (c : Connection) : Connection :=
  mkConnection (readyState c) (conn_host c) (conn_name c) (close_failure c)
               (listeners c ++ ["error"; "disconnected"; "reconnected"]).

(** The handle as it is once [waitForConnectionReady] has resolved. *)
Definition ready (c : Connection) : Connection :=
  mkConnection 1 (conn_host c) (conn_name c) (close_failure c) (listeners c).

Definition new_handle (c : Connection) (w : World) : nat * World :=
  let h := fresh (dom (handles w)) in
  (h, with_handles (<[h := c]> (handles w)) w).

(** [await new Promise(resolve => setTimeout(resolve, retryDelay))] *)
Definition sleep (ms : Z) (w : World) : World :=
  with_clock (clock w + Z.max 0 ms) w.

(** How the two awaited calls that open the [try] block of one attempt
    complete: with the connection, ready, or with what one of them threw.
    The connection that the first call created stays in the process in either
    case: the loop stores it as a handle when the attempt succeeds, and
    [abandoned] below accounts for it when the wait throws. *)
Definition dial (driver : Driver) (attempt connectionTimeout : Z) : Completion Connection :=
  match driver attempt with
  | CreateThrows e => Throw e
  | Created c r =>
      match waitForConnectionReady r connectionTimeout with
      | Normal _ => Normal (ready c)
      | Throw e => Throw e
      end
  end.

(** The process after a failed attempt, as far as the driver goes.  When
    [createConnection] returned and the wait for readiness then threw, the
    [catch] clause does not close the connection, so it stays as it was
    created, open and referenced by nothing in the cache; when
    [createConnection] itself threw there is no connection. *)
Definition abandoned (driver : Driver) (attempt : Z) (w : World) : World :=
  match driver attempt with
  | Created c _ => (new_handle c w).2
  | CreateThrows _ => w
  end.

(** The [for] loop of [connectWithRetry].  [attempt] runs from 1 while
    [attempt <= maxRetries]; [remaining] counts the iterations that are left,
    and the [throw] after the loop is its [O] case. *)
Fixpoint retry_loop (remaining : nat) (attempt : Z) (maxRetries : JsNumber)
    (retryDelay connectionTimeout : Z)
    (driver : Driver) (userOptions : MongoConnectionOptions) (addr : nat)
    (cbs : Callbacks) (w : World) : World * Completion nat :=
  match remaining with
  | O => (w, Throw (ErrorInstance "Unexpected error in connection retry logic"))
  | S remaining' =>
      let name := from_option (fun cc => connectionName (info cc)) "" (objects w !! addr) in
      let w := debug_write (debug userOptions) LOG
                 ("[MongoConnector] Connection attempt " ++ pretty attempt ++ "/"
                  ++ number_text maxRetries ++ " for " ++ name) w in
      match dial driver attempt connectionTimeout with
      | Normal c =>
          let w := update_info addr (set_connected (clock w) c) w in
          let w := update_info addr (set_retryCount (attempt - 1)) w in
          let '(h, w) := new_handle (setupConnectionEvents c) w in
          let w := debug_write (debug userOptions) LOG
                     ("[MongoConnector] Successfully connected to " ++ name) w in
          let w := invoke_callback "onConnect" (onConnect cbs) w in
          (w, Normal h)
      | Throw error =>
          let w := abandoned driver attempt w in
          let w := update_info addr (set_failure error attempt) w in
          let w := debug_write (debug userOptions) ERR
                     ("[MongoConnector] Connection attempt " ++ pretty attempt
                      ++ " failed: " ++ message_of error) w in
          let w := invoke_callback "onError" (onError cbs) w in
          if identical attempt maxRetries then
            (update_info addr (set_state ERROR) w,
             Throw (ErrorInstance ("Failed to connect after " ++ number_text maxRetries
                                   ++ " attempts. Last error: " ++ message_of error)))
          else
            retry_loop remaining' (attempt + 1) maxRetries retryDelay connectionTimeout
                       driver userOptions addr cbs (sleep retryDelay w)
      end
  end.

(** [connectWithRetry]; [addr] is the record whose [info] it was given. *)
Definition connectWithRetry (driver : Driver) (userOptions : MongoConnectionOptions)
    (addr : nat) (cbs : Callbacks) (w : World) : World * Completion nat :=
  let maxRetries := number_or_default (maxRetries userOptions) SECURITY_CONFIG.MAX_RETRIES in
  let retryDelay := or_default (retryDelay userOptions) SECURITY_CONFIG.RETRY_DELAY in
  let connectionTimeout :=
    or_default (connectionTimeout userOptions) SECURITY_CONFIG.DEFAULT_TIMEOUT in
  retry_loop (Z.to_nat (whole_part maxRetries)) 1 maxRetries retryDelay connectionTimeout
             driver userOptions addr cbs w.

(** Where a call of [connect] stands when it first gives up control. *)
Inductive ConnectStep : Type :=
  | Refused (e : Thrown)                              (* threw during validation *)
  | Joined (task : nat)                               (* returned the cached promise *)
  | Started (name : string) (addr : nat) (task : nat). (* awaits its own promise *)

Section WithPlatform.
Context `{Platform}.

(** [connect], from its start to [await connectionPromise] (or to its
    [throw] or [return], when it does not get that far). *)
Definition connect_begin (uri : string) (opts : MongoConnectionOptions)
    (cbs : Callbacks) (w : World) : World * ConnectStep :=
  match validateURI (NODE_ENV w) uri (allowedHosts opts) with
  | Throw e => (w, Refused e)
  | Normal uriValidation =>
      if negb (isValid uriValidation) then
        (w, Refused (ErrorInstance ("Security validation failed: "
                                    ++ join ", " (errors uriValidation))))
      else
        let w := debug_write (debug opts && (0 <? length (warnings uriValidation))%nat)
                   WARN ("[MongoConnector] Security warnings: "
                         ++ join "," (warnings uriValidation)) w in
        let optionsValidation :=
          validateOptions (NODE_ENV w) (default no_options (options opts)) in
        if negb (isValid optionsValidation) then
          (w, Refused (ErrorInstance ("Options validation failed: "
                                      ++ join ", " (errors optionsValidation))))
        else
          let connectionName := name_or_default (opt_connectionName opts) in
          let '(_, w) := getGlobalCache w in
          let w := registerShutdownHandlers w in
          match connections_get connectionName w with
          | Some (_, existingConnection) =>
              let w := debug_write (debug opts) LOG
                         ("[MongoConnector] Reusing existing connection: "
                          ++ connectionName) w in
              (w, Joined (promise existingConnection))
          | None =>
              let connectionInfo :=
                {| state := CONNECTING; connectedAt := None; lastError := None;
                   host := None; database := None;
                   connectionName := connectionName; retryCount := 0 |} in
              let '(connectionPromise, w) := new_promise w in
              let cachedConnection :=
                {| connection := None; promise := connectionPromise;
                   info := connectionInfo; cc_options := opts;
                   cc_callbacks := cbs |} in
              let addr := fresh (dom (objects w)) in
              let w := with_objects (<[addr := cachedConnection]> (objects w)) w in
              let w := update_connections (insert connectionName addr) w in
              (w, Started connectionName addr connectionPromise)
          end
  end.

End WithPlatform.

(** The promise of [connectWithRetry] settles with the loop's completion. *)
Definition run_establishment (driver : Driver) (userOptions : MongoConnectionOptions)
    (addr task : nat) (cbs : Callbacks) (w : World) : World :=
  match connectWithRetry driver userOptions addr cbs w with
  | (w', Normal h) => settle task (Fulfilled h) w'
  | (w', Throw e) => settle task (Rejected e) w'
  end.

(** [connect], from the moment [await connectionPromise] is resumed: the
    body of its [try], or its [catch] clause.  [None] while the promise is
    pending (the call stays suspended). *)
Definition connect_resume (name : string) (addr task : nat) (w : World)
  : option (World * Completion nat) :=
  match tasks w !! task with
  | Some (Fulfilled h) =>
      let w := update_object addr (set_connection h) w in
      let w :=
        match handles w !! h with
        | Some c => update_info addr (set_connected (clock w) c) w
        | None => w
        end in
      Some (w, Normal h)
  | Some (Rejected error) =>
      Some (update_connections (delete name) w, Throw error)
  | _ => None
  end.

(** What the caller of an [async] function observes. *)
Inductive Outcome : Type :=
  | Resolves (handle : nat)
  | RejectsWith (e : Thrown)
  | StillWaiting (task : nat).

Definition outcome_of_task (task : nat) (w : World) : Outcome :=
  match tasks w !! task with
  | Some (Fulfilled h) => Resolves h
  | Some (Rejected e) => RejectsWith e
  | _ => StillWaiting task
  end.

Section WithPlatform.
Context `{Platform}.

(** A call of [connect] that nothing else interleaves with: the retry loop
    runs to its end before the call is resumed. *)
Definition connect (driver : Driver) (uri : string) (opts : MongoConnectionOptions)
    (cbs : Callbacks) (w : World) : World * Outcome :=
  match connect_begin uri opts cbs w with
  | (w1, Refused e) => (w1, RejectsWith e)
  | (w1, Joined task) => (w1, outcome_of_task task w1)
  | (w1, Started name addr task) =>
      let w2 := run_establishment driver opts addr task cbs w1 in
      match connect_resume name addr task w2 with
      | Some (w3, Normal h) => (w3, Resolves h)
      | Some (w3, Throw e) => (w3, RejectsWith e)
      | None => (w2, StillWaiting task)
      end
  end.

End WithPlatform.

(** [getConnection(connectionName)]: [cachedConnection?.connection || null] *)
Definition getConnection (connectionName : string) (w : World) : option nat * World :=
  let '(_, w) := getGlobalCache w in
  (connections_get connectionName w ≫= (fun entry => connection entry.2), w).

(** [connection.close()] *)
Definition close (h : nat) (w : World) : World * Completion unit :=
  match handles w !! h with
  | Some c =>
      match close_failure c with
      | Some e => (w, Throw e)
      | None =>
          (with_handles (<[h := mkConnection 0 (conn_host c) (conn_name c)
                                             (close_failure c) (listeners c)]>
                           (handles w)) w,
           Normal tt)
      end
  | None => (w, Normal tt)
  end.

(** [closeConnection(connectionName)] *)
Definition closeConnection (connectionName : string) (w : World)
  : World * Completion unit :=
  let '(_, w) := getGlobalCache w in
  match connections_get connectionName w with
  | Some (addr, cachedConnection) =>
      (* try { *)
      let w := update_info addr (set_state DISCONNECTING) w in
      let closed :=
        match connection cachedConnection with
        | Some h => close h w
        | None => (w, Normal tt)
        end in
      match closed with
      | (w, Normal _) =>
          (update_connections (delete connectionName) w, Normal tt)
      (* } catch (error) { *)
      | (w, Throw error) =>
          (console_write ERR ("[MongoConnector] Error closing connection "
                              ++ connectionName ++ ": " ++ message_of error) w,
           Normal tt)
      end
  | None => (w, Normal tt)
  end.

Record PoolStats : Type := mkPoolStats {
  totalConnections : nat;
  activeConnections : nat;
  pendingConnections : nat;
  failedConnections : nat;
  connectionNames : list string
}.

(** [c.connection?.readyState === 1] *)
Definition is_active (w : World) (c : CachedConnection) : bool :=
  match connection c ≫= (fun h => handles w !! h) with
  | Some conn => (readyState conn =? 1)%Z
  | None => false
  end.

Definition in_state (s : ConnectionState) (c : CachedConnection) : bool :=
  bool_decide (state (info c) = s).

(** [getPoolStats()].  The Map is a [gmap]: the names come in the order of
    the keys, not in the order of insertion. *)
Definition getPoolStats (w : World) : PoolStats * World :=
  let '(cache, w) := getGlobalCache w in
  let entries := map_to_list (connections cache) in
  let values := omap (fun entry => objects w !! entry.2) entries in
  ({| totalConnections := length entries;
      activeConnections := length (List.filter (is_active w) values);
      pendingConnections := length (List.filter (in_state CONNECTING) values);
      failedConnections := length (List.filter (in_state ERROR) values);
      connectionNames := entries.*1 |}, w).

(** [getConnectionWithTimeout(connectionName, timeoutMs)]: the executor of
    the promise it returns, and that promise. *)
Definition getConnectionWithTimeout (connectionName : string) (timeoutMs : Z)
    (w : World) : nat * World :=
  let '(task, w) := new_promise w in
  let '(timeout, w) :=
    setTimeout (RejectTask task (ErrorInstance ("Connection timeout after "
                                               ++ pretty timeoutMs ++ "ms"))) w in
  let '(connection, w) := getConnection connectionName w in
  let ready_handle :=
    connection ≫= (fun h =>
      match handles w !! h with
      | Some c => if (readyState c =? 1)%Z then Some h else None
      | None => None
      end) in
  match ready_handle with
  | Some h =>
      let w := clearTimeout timeout w in
      (task, settle task (Fulfilled h) w)
  | None =>
      let w := clearTimeout timeout w in
      (task, settle task (Rejected (ErrorInstance ("No active connection found for "
                                                  ++ connectionName))) w)
  end.

(** ** MongoConnectionManager: the remaining operations *)

(** [process.env.NODE_ENV === 'development'] *)
Definition is_development (NODE_ENV : option string) : bool :=
  match NODE_ENV with
  | Some v => String.eqb v "development"
  | None => false
  end.

(** A key of an object that the code spreads into another: the key is
    absent, or it is present, with a value or with [undefined]. *)
Inductive Key (A : Type) : Type :=
  | Absent
  | Present (value : option A).

Arguments Absent {A}.
Arguments Present {A} value.

(** Reading the key: [undefined] when it is absent. *)
Definition read {A : Type} (k : Key A) : option A :=
  match k with
  | Absent => None
  | Present value => value
  end.

(** One key of [{ ...base, ...user }], read: a key that is present in [user]
    wins, also when what it holds is [undefined]. *)
Definition spread {A : Type} (base : option A) (user : Key A) : option A :=
  match user with
  | Absent => base
  | Present value => value
  end.

(** The argument of [createSecureOptions], key by key. *)
Record MongooseOptionKeys : Type := mkMongooseOptionKeys {
  ssl_key : Key bool;
  tls_key : Key bool;
  tlsAllowInvalidCertificates_key : Key bool;
  tlsAllowInvalidHostnames_key : Key bool;
  maxPoolSize_key : Key Z;
  bufferMaxEntries_key : Key Z;
  serverSelectionTimeoutMS_key : Key Z;
  socketTimeoutMS_key : Key Z;
  connectTimeoutMS_key : Key Z;
  heartbeatFrequencyMS_key : Key Z;
  retryWrites_key : Key bool;
  retryReads_key : Key bool
}.

(** What [validateOptions] reads of that object. *)
Definition as_read (userOptions : MongooseOptionKeys) : ConnectOptions :=
  {| ssl := read (ssl_key userOptions);
     tls := read (tls_key userOptions);
     tlsAllowInvalidCertificates := read (tlsAllowInvalidCertificates_key userOptions);
     tlsAllowInvalidHostnames := read (tlsAllowInvalidHostnames_key userOptions);
     maxPoolSize := read (maxPoolSize_key userOptions);
     bufferMaxEntries := read (bufferMaxEntries_key userOptions) |}.

(** The object that [createSecureOptions] returns, as it is read: the fields
    that [validateOptions] knows, and the further fields that
    [createSecureOptions] gives a default. *)
Record MongooseOptions : Type := mkMongooseOptions {
  checked : ConnectOptions;
  serverSelectionTimeoutMS : option Z;
  socketTimeoutMS : option Z;
  connectTimeoutMS : option Z;
  heartbeatFrequencyMS : option Z;
  retryWrites : option bool;
  retryReads : option bool
}.

(** [createSecureOptions(userOptions)] *)
Definition createSecureOptions (NODE_ENV : option string) (userOptions : MongooseOptionKeys)
  : MongooseOptions :=
  let user := as_read userOptions in
  let baseOptions :=
    {| ssl := Some true;
       tls := Some true;
       tlsAllowInvalidCertificates := Some false;
       tlsAllowInvalidHostnames := Some false;
       maxPoolSize := Some 10%Z;
       bufferMaxEntries := None |} in
  let baseOptions :=
    if is_development NODE_ENV then
      {| ssl := Some (negb (is_false (ssl user)));
         tls := Some (negb (is_false (tls user)));
         tlsAllowInvalidCertificates := tlsAllowInvalidCertificates user;
         tlsAllowInvalidHostnames := tlsAllowInvalidHostnames user;
         maxPoolSize := maxPoolSize baseOptions;
         bufferMaxEntries := bufferMaxEntries baseOptions |}
    else baseOptions in
  {| checked :=
       {| ssl := spread (ssl baseOptions) (ssl_key userOptions);
          tls := spread (tls baseOptions) (tls_key userOptions);
          tlsAllowInvalidCertificates :=
            spread (tlsAllowInvalidCertificates baseOptions)
                   (tlsAllowInvalidCertificates_key userOptions);
          tlsAllowInvalidHostnames :=
            spread (tlsAllowInvalidHostnames baseOptions)
                   (tlsAllowInvalidHostnames_key userOptions);
          maxPoolSize := spread (maxPoolSize baseOptions) (maxPoolSize_key userOptions);
          bufferMaxEntries :=
            spread (bufferMaxEntries baseOptions) (bufferMaxEntries_key userOptions) |};
     serverSelectionTimeoutMS :=
       spread (Some SECURITY_CONFIG.DEFAULT_TIMEOUT) (serverSelectionTimeoutMS_key userOptions);
     socketTimeoutMS :=
       spread (Some SECURITY_CONFIG.DEFAULT_TIMEOUT) (socketTimeoutMS_key userOptions);
     connectTimeoutMS :=
       spread (Some SECURITY_CONFIG.DEFAULT_TIMEOUT) (connectTimeoutMS_key userOptions);
     heartbeatFrequencyMS := spread (Some 30000%Z) (heartbeatFrequencyMS_key userOptions);
     retryWrites := spread (Some true) (retryWrites_key userOptions);
     retryReads := spread (Some true) (retryReads_key userOptions) |}.

(** [getConnectionInfo(connectionName)]: [cachedConnection?.info || null] *)
Definition getConnectionInfo (connectionName : string) (w : World)
  : option ConnectionInfo * World :=
  let '(_, w) := getGlobalCache w in
  ((fun entry : nat * CachedConnection => info entry.2)
     <$> connections_get connectionName w, w).

(** [connection?.readyState] *)
Definition readyState_of (connection : option nat) (w : World) : option Z :=
  connection ≫= (fun h => readyState <$> handles w !! h).

(** [isConnected(connectionName)] *)
Definition isConnected (connectionName : string) (w : World) : bool * World :=
  let '(connection, w) := getConnection connectionName w in
  let '(connectionInfo, w) := getConnectionInfo connectionName w in
  if negb (bool_decide (readyState_of connection w = Some 1%Z)) then (false, w)
  else (bool_decide (state <$> connectionInfo = Some CONNECTED), w).

(** The string that a member of the [ConnectionState] enum stands for. *)
Definition state_name (s : ConnectionState) : string :=
  match s with
  | DISCONNECTED => "disconnected"
  | CONNECTING => "connecting"
  | CONNECTED => "connected"
  | DISCONNECTING => "disconnecting"
  | ERROR => "error"
  end.

(** The result of [isConnectedWithVerification]; its first three fields are
    [isConnected], [readyState] and [connectionState] in the source. *)
Record Verification : Type := mkVerification {
  verified_isConnected : bool;
  verified_readyState : Z;
  verified_connectionState : string;
  readyStateConnected : bool;
  infoStateConnected : bool;
  connectionExists : bool
}.

(** [isConnectedWithVerification(connectionName)] *)
Definition isConnectedWithVerification (connectionName : string) (w : World)
  : Verification * World :=
  let '(connection, w) := getConnection connectionName w in
  let '(connectionInfo, w) := getConnectionInfo connectionName w in
  let readyStateConnected := bool_decide (readyState_of connection w = Some 1%Z) in
  let infoStateConnected := bool_decide (state <$> connectionInfo = Some CONNECTED) in
  let connectionExists := bool_decide (is_Some connection) in
  ({| verified_isConnected := readyStateConnected && infoStateConnected;
      verified_readyState := or_default (readyState_of connection w) 0;
      verified_connectionState :=
        from_option (fun i => state_name (state i)) "unknown" connectionInfo;
      readyStateConnected := readyStateConnected;
      infoStateConnected := infoStateConnected;
      connectionExists := connectionExists |}, w).

(** [closeAllConnections()].  The calls of [closeConnection] are started
    one after the other, for the names the Map holds at that moment, and each
    one works on its own name: the process ends as if they had run in turn
    (the lines of the console apart, whose order follows the handles). *)
Definition closeAllConnections (w : World) : World * Completion unit :=
  let '(cache, w) := getGlobalCache w in
  (foldl (fun w name => (closeConnection name w).1) w (map_to_list (connections cache)).*1,
   Normal tt).

(** [getAllConnectionsInfo()] *)
Definition getAllConnectionsInfo (w : World) : gmap string ConnectionInfo * World :=
  let '(cache, w) := getGlobalCache w in
  (omap (fun addr => info <$> objects w !! addr) (connections cache), w).

(** [cleanup()] *)
Definition cleanup (w : World) : World * Completion unit :=
  let '(_, w) := getGlobalCache w in
  match closeAllConnections w with
  | (w, Normal _) =>
      let w := update_connections (fun _ => ∅) w in
      let w := with_global_cache
                 ((fun c => {| connections := connections c; initialized := false |})
                    <$> global_cache w) w in
      let w := with_global_cache None w in
      (console_write LOG "[MongoConnector] Cleanup completed successfully" w, Normal tt)
  | (w, Throw error) =>
      (console_write ERR ("[MongoConnector] Cleanup error: " ++ message_of error) w,
       Throw error)
  end.

(** [resetConnectorState()] *)
Definition resetConnectorState (w : World) : World :=
  let w :=
    with_global_cache
      ((fun _ => {| connections := ∅; initialized := false |}) <$> global_cache w) w in
  let w := with_shutdownHandlersRegistered false w in
  console_write LOG "[MongoConnector] Connector state reset" w.

(** The result of [healthCheck]; [health_name], [health_state] and
    [health_error] are [connectionName], [state] and [error] in the source. *)
Record HealthCheck : Type := mkHealthCheck {
  isHealthy : bool;
  health_name : string;
  health_state : ConnectionState;
  latency : option Z;
  lastPing : option Z;
  health_error : option string
}.

(** What the driver answers to [connection.db.admin().ping()] on a handle:
    by how much [Date.now()] has changed when the probe is over, and what the
    probe threw, if it did. *)
Record PingResult : Type := mkPingResult {
  elapsed : Z;
  ping_failure : option Thrown
}.

Definition Pinger : Type := nat -> PingResult.

(** [availableConnections.join(', ') || 'none'] *)
Definition names_or_none (names : list string) : string :=
  if String.eqb (join ", " names) "" then "none" else join ", " names.

(** [healthCheck(connectionName)] *)
Definition healthCheck (ping : Pinger) (connectionName : string) (w : World)
  : HealthCheck * World :=
  let '(connection, w) := getConnection connectionName w in
  let '(info, w) := getConnectionInfo connectionName w in
  match connection, info with
  | Some h, Some info =>
      if negb (bool_decide (readyState_of (Some h) w = Some 1%Z)) then
        ({| isHealthy := false;
            health_name := connectionName;
            health_state := state info;
            latency := None;
            lastPing := None;
            health_error :=
              Some ("Connection not ready. ReadyState: "
                    ++ from_option pretty "undefined" (readyState_of (Some h) w)
                    ++ ", State: " ++ state_name (state info)) |}, w)
      else
        let start := clock w in
        let answer := ping h in
        let w := with_clock (clock w + elapsed answer) w in
        match ping_failure answer with
        | None =>
            ({| isHealthy := true;
                health_name := connectionName;
                health_state := state info;
                latency := Some (clock w - start)%Z;
                lastPing := Some (clock w);
                health_error := None |}, w)
        | Some error =>
            ({| isHealthy := false;
                health_name := connectionName;
                health_state := state info;
                latency := None;
                lastPing := None;
                health_error := Some (message_or_unknown error) |}, w)
        end
  | _, _ =>
      let '(cache, w) := getGlobalCache w in
      let availableConnections := (map_to_list (connections cache)).*1 in
      ({| isHealthy := false;
          health_name := connectionName;
          health_state := DISCONNECTED;
          latency := None;
          lastPing := None;
          health_error :=
            Some ("Connection '" ++ connectionName ++ "' not found. Available connections: "
                  ++ names_or_none availableConnections) |}, w)
  end.

(** The object [reported] of [startConnectionMonitoring], a plain object
    used as a map.  Assigning a boolean to its property [__proto__] creates
    no property of its own. *)
Definition reported_has (name : string) (reported : gmap string bool) : bool :=
  bool_decide (is_Some (reported !! name)).

Definition reported_set (name : string) (value : bool) (reported : gmap string bool)
  : gmap string bool :=
  if String.eqb name "__proto__" then reported else <[name := value]> reported.

(** One step of [allInfo.forEach] in the closure [check]; [listening] says
    whether [onHealthChange] was supplied.  The calls of [onHealthChange] are
    collected; the callback is taken to return. *)
Definition check_one (listening : bool) (name : string) (info : ConnectionInfo)
    (acc : list (string * bool) * gmap string bool)
  : list (string * bool) * gmap string bool :=
  let isHealthy := bool_decide (state info = CONNECTED) in
  if listening &&
     (negb (reported_has name acc.2) || negb (bool_decide (acc.2 !! name = Some isHealthy)))
  then ((acc.1 ++ [(name, isHealthy)])%list, reported_set name isHealthy acc.2)
  else acc.

(** The closure [check] of [startConnectionMonitoring]: the calls it makes
    and the [reported] object it leaves. *)
Definition check (listening : bool) (reported : gmap string bool) (w : World)
  : list (string * bool) * gmap string bool * World :=
  let '(allInfo, w) := getAllConnectionsInfo w in
  (foldl (fun acc entry => check_one listening entry.1 entry.2 acc)
         ([], reported) (map_to_list allInfo), w).

(** The variables of [process.env] that name a target. *)
Record ProcessEnv : Type := mkProcessEnv {
  MONGODB_URI : option string;
  MONGO_URI : option string;
  DATABASE_URL : option string
}.

(** [a || b] for optional strings: [a] when it is truthy, else [b] as it is. *)
Definition or_string (a b : option string) : option string :=
  match a with
  | Some s => if String.eqb s "" then b else Some s
  | None => b
  end.

(** [!uri] *)
Definition is_falsy (uri : option string) : bool :=
  match uri with
  | Some s => String.eqb s ""
  | None => true
  end.

Section WithPlatform.
Context `{Platform}.

(** [getMongoUri(fallbackUri)] *)
Definition getMongoUri (env : ProcessEnv) (fallbackUri : option string) (w : World)
  : World * Completion string :=
  let uri := or_string (MONGODB_URI env)
               (or_string (MONGO_URI env) (or_string (DATABASE_URL env) fallbackUri)) in
  if is_falsy uri then
    (w, Throw (ErrorInstance "MongoDB URI not found. Set one of: MONGODB_URI, MONGO_URI, DATABASE_URL environment variables, or provide fallbackUri"))
  else
    let uri := default "" uri in
    match validateURI (NODE_ENV w) uri None with
    | Throw e => (w, Throw e)
    | Normal validation =>
        if negb (isValid validation) then
          (w, Throw (ErrorInstance ("Invalid MongoDB URI: " ++ join ", " (errors validation))))
        else
          let w := debug_write (0 <? length (warnings validation))%nat WARN
                     ("[MongoConnector] URI warnings: " ++ join "," (warnings validation)) w in
          (w, Normal uri)
    end.

(** The second argument of [quickConnect], a [Partial<MongoConnectionOptions>]. *)
Record QuickConnectOptions : Type := mkQuickConnectOptions {
  quick_options : Key ConnectOptions;
  quick_debug : Key bool;
  quick_connectionTimeout : Key Z;
  quick_maxRetries : Key JsNumber;
  quick_retryDelay : Key Z;
  quick_allowedHosts : Key (list string);
  quick_connectionName : Key string
}.

(** [defaultOptions] of [quickConnect], as [connect] reads it: the defaults,
    then [...options]. *)
Definition quick_defaults (NODE_ENV : option string) (connectionName : option string)
    (quick : QuickConnectOptions) : MongoConnectionOptions :=
  {| options := read (quick_options quick);
     debug := default false (spread (Some (is_development NODE_ENV)) (quick_debug quick));
     connectionTimeout := spread (Some 30000%Z) (quick_connectionTimeout quick);
     maxRetries := spread (Some (Whole 3)) (quick_maxRetries quick);
     retryDelay := spread (Some 2000%Z) (quick_retryDelay quick);
     allowedHosts := read (quick_allowedHosts quick);
     opt_connectionName :=
       spread (Some (default DEFAULT_CONNECTION_NAME connectionName))
              (quick_connectionName quick) |}.

(** [quickConnect(connectionName, options)], as a call that nothing
    interleaves with. *)
Definition quickConnect (env : ProcessEnv) (driver : Driver)
    (connectionName : option string) (quick : QuickConnectOptions) (w : World)
  : World * Outcome :=
  match getMongoUri env None w with
  | (w, Throw error) =>
      (w, RejectsWith (ErrorInstance ("Quick connect failed: " ++ message_or_unknown error)))
  | (w, Normal uri) =>
      match connect driver uri (quick_defaults (NODE_ENV w) connectionName quick)
                    {| onConnect := None; onDisconnect := None; onError := None |} w with
      | (w, RejectsWith error) =>
          (w, RejectsWith (ErrorInstance ("Quick connect failed: "
                                          ++ message_or_unknown error)))
      | settled => settled
      end
  end.

(** An element of the argument of [connectMultiDb]. *)
Record MultiDbConnection : Type := mkMultiDbConnection {
  multi_uri : string;
  multi_name : string;
  multi_options : option MongoConnectionOptions;
  multi_callbacks : Callbacks
}.

(** [{ ...conn.options, connectionName: conn.name }] *)
Definition named_options (conn : MultiDbConnection) : MongoConnectionOptions :=
  match multi_options conn with
  | Some o =>
      {| options := options o; debug := debug o;
         connectionTimeout := connectionTimeout o; maxRetries := maxRetries o;
         retryDelay := retryDelay o; allowedHosts := allowedHosts o;
         opt_connectionName := Some (multi_name conn) |}
  | None =>
      {| options := None; debug := false; connectionTimeout := None; maxRetries := None;
         retryDelay := None; allowedHosts := None;
         opt_connectionName := Some (multi_name conn) |}
  end.

(** The loop of [connectMultiDb] that validates every target: the error of
    the first entry whose target is not valid. *)
Fixpoint first_invalid_target (NODE_ENV : option string) (conns : list MultiDbConnection)
  : option Thrown :=
  match conns with
  | [] => None
  | conn :: rest =>
      match validateURI NODE_ENV (multi_uri conn)
              (multi_options conn ≫= allowedHosts) with
      | Throw e => Some e
      | Normal validation =>
          if negb (isValid validation) then
            Some (ErrorInstance ("Security validation failed for " ++ multi_name conn
                                 ++ ": " ++ join ", " (errors validation)))
          else first_invalid_target NODE_ENV rest
      end
  end.

(** Where [connectMultiDb] stands when it first gives up control: it threw
    during its checks, or it has started one call of [connect] per entry. *)
Inductive MultiDbStep : Type :=
  | MultiRefused (e : Thrown)
  | MultiStarted (steps : list (string * ConnectStep)).

(** [connectMultiDb(connections)], from its start to [await Promise.all]. *)
Definition connectMultiDb_begin (conns : list MultiDbConnection) (w : World)
  : World * MultiDbStep :=
  if bool_decide (length conns = 0%nat) then
    (w, MultiRefused (ErrorInstance "At least one connection configuration is required"))
  else
    let names := multi_name <$> conns in
    let uniqueNames : gset string := list_to_set names in
    if negb (bool_decide (length names = size uniqueNames)) then
      (w, MultiRefused (ErrorInstance "Connection names must be unique"))
    else
      match first_invalid_target (NODE_ENV w) conns with
      | Some e => (w, MultiRefused e)
      | None =>
          let '(w, steps) :=
            foldl (fun acc conn =>
                     let '(w, step) :=
                       connect_begin (multi_uri conn) (named_options conn)
                                     (multi_callbacks conn) acc.1 in
                     (w, (acc.2 ++ [(multi_name conn, step)])%list))
                  (w, []) conns in
          (w, MultiStarted steps)
      end.

End WithPlatform.

End MongoConnectionManager.

(** ** The exported functions of [index.ts] that do more than forward *)

Module Index.
Import MongoSecurityValidator MongoConnectionManager.

Section WithPlatform.
Context `{Platform}.

(** [connectMongo(uri, options, onConnect, onDisconnect, onError)] *)
Definition connectMongo (env : ProcessEnv) (driver : Driver) (uri : option string)
    (opts : MongoConnectionOptions) (cbs : Callbacks) (w : World) : World * Outcome :=
  let connectionUri := or_string uri (or_string (MONGODB_URI env) (MONGO_URI env)) in
  if is_falsy connectionUri then
    (w, RejectsWith (ErrorInstance "MongoDB URI is required. Provide it as parameter or set MONGODB_URI environment variable."))
  else connect driver (default "" connectionUri) opts cbs w.

End WithPlatform.

(** [getConnection(connectionName?)]; an absent name is the manager's
    default name. *)
Definition getConnection (connectionName : option string) (w : World)
  : World * Completion nat :=
  let '(connection, w) :=
    MongoConnectionManager.getConnection
      (default DEFAULT_CONNECTION_NAME connectionName) w in
  match connection with
  | Some h => (w, Normal h)
  | None =>
      (w, Throw (ErrorInstance
                   ("No active connection found"
                    ++ (if is_falsy connectionName then ""
                        else " for " ++ default "" connectionName))))
  end.

End Index.

(** ** Sample inputs

    A finite table of what [new URL] answers for the targets used in the
    examples below (a [mongodb:] URL is not special for the WHATWG parser: its
    host is kept as written, it has no default port, and its path is empty when
    the target has none), and a driver that never connects. *)

Module Samples.
Import MongoSecurityValidator.

Definition mongodb_url (user pass hostname port pathname search : string) : URL :=
  {| protocol := "mongodb:"; username := user; password := pass;
     hostname := hostname; port := port; pathname := pathname;
     search := search; hash := "" |}.

Definition url_table : list (string * URL) :=
  [ ("mongodb://host/", mongodb_url "" "" "host" "" "/" "");
    ("mongodb://db.example.com/", mongodb_url "" "" "db.example.com" "" "/" "");
    ("mongodb://db.example.com:0", mongodb_url "" "" "db.example.com" "0" "" "");
    ("mongodb://host/db", mongodb_url "" "" "host" "" "/db" "");
    ("mongodb://invalid", mongodb_url "" "" "invalid" "" "" "");
    ("mongodb://localhost", mongodb_url "" "" "localhost" "" "" "");
    ("mongodb://localhost:27017/test", mongodb_url "" "" "localhost" "27017" "/test" "");
    ("mongodb://mongodb.net:27017/test", mongodb_url "" "" "mongodb.net" "27017" "/test" "");
    ("mongodb://cluster0.mongodb.net:27017/test",
       mongodb_url "" "" "cluster0.mongodb.net" "27017" "/test" "");
    ("mongodb://localhost:27017/test?authMechanism=javascript:alert(1)",
       mongodb_url "" "" "localhost" "27017" "/test" "?authMechanism=javascript:alert(1)") ].

Fixpoint table_lookup (uri : string) (table : list (string * URL)) : Completion URL :=
  match table with
  | [] => Throw (ErrorInstance "Invalid URL")
  | (key, url) :: rest => if String.eqb uri key then Normal url else table_lookup uri rest
  end.

Definition node : Platform := {| new_URL uri := table_lookup uri url_table |}.

Definition no_callbacks : Callbacks :=
  {| onConnect := None; onDisconnect := None; onError := None |}.

Definition default_options : MongoConnectionOptions :=
  {| options := None; debug := false; connectionTimeout := None; maxRetries := None;
     retryDelay := None; allowedHosts := None; opt_connectionName := None |}.

Definition fresh_process : World :=
  {| global_cache := None; shutdownHandlersRegistered := false; objects := ∅;
     handles := ∅; tasks := ∅; timers := ∅; console := []; clock := 0;
     NODE_ENV := None |}.

(** A server that refuses every connection. *)
Definition unreachable_server : Driver :=
  fun _ => CreateThrows (ErrorInstance "connect ECONNREFUSED 127.0.0.1:27017").

(** A server that accepts at once. *)
Definition healthy_server : Driver :=
  fun _ => Created {| readyState := 2; conn_host := "localhost"; conn_name := "test";
                      close_failure := None; listeners := [] |} ReadyInTime.

(** A process that holds one connected record, [default], whose handle
    throws when it is closed. *)
Definition broken_handle : Connection :=
  {| readyState := 1; conn_host := "localhost"; conn_name := "test";
     close_failure := Some (ErrorInstance "topology was destroyed"); listeners := [] |}.

Definition connected_record : CachedConnection :=
  {| connection := Some 0%nat; promise := 0%nat;
     info := {| state := CONNECTED; connectedAt := Some 0%Z; lastError := None;
                host := Some "localhost"; database := Some "test";
                connectionName := "default"; retryCount := 0 |};
     cc_options := default_options; cc_callbacks := no_callbacks |}.

Definition process_with_broken_handle : World :=
  {| global_cache := Some {| connections := {[ "default" := 0%nat ]}; initialized := true |};
     shutdownHandlersRegistered := true;
     objects := {[ 0%nat := connected_record ]};
     handles := {[ 0%nat := broken_handle ]};
     tasks := {[ 0%nat := Fulfilled 0%nat ]};
     timers := ∅; console := []; clock := 0; NODE_ENV := None |}.

(** More sample data: a server that accepts the second connection, processes
    that hold a record, probes, environments and empty option objects. *)
Import MongoConnectionManager.

Definition flaky_server : Driver :=
  fun attempt =>
    if (attempt =? 1)%Z then CreateThrows (ErrorInstance "connect ETIMEDOUT")
    else healthy_server attempt.

Definition sound_handle : Connection :=
  {| readyState := 1; conn_host := "localhost"; conn_name := "test";
     close_failure := None; listeners := [] |}.

Definition process_with_connection : World :=
  {| global_cache := Some {| connections := {[ "default" := 0%nat ]}; initialized := true |};
     shutdownHandlersRegistered := true;
     objects := {[ 0%nat := connected_record ]};
     handles := {[ 0%nat := sound_handle ]};
     tasks := {[ 0%nat := Fulfilled 0%nat ]};
     timers := ∅; console := []; clock := 0; NODE_ENV := None |}.

Definition connecting_record : CachedConnection :=
  {| connection := None; promise := 0%nat;
     info := {| state := CONNECTING; connectedAt := None; lastError := None;
                host := None; database := None;
                connectionName := "default"; retryCount := 0 |};
     cc_options := default_options; cc_callbacks := no_callbacks |}.

Definition process_while_connecting : World :=
  {| global_cache := Some {| connections := {[ "default" := 0%nat ]}; initialized := true |};
     shutdownHandlersRegistered := true;
     objects := {[ 0%nat := connecting_record ]};
     handles := ∅;
     tasks := {[ 0%nat := Pending ]};
     timers := ∅; console := []; clock := 0; NODE_ENV := None |}.

Definition quick_ping : Pinger :=
  fun _ => {| elapsed := 12; ping_failure := None |}.

Definition no_environment : ProcessEnv :=
  {| MONGODB_URI := None; MONGO_URI := None; DATABASE_URL := None |}.


Definition environment_with_database_url : ProcessEnv :=
  {| MONGODB_URI := None; MONGO_URI := Some ""; DATABASE_URL := Some "mongodb://host/db" |}.

Definition no_quick_options : QuickConnectOptions :=
  {| quick_options := Absent; quick_debug := Absent; quick_connectionTimeout := Absent;
     quick_maxRetries := Absent; quick_retryDelay := Absent; quick_allowedHosts := Absent;
     quick_connectionName := Absent |}.

(** [{}] *)
Definition no_mongoose_options : MongooseOptionKeys :=
  {| ssl_key := Absent; tls_key := Absent; tlsAllowInvalidCertificates_key := Absent;
     tlsAllowInvalidHostnames_key := Absent; maxPoolSize_key := Absent;
     bufferMaxEntries_key := Absent; serverSelectionTimeoutMS_key := Absent;
     socketTimeoutMS_key := Absent; connectTimeoutMS_key := Absent;
     heartbeatFrequencyMS_key := Absent; retryWrites_key := Absent;
     retryReads_key := Absent |}.

(** [{ ssl: undefined }] *)
Definition ssl_undefined : MongooseOptionKeys :=
  {| ssl_key := Present None; tls_key := Absent; tlsAllowInvalidCertificates_key := Absent;
     tlsAllowInvalidHostnames_key := Absent; maxPoolSize_key := Absent;
     bufferMaxEntries_key := Absent; serverSelectionTimeoutMS_key := Absent;
     socketTimeoutMS_key := Absent; connectTimeoutMS_key := Absent;
     heartbeatFrequencyMS_key := Absent; retryWrites_key := Absent;
     retryReads_key := Absent |}.

(** A retry budget of one and a half. *)
Definition one_and_a_half : JsNumber := Fractional 1 "1.5".

Definition fractional_budget : MongoConnectionOptions :=
  {| options := None; debug := false; connectionTimeout := None;
     maxRetries := Some one_and_a_half; retryDelay := None; allowedHosts := None;
     opt_connectionName := None |}.


Definition unnamed_options : MongoConnectionOptions :=
  {| options := None; debug := false; connectionTimeout := None; maxRetries := None;
     retryDelay := None; allowedHosts := None; opt_connectionName := Some "" |}.

End Samples.

(** ** Vocabulary of the statements *)

(** The flag and the error list of a validation result agree. *)
Definition consistent (r : SecurityValidation) : Prop :=
  isValid r = true <-> errors r = [].

(** Options that switch transport encryption off or accept invalid
    certificates or host names. *)
Definition insecure (o : MongoSecurityValidator.ConnectOptions) : Prop :=
  MongoSecurityValidator.ssl o = Some false \/
  MongoSecurityValidator.tls o = Some false \/
  MongoSecurityValidator.tlsAllowInvalidCertificates o = Some true \/
  MongoSecurityValidator.tlsAllowInvalidHostnames o = Some true.



(** A string made of decimal digits only. *)
Fixpoint all_digits (s : string) : bool :=
  match s with
  | EmptyString => true
  | String c s' => JsString.is_digit c && all_digits s'
  end.

(** The Map of the cache object, empty while the object does not exist. *)
Definition cache_map (w : World) : gmap string nat :=
  match global_cache w with
  | Some c => connections c
  | None => ∅
  end.

(** The record as [closeConnection] leaves it when it does not remove it. *)
Definition disconnecting (cc : CachedConnection) : CachedConnection :=
  mkCached (connection cc) (promise cc) (set_state DISCONNECTING (info cc))
           (cc_options cc) (cc_callbacks cc).

(** The handle of the record cached under [name], if that handle is ready. *)
Definition ready_connection (name : string) (w : World) : option nat :=
  match connections_get name w with
  | Some (_, cc) =>
      match connection cc with
      | Some h =>
          match handles w !! h with
          | Some c => if (readyState c =? 1)%Z then Some h else None
          | None => None
          end
      | None => None
      end
  | None => None
  end.

(** The part of a record that the retry loop leaves alone. *)
Definition same_identity (cc cc' : CachedConnection) : Prop :=
  connection cc' = connection cc /\ promise cc' = promise cc /\
  connectionName (info cc') = connectionName (info cc).

(** What no run of the retry loop changes: the cache object, the promises,
    the execution mode, and which promise a record belongs to. *)
Definition loop_frame (w w' : World) : Prop :=
  global_cache w' = global_cache w /\
  tasks w' = tasks w /\
  NODE_ENV w' = NODE_ENV w /\
  (forall a cc, objects w !! a = Some cc ->
     exists cc', objects w' !! a = Some cc' /\ promise cc' = promise cc).

(** The process as [connect] has it when it looks the name up: the warnings
    are logged, the cache object exists, the signal handlers are installed. *)
Definition at_lookup (line : string) (on : bool) (w : World) : World :=
  MongoConnectionManager.registerShutdownHandlers
    (getGlobalCache (debug_write on WARN line w)).2.

(** Target and options get past the two validations of [connect]. *)
Definition passes_validation `{Platform} (env : option string) (uri : string)
    (opts : MongoConnectionOptions) : Prop :=
  (exists rv, MongoSecurityValidator.validateURI env uri (allowedHosts opts) = Normal rv /\
              isValid rv = true) /\
  isValid (MongoSecurityValidator.validateOptions env
             (default MongoSecurityValidator.no_options (options opts))) = true.

(** A validation that returned an invalid result with at least one error. *)
Definition rejected (r : Completion SecurityValidation) : bool :=
  match r with
  | Normal v => negb (isValid v) && (0 <? length (errors v))%nat
  | Throw _ => false
  end.

(** The state that the record cached under [name] is in. *)
Definition record_state (name : string) (w : World) : option ConnectionState :=
  (fun entry : nat * CachedConnection => state (info entry.2)) <$> connections_get name w.

(** A handle after a [close()] that returned. *)
Definition closed (c : Connection) : Connection :=
  mkConnection 0 (conn_host c) (conn_name c) (close_failure c) (listeners c).

(** Every name of the Map leads to a record. *)
Definition records_allocated (w : World) : Prop :=
  forall name addr, cache_map w !! name = Some addr -> is_Some (objects w !! addr).

(** No handle throws when it is closed. *)
Definition handles_close_cleanly (w : World) : Prop :=
  forall h c, handles w !! h = Some c -> close_failure c = None.

(** The info of a record once attempt [k] of the retry loop has succeeded
    with the handle [c] at time [now]; [previous] is the last error recorded
    before. *)
Definition connected_info (name : string) (now : Z) (c : Connection)
    (previous : option Thrown) (k : Z) : ConnectionInfo :=
  {| state := CONNECTED; connectedAt := Some now; lastError := previous;
     host := Some (conn_host c); database := Some (conn_name c);
     connectionName := name; retryCount := k - 1 |}.

(** What [validateURI] requires of a parsed target. *)
Definition acceptable (uri : string) (allowed : option (list string)) (url : URL) : Prop :=
  existsb (String.eqb (JsString.dropLast (protocol url))) SECURITY_CONFIG.ALLOWED_PROTOCOLS
  = true /\
  (allowed = None \/ allowed = Some [] \/
   exists hosts, allowed = Some hosts /\
                 MongoSecurityValidator.isAllowed (hostname url) hosts = true) /\
  JsString.includes "javascript:" uri = false /\
  JsString.includes "data:" uri = false /\
  MongoSecurityValidator.placeholder_hostname url = false /\
  MongoSecurityValidator.degenerate_path url = false.

(** The target of an entry of [connectMultiDb] passes [validateURI] with the
    entry's own allow-list. *)
Definition target_accepted `{Platform} (env : option string)
    (conn : MongoConnectionManager.MultiDbConnection) : Prop :=
  exists rv,
    MongoSecurityValidator.validateURI env (MongoConnectionManager.multi_uri conn)
      (MongoConnectionManager.multi_options conn ≫= allowedHosts) = Normal rv /\
    isValid rv = true.

(** What the monitor calls [healthy]. *)
Definition healthy (i : ConnectionInfo) : bool := bool_decide (state i = CONNECTED).

(** What one step of [check] calls the callback with, if it calls it. *)
Definition report (reported : gmap string bool) (entry : string * ConnectionInfo)
  : option (string * bool) :=
  if bool_decide (reported !! entry.1 = Some (healthy entry.2)) then None
  else Some (entry.1, healthy entry.2).

(** The run of [check] number [n] (counted from 0) of a monitor that was
    started in [w] with a callback, when nothing else runs in between: the
    calls of the callback that this run makes, the [reported] object and the
    process after it. *)
Fixpoint monitor_round (n : nat) (w : World)
  : list (string * bool) * gmap string bool * World :=
  match n with
  | O => MongoConnectionManager.check true ∅ w
  | S n' => MongoConnectionManager.check true (monitor_round n' w).1.2 (monitor_round n' w).2
  end.

(** An optional size that is set and larger than [bound]. *)
Definition above (bound : Z) (x : option Z) : bool :=
  match x with
  | Some n => (bound <? n)%Z
  | None => false
  end.

(** * Proofs *)

Import JsString MongoSecurityValidator MongoConnectionManager.

Section StringFacts.
Implicit Types (s p a b suffix needle : string) (c : ascii).

Lemma app_cons c a b : String c a ++ b = String c (a ++ b).
Proof. reflexivity. Qed.

Lemma app_empty s : "" ++ s = s.
Proof. reflexivity. Qed.

Lemma startsWith_app p s : startsWith p (p ++ s) = true.
Proof.
  induction p as [|c p IH]; [done|].
  rewrite app_cons. simpl. by rewrite Ascii.eqb_refl, IH.
Qed.

Lemma startsWith_inv p s : startsWith p s = true -> exists r, s = p ++ r.
Proof.
  revert s. induction p as [|c p IH]; intros s Hp.
  - by exists s.
  - destruct s as [|c' s]; [done|]. simpl in Hp.
    apply andb_true_iff in Hp as [Hc Hp]. apply Ascii.eqb_eq in Hc as ->.
    destruct (IH _ Hp) as [r ->]. by exists r.
Qed.

Lemma includes_app a needle b : includes needle (a ++ needle ++ b) = true.
Proof.
  induction a as [|c a IH].
  - rewrite app_empty. destruct (needle ++ b) eqn:E; simpl; rewrite <- E, startsWith_app; done.
  - rewrite app_cons. simpl. rewrite IH. apply orb_true_r.
Qed.

Lemma includes_inv needle s :
  includes needle s = true -> exists a b, s = a ++ needle ++ b.
Proof.
  induction s as [|c s IH]; simpl; intros Hi.
  - rewrite orb_false_r in Hi. apply startsWith_inv in Hi as [r ->]. by exists "", r.
  - apply orb_true_iff in Hi as [Hp|Hs].
    + apply startsWith_inv in Hp as [r Hr]. exists "", r. by rewrite app_empty.
    + destruct (IH Hs) as (a & b & ->). by exists (String c a), b.
Qed.





End StringFacts.


(** * Properties of the validator *)

Section ValidatorFacts.
Import MongoSecurityValidator.
Implicit Types (r : SecurityValidation) (uri msg : string) (url : URL).

Lemma consistent_fresh : consistent fresh_result.
Proof. done. Qed.

Lemma consistent_fail msg r : consistent (fail_with msg r).
Proof.
  unfold consistent, fail_with, set_invalid, errors_push; simpl.
  split; [done|]. intros E. by apply app_eq_nil in E as [_ ?].
Qed.

Lemma consistent_warn msg r : consistent r -> consistent (warnings_push msg r).
Proof. done. Qed.

Create HintDb validator.
#[local] Hint Resolve consistent_fresh consistent_fail consistent_warn : validator.

Lemma isValid_fail msg r : isValid (fail_with msg r) = false.
Proof. done. Qed.

Lemma errors_fail msg r : errors (fail_with msg r) = (errors r ++ [msg])%list.
Proof. done. Qed.

(** Each statement of the [try] block keeps the agreement, and none of them
    turns an invalid result into a valid one. *)
Ltac by_cases f := unfold f; repeat case_match; eauto with validator.

Lemma check_protocol_consistent url r : consistent r -> consistent (check_protocol url r).
Proof. by_cases check_protocol. Qed.

Lemma check_host_whitelist_consistent url allowed r :
  consistent r -> consistent (check_host_whitelist url allowed r).
Proof. by_cases check_host_whitelist. Qed.

Lemma check_suspicious_consistent uri r : consistent r -> consistent (check_suspicious uri r).
Proof. by_cases check_suspicious. Qed.

Lemma warn_localhost_consistent env url r :
  consistent r -> consistent (warn_localhost env url r).
Proof. by_cases warn_localhost. Qed.

Lemma warn_credentials_consistent url r : consistent r -> consistent (warn_credentials url r).
Proof. by_cases warn_credentials. Qed.

Lemma validate_parsed_consistent env uri allowed url r :
  consistent r -> consistent (validate_parsed env uri allowed url r).
Proof.
  intros Hr. unfold validate_parsed. repeat case_match; eauto with validator.
  by apply warn_credentials_consistent, warn_localhost_consistent,
    check_suspicious_consistent, check_host_whitelist_consistent, check_protocol_consistent.
Qed.

Lemma check_protocol_sticky url r : isValid r = false -> isValid (check_protocol url r) = false.
Proof. by_cases check_protocol. Qed.

Lemma check_host_whitelist_sticky url allowed r :
  isValid r = false -> isValid (check_host_whitelist url allowed r) = false.
Proof. by_cases check_host_whitelist. Qed.

Lemma check_suspicious_sticky uri r : isValid r = false -> isValid (check_suspicious uri r) = false.
Proof. by_cases check_suspicious. Qed.

Lemma warnings_sticky env url r :
  isValid r = false -> isValid (warn_credentials url (warn_localhost env url r)) = false.
Proof. unfold warn_credentials, warn_localhost. by repeat case_match. Qed.

Lemma tail_sticky url r :
  isValid r = false ->
  isValid (if placeholder_hostname url
           then fail_with "Invalid URI format: malformed hostname" r
           else if degenerate_path url
           then fail_with "Invalid URI format: missing database name or path" r
           else r) = false.
Proof. by repeat case_match. Qed.

(** Whoever calls [validateURI] gets a result, never an exception, and the
    result is one of three shapes. *)
Lemma validateURI_cases `{Platform} env uri allowed :
  (exists msg, first_failure structural_checks uri = Some msg /\
     validateURI env uri allowed = Normal (fail_with msg fresh_result)) \/
  (exists e, first_failure structural_checks uri = None /\ new_URL uri = Throw e /\
     validateURI env uri allowed
     = Normal (fail_with ("Invalid URI format: " ++ message_or_unknown e) fresh_result)) \/
  (exists url, first_failure structural_checks uri = None /\ new_URL uri = Normal url /\
     validateURI env uri allowed
     = Normal (validate_parsed env uri allowed url fresh_result)).
Proof.
  unfold validateURI.
  destruct (first_failure structural_checks uri) as [msg|]; [left; eauto|].
  destruct (new_URL uri) as [url|e]; [right; right|right; left]; eauto.
Qed.

End ValidatorFacts.


Section ValidatorClaims.
Import MongoSecurityValidator.
Context `{Platform}.
Implicit Types (r : SecurityValidation) (uri : string) (url : URL)
  (env : option string) (allowed : option (list string)).

Lemma validateURI_consistent env uri allowed :
  exists r, validateURI env uri allowed = Normal r /\ consistent r.
Proof.
  destruct (validateURI_cases env uri allowed)
    as [(msg & _ & ->)|[(e & _ & _ & ->)|(url & _ & _ & ->)]];
    eexists; split; try reflexivity.
  - apply consistent_fail.
  - apply consistent_fail.
  - apply validate_parsed_consistent, consistent_fresh.
Qed.

(** C6. [validateURI] returns normally for every target and every allow-list;
    in its result [isValid] is false exactly when [errors] is not empty, so a
    result without errors is valid whatever its warnings are. *)
Theorem validateURI_total_and_valid_iff_no_errors env uri allowed :
  exists r,
    validateURI env uri allowed = Normal r /\
    (isValid r = false <-> errors r <> []) /\
    (errors r = [] -> isValid r = true).
Proof.
  destruct (validateURI_consistent env uri allowed) as (r & Hr & Hc).
  exists r. split; [done|]. unfold consistent in Hc. split; [|tauto].
  destruct (isValid r); split; intros; try done; try tauto.
  destruct (errors r); [|done]. destruct Hc as [_ Hc]. by specialize (Hc eq_refl).
Qed.

(** C5. A target that contains [javascript:] or [data:] at any position is
    never valid. *)
Theorem validateURI_rejects_dangerous_scheme env uri allowed :
  (exists a b, uri = a ++ "javascript:" ++ b) \/ (exists a b, uri = a ++ "data:" ++ b) ->
  exists r, validateURI env uri allowed = Normal r /\ isValid r = false.
Proof.
  intros Hsub.
  assert (JsString.includes "javascript:" uri || JsString.includes "data:" uri = true) as Hinc.
  { apply orb_true_iff.
    destruct Hsub as [(a & b & ->)|(a & b & ->)]; [left|right]; apply includes_app. }
  destruct (validateURI_cases env uri allowed)
    as [(msg & _ & ->)|[(e & _ & _ & ->)|(url & _ & _ & ->)]];
    eexists; (split; [reflexivity|]); try done.
  unfold validate_parsed. apply tail_sticky, warnings_sticky.
  unfold check_suspicious. by rewrite Hinc.
Qed.

End ValidatorClaims.

Section OptionsClaims.
Import MongoSecurityValidator.

Lemma is_production_spec env : is_production env = true <-> env = Some "production".
Proof.
  destruct env as [v|]; simpl; [|done].
  rewrite String.eqb_eq. split; congruence.
Qed.

Lemma validateOptions_isValid env o :
  isValid (validateOptions env o) = true <-> errors (validateOptions env o) = [].
Proof.
  unfold validateOptions.
  repeat case_match; repeat first [apply consistent_warn | apply consistent_fail]; done.
Qed.

(** C9. In production, insecure options are invalid and carry an error; with
    any other execution mode the same options are valid. *)
Theorem validateOptions_production_gate env (o : ConnectOptions) :
  insecure o ->
  (env = Some "production" ->
     isValid (validateOptions env o) = false /\ errors (validateOptions env o) <> []) /\
  (env <> Some "production" ->
     isValid (validateOptions env o) = true /\ errors (validateOptions env o) = []).
Proof.
  intros Hins. split.
  - intros Hp. apply is_production_spec in Hp.
    assert (isValid (validateOptions env o) = false) as Hv.
    { unfold validateOptions. rewrite Hp.
      destruct Hins as [E|[E|[E|E]]]; rewrite E; simpl;
        repeat case_match; simpl; try done; by rewrite ?orb_true_r in *. }
    split; [done|]. intros E. apply validateOptions_isValid in E. congruence.
  - intros Hp. assert (is_production env = false) as Hf.
    { destruct (is_production env) eqn:E; [|done]. by apply is_production_spec in E. }
    assert (errors (validateOptions env o) = []) as He.
    { unfold validateOptions. rewrite Hf. by repeat case_match. }
    split; [by apply validateOptions_isValid|done].
Qed.

End OptionsClaims.


Section HostAllowList.
Import MongoSecurityValidator.
Implicit Types (r : SecurityValidation) (uri hostname domain entry : string) (url : URL)
  (env : option string) (allowed : list string).










Context `{Platform}.



End HostAllowList.


Section PortCheck.
Import JsString MongoSecurityValidator.
Implicit Types (r : SecurityValidation) (uri s ds pm msg : string) (c : ascii).

Lemma span_digits_prefix s : all_digits (span_digits s).1 = true.
Proof.
  induction s as [|c s IH]; [done|]. simpl.
  destruct (is_digit c) eqn:Hc; [|done].
  destruct (span_digits s) as [ds rest]. simpl in *. by rewrite Hc.
Qed.

Lemma span_digits_all ds : all_digits ds = true -> span_digits ds = (ds, "").
Proof.
  induction ds as [|c ds IH]; [done|]. simpl.
  intros [Hc Hds]%andb_true_iff. by rewrite Hc, (IH Hds).
Qed.

Lemma dropLast_snoc s c : dropLast (s ++ String c "") = s.
Proof.
  induction s as [|c' s IH]; [done|].
  rewrite app_cons. simpl. rewrite IH. by destruct s.
Qed.

(** What [uri.match(/:\d+[^0-9]/)] returns: a colon, a non-empty run of
    digits, one more character. *)
Lemma match_port_regex_shape uri pm :
  match_port_regex uri = Some pm ->
  exists ds stop,
    pm = String ":" (ds ++ String stop "") /\ ds <> "" /\ all_digits ds = true.
Proof.
  induction uri as [|c uri IH]; [done|]. simpl.
  destruct (Ascii.eqb_spec c ":") as [->|_]; [|done].
  pose proof (span_digits_prefix uri) as Hd.
  destruct (span_digits uri) as [[|d ds] [|stop rest]]; try done.
  intros [= <-]. by exists (String d ds), stop.
Qed.

Lemma slice_1_m1_port ds stop : slice_1_m1 (String ":" (ds ++ String stop "")) = ds.
Proof. unfold slice_1_m1. simpl. destruct (ds ++ String stop "") eqn:E;
  rewrite <- E; apply dropLast_snoc. Qed.

(** [parseInt] of a run of digits is its value: the [isNaN] test of the port
    check never fires. *)
Lemma parseInt10_digits ds :
  ds <> "" -> all_digits ds = true -> parseInt10 ds = Some (digits_value_from 0 ds).
Proof.
  destruct ds as [|c ds]; [done|]. intros _ Hall.
  pose proof (span_digits_all _ Hall) as Hspan.
  simpl in Hall. apply andb_true_iff in Hall as [Hc _].
  unfold parseInt10.
  assert (trimStart (String c ds) = String c ds) as ->.
  { simpl. destruct c as [[|] [|] [|] [|] [|] [|] [|] [|]]; done. }
  assert (match String c ds with
          | String "-" r => ((-1)%Z, r)
          | String "+" r => (1%Z, r)
          | _ => (1%Z, String c ds)
          end = (1%Z, String c ds)) as ->.
  { destruct c as [[|] [|] [|] [|] [|] [|] [|] [|]]; done. }
  rewrite Hspan. simpl. f_equal. lia.
Qed.

Lemma first_failure_app checks1 checks2 uri :
  first_failure (checks1 ++ checks2) uri =
  match first_failure checks1 uri with
  | Some msg => Some msg
  | None => first_failure checks2 uri
  end.
Proof.
  induction checks1 as [|f checks1 IH]; [done|]. simpl. by destruct (f uri).
Qed.

Lemma check_port_fires uri pm :
  match_port_regex uri = Some pm ->
  ~ (1 <= digits_value_from 0 (slice_1_m1 pm) <= 65535)%Z ->
  check_port uri = Some "Invalid URI format: invalid port number".
Proof.
  intros Hm Hrange. unfold check_port. rewrite Hm.
  destruct (match_port_regex_shape _ _ Hm) as (ds & stop & -> & Hne & Hds).
  rewrite slice_1_m1_port in *. rewrite (parseInt10_digits _ Hne Hds). simpl.
  destruct (Z.ltb_spec (digits_value_from 0 ds) 1); [done|].
  destruct (Z.ltb_spec 65535 (digits_value_from 0 ds)); [done|lia].
Qed.

Context `{Platform}.

(** C7, as the code has it.  Let the first [:digits] of the target that is
    followed by a further character denote a number outside [1, 65535].  The
    target is then invalid.  When the checks that precede the port check let
    the target through, the result is exactly the invalid-port error; when
    one of them fires, the result is that check's error. *)
Theorem invalid_port_precheck env uri allowed pm :
  match_port_regex uri = Some pm ->
  ~ (1 <= digits_value_from 0 (slice_1_m1 pm) <= 65535)%Z ->
  exists r,
    validateURI env uri allowed = Normal r /\
    isValid r = false /\
    (first_failure checks_before_port uri = None ->
       r = {| isValid := false;
              errors := ["Invalid URI format: invalid port number"];
              warnings := [] |}) /\
    (forall msg, first_failure checks_before_port uri = Some msg ->
       r = {| isValid := false; errors := [msg]; warnings := [] |}).
Proof.
  intros Hm Hrange. pose proof (check_port_fires _ _ Hm Hrange) as Hport.
  unfold validateURI, structural_checks. rewrite first_failure_app.
  destruct (first_failure checks_before_port uri) as [msg|] eqn:Hpre.
  - eexists. split; [reflexivity|]. split; [done|]. split; [done|].
    by intros ? [= <-].
  - simpl. rewrite Hport. eexists. split; [reflexivity|]. by repeat split.
Qed.

End PortCheck.


Section DegeneratePath.
Import JsString MongoSecurityValidator.
Context `{Platform}.
Implicit Types (r : SecurityValidation) (uri x : string) (url : URL).

(** The errors that the [try] block can have pushed before its last two
    checks. *)
Lemma errors_before_last_checks env uri allowed url x :
  In x (errors (warn_credentials url (warn_localhost env url
          (check_suspicious uri (check_host_whitelist url allowed
             (check_protocol url fresh_result)))))) ->
  x = "Invalid protocol: " ++ protocol url ++ ". Allowed: "
      ++ join ", " SECURITY_CONFIG.ALLOWED_PROTOCOLS \/
  x = "Host " ++ hostname url ++ " is not in the allowed hosts list" \/
  x = "Potentially malicious URI detected".
Proof.
  unfold warn_credentials, warn_localhost, check_suspicious, check_host_whitelist,
    check_protocol.
  repeat case_match; simpl; intuition.
Qed.

Lemma not_the_incompleteness_error env uri allowed url :
  ~ In "Invalid URI format: missing database name or path"
       (errors (warn_credentials url (warn_localhost env url
          (check_suspicious uri (check_host_whitelist url allowed
             (check_protocol url fresh_result)))))).
Proof.
  intros [E|[E|E]]%errors_before_last_checks;
    rewrite ?app_cons in E; discriminate E.
Qed.

Lemma placeholder_hostname_bare url :
  port url = "" -> pathname url = "/" -> search url = "" -> hash url = "" ->
  placeholder_hostname url
  = String.eqb (hostname url) "invalid" || String.eqb (hostname url) "host".
Proof.
  intros Hport Hpath Hsearch Hhash. unfold placeholder_hostname.
  rewrite Hport, Hpath, Hsearch, Hhash. simpl. apply andb_true_r.
Qed.

Lemma degenerate_path_bare url :
  port url = "" -> pathname url = "/" -> search url = "" -> hash url = "" ->
  degenerate_path url = true.
Proof.
  intros Hport Hpath Hsearch Hhash. unfold degenerate_path.
  by rewrite Hport, Hpath, Hsearch, Hhash.
Qed.

(** C8, as the code has it.  A target that parses with no port, the root
    path and neither query nor fragment is invalid.  If it passes the
    structural checks, its errors contain the incompleteness error, except
    for the host names [invalid] and [host], which get the malformed-hostname
    error in its place. *)
Theorem degenerate_target_rejected env uri allowed url :
  new_URL uri = Normal url ->
  port url = "" -> pathname url = "/" -> search url = "" -> hash url = "" ->
  exists r,
    validateURI env uri allowed = Normal r /\
    isValid r = false /\
    (first_failure structural_checks uri = None ->
     hostname url <> "invalid" -> hostname url <> "host" ->
     In "Invalid URI format: missing database name or path" (errors r)) /\
    (first_failure structural_checks uri = None ->
     hostname url = "invalid" \/ hostname url = "host" ->
     In "Invalid URI format: malformed hostname" (errors r) /\
     ~ In "Invalid URI format: missing database name or path" (errors r)).
Proof.
  intros Hurl Hport Hpath Hsearch Hhash.
  destruct (validateURI_cases env uri allowed)
    as [(msg & Hf & ->)|[(e & _ & Hurl' & _)|(url' & _ & Hurl' & ->)]];
    [| congruence |].
  { eexists. split; [reflexivity|]. split; [done|]. split; intros; congruence. }
  assert (url' = url) as -> by congruence.
  eexists. split; [reflexivity|].
  unfold validate_parsed.
  rewrite placeholder_hostname_bare, degenerate_path_bare by done.
  destruct (String.eqb_spec (hostname url) "invalid") as [Hi|Hi];
    [|destruct (String.eqb_spec (hostname url) "host") as [Hh|Hh]];
    cbn [orb].
  - split; [done|]. split; [tauto|]. intros _ _. rewrite errors_fail, !in_app_iff. split.
    + right. by left.
    + intros [Hin|[E|[]]]; [|discriminate E].
      by apply not_the_incompleteness_error in Hin.
  - split; [done|]. split; [tauto|]. intros _ _. rewrite errors_fail, !in_app_iff. split.
    + right. by left.
    + intros [Hin|[E|[]]]; [|discriminate E].
      by apply not_the_incompleteness_error in Hin.
  - split; [done|]. split; [|intros _ [?|?]; congruence].
    intros _ _ _. rewrite errors_fail, in_app_iff. right. by left.
Qed.

End DegeneratePath.


(** * Properties of the connection manager *)

Ltac cache_cases w :=
  unfold getGlobalCache, initializeGlobalCache;
  let E := fresh "E" in
  destruct (global_cache w) eqn:E; simpl; rewrite ?E; eauto.

Section CacheFacts.
Import MongoConnectionManager.
Implicit Types (w : World) (name : string) (addr task h : nat) (cc : CachedConnection).

Lemma connections_get_eq name w :
  connections_get name w
  = cache_map w !! name ≫= (fun addr => (fun cc => (addr, cc)) <$> objects w !! addr).
Proof.
  unfold connections_get, cache_map. destruct (global_cache w) as [c|]; [|done].
  by destruct (connections c !! name).
Qed.

Lemma getGlobalCache_cache_map w : cache_map (getGlobalCache w).2 = cache_map w.
Proof. unfold cache_map. cache_cases w. Qed.

Lemma getGlobalCache_fst w : connections (getGlobalCache w).1 = cache_map w.
Proof. unfold cache_map. cache_cases w. Qed.

Lemma getGlobalCache_is_Some w : is_Some (global_cache (getGlobalCache w).2).
Proof. cache_cases w. Qed.

Lemma getGlobalCache_objects w : objects (getGlobalCache w).2 = objects w.
Proof. cache_cases w. Qed.

Lemma getGlobalCache_tasks w : tasks (getGlobalCache w).2 = tasks w.
Proof. cache_cases w. Qed.

Lemma getGlobalCache_handles w : handles (getGlobalCache w).2 = handles w.
Proof. cache_cases w. Qed.

Lemma getGlobalCache_timers w : timers (getGlobalCache w).2 = timers w.
Proof. cache_cases w. Qed.

Lemma getGlobalCache_connections_get name w :
  connections_get name (getGlobalCache w).2 = connections_get name w.
Proof. by rewrite !connections_get_eq, getGlobalCache_cache_map, getGlobalCache_objects. Qed.

Lemma update_connections_cache_map f w :
  is_Some (global_cache w) -> cache_map (update_connections f w) = f (cache_map w).
Proof. unfold update_connections, cache_map. by intros [c ->]. Qed.

Lemma delete_connections_get name w :
  connections_get name (update_connections (delete name) w) = None.
Proof.
  unfold connections_get, update_connections.
  destruct (global_cache w) as [c|] eqn:E; simpl; [|by rewrite E].
  by rewrite lookup_delete_eq.
Qed.

Lemma names_of_map (m : gmap string nat) name :
  name ∈ (map_to_list m).*1 <-> is_Some (m !! name).
Proof.
  rewrite list_elem_of_fmap. split.
  - intros ([k v] & -> & Hin). apply elem_of_map_to_list in Hin. eauto.
  - intros [v Hv]. exists (name, v). split; [done|]. by apply elem_of_map_to_list.
Qed.

Lemma getPoolStats_names name w :
  name ∈ connectionNames (getPoolStats w).1 <-> is_Some (cache_map w !! name).
Proof.
  unfold getPoolStats. destruct (getGlobalCache w) as [c w'] eqn:E. simpl.
  rewrite names_of_map. replace (connections c) with (cache_map w); [done|].
  by rewrite <- getGlobalCache_fst, E.
Qed.

Lemma getPoolStats_total w :
  totalConnections (getPoolStats w).1 = size (cache_map w).
Proof.
  unfold getPoolStats. destruct (getGlobalCache w) as [c w'] eqn:E. simpl.
  replace (connections c) with (cache_map w); [apply length_map_to_list|].
  by rewrite <- getGlobalCache_fst, E.
Qed.

End CacheFacts.


(** Reading a component of the process after writes to other components. *)
Ltac frame :=
  unfold cache_map;
  cbn [console_write update_info update_object
       with_global_cache with_shutdownHandlersRegistered with_objects with_handles
       with_tasks with_timers with_console with_clock
       global_cache shutdownHandlersRegistered objects handles tasks timers console
       clock NODE_ENV];
  repeat match goal with
    | |- context [match global_cache ?w with Some c => connections c | None => ∅ end] =>
        change (match global_cache w with Some c => connections c | None => ∅ end)
          with (cache_map w)
    end.

Section CloseConnection.
Import MongoConnectionManager.
Implicit Types (w : World) (name : string) (addr task h : nat) (cc : CachedConnection)
  (c : Connection) (e : Thrown).

(** [closeConnection] never throws. *)
Lemma closeConnection_returns name w : (closeConnection name w).2 = Normal ().
Proof.
  unfold closeConnection. destruct (getGlobalCache w) as [c0 w0].
  destruct (connections_get name w0) as [[addr cc]|]; [|done].
  destruct (connection cc) as [h|]; [|done].
  by destruct (close h _) as [w1 [[]|e]].
Qed.

(** When the handle closes (or the record has no handle yet), the record is
    removed. *)
Lemma closeConnection_removes name w addr cc :
  connections_get name w = Some (addr, cc) ->
  (forall h c, connection cc = Some h -> handles w !! h = Some c -> close_failure c = None) ->
  connections_get name (closeConnection name w).1 = None.
Proof.
  intros Hget Hok. unfold closeConnection.
  destruct (getGlobalCache w) as [c0 w0] eqn:E0.
  assert (w0 = (getGlobalCache w).2) as -> by by rewrite E0.
  rewrite getGlobalCache_connections_get, Hget.
  destruct (connection cc) as [h|] eqn:Hc; [|apply delete_connections_get].
  unfold close. simpl. rewrite getGlobalCache_handles.
  destruct (handles w !! h) as [c|] eqn:Hh; [|apply delete_connections_get].
  rewrite (Hok h c eq_refl Hh). apply delete_connections_get.
Qed.

(** When the handle's [close] throws, the error is logged and the record
    stays in the cache, in state [DISCONNECTING]. *)
Lemma closeConnection_close_throws name w addr cc h c e :
  connections_get name w = Some (addr, cc) ->
  connection cc = Some h ->
  handles w !! h = Some c ->
  close_failure c = Some e ->
  connections_get name (closeConnection name w).1 = Some (addr, disconnecting cc) /\
  name ∈ connectionNames (getPoolStats (closeConnection name w).1).1 /\
  console (closeConnection name w).1
  = (console w ++ [(ERR, ("[MongoConnector] Error closing connection " ++ name ++ ": "
                         ++ message_of e)%string)])%list.
Proof.
  intros Hget Hc Hh He. unfold closeConnection.
  destruct (getGlobalCache w) as [c0 w0] eqn:E0.
  assert (w0 = (getGlobalCache w).2) as -> by by rewrite E0.
  rewrite getGlobalCache_connections_get, Hget, Hc.
  unfold close. simpl. rewrite getGlobalCache_handles, Hh, He. simpl.
  rewrite connections_get_eq in Hget.
  destruct (cache_map w !! name) as [addr'|] eqn:Hm; [|done]. simpl in Hget.
  destruct (objects w !! addr') as [cc'|] eqn:Ho; [|done].
  injection Hget as -> ->.
  split; [|split].
  - rewrite connections_get_eq. frame. rewrite getGlobalCache_cache_map, Hm. simpl.
    rewrite getGlobalCache_objects, lookup_alter_eq, Ho. done.
  - apply getPoolStats_names. frame. rewrite getGlobalCache_cache_map, Hm. eauto.
  - frame. cache_cases w.
Qed.

End CloseConnection.


Section Timeout.
Import MongoConnectionManager.
Implicit Types (w : World) (name : string) (addr task h : nat) (cc : CachedConnection)
  (c : Connection) (e : Thrown) (s : TaskState).

(** A settled promise stays as it is. *)
Lemma settle_settled task task' s s' w :
  tasks w !! task = Some s -> s <> Pending -> tasks (settle task' s' w) !! task = Some s.
Proof.
  intros Hs Hne. unfold settle.
  destruct (tasks w !! task') as [[| |]|] eqn:E; try done.
  frame. destruct (decide (task' = task)) as [->|]; [congruence|].
  by rewrite lookup_insert_ne.
Qed.

Lemma settle_pending task s w :
  tasks w !! task = Some Pending -> tasks (settle task s w) !! task = Some s.
Proof. intros Hp. unfold settle. rewrite Hp. frame. apply lookup_insert_eq. Qed.

Lemma settle_timers task s w : timers (settle task s w) = timers w.
Proof. unfold settle. by repeat case_match. Qed.

Lemma fire_settled action task s w :
  tasks w !! task = Some s -> s <> Pending -> tasks (fire action w) !! task = Some s.
Proof. destruct action. apply settle_settled. Qed.

Lemma run_timers_settled task s w :
  tasks w !! task = Some s -> s <> Pending -> tasks (run_timers w) !! task = Some s.
Proof.
  intros Hs Hne. unfold run_timers.
  induction (map_to_list (timers w)) as [|[id action] l IH]; [done|].
  simpl. by apply fire_settled.
Qed.

Lemma getConnection_spec name w :
  getConnection name w
  = (connections_get name w ≫= (λ entry : nat * CachedConnection, connection entry.2),
     (getGlobalCache w).2).
Proof.
  unfold getConnection. rewrite <- (getGlobalCache_connections_get name w).
  by destruct (getGlobalCache w).
Qed.

(** C10. [getConnectionWithTimeout] settles the promise it returns before
    it gives up control: the promise is new, it is fulfilled with the handle
    of the cached record when that handle is ready and rejected with
    [No active connection found] otherwise, the timer that the call set is
    cleared again, no timer that fires later changes the outcome, and the
    outcome is never the [Connection timeout] rejection. *)
Theorem getConnectionWithTimeout_settles_at_once name timeoutMs w :
  tasks w !! (getConnectionWithTimeout name timeoutMs w).1 = None /\
  tasks (getConnectionWithTimeout name timeoutMs w).2
    !! (getConnectionWithTimeout name timeoutMs w).1
  = Some (match ready_connection name w with
          | Some h => Fulfilled h
          | None => Rejected (ErrorInstance ("No active connection found for " ++ name))
          end) /\
  timers (getConnectionWithTimeout name timeoutMs w).2 = timers w /\
  tasks (run_timers (getConnectionWithTimeout name timeoutMs w).2)
    !! (getConnectionWithTimeout name timeoutMs w).1
  = tasks (getConnectionWithTimeout name timeoutMs w).2
      !! (getConnectionWithTimeout name timeoutMs w).1 /\
  tasks (getConnectionWithTimeout name timeoutMs w).2
    !! (getConnectionWithTimeout name timeoutMs w).1
  <> Some (Rejected (ErrorInstance ("Connection timeout after " ++ pretty timeoutMs ++ "ms"))).
Proof.
  assert (tasks w !! fresh (dom (tasks w)) = None) as Hfresh.
  { apply not_elem_of_dom, is_fresh. }
  assert (timers w !! fresh (dom (timers w)) = None) as Htimer.
  { apply not_elem_of_dom, is_fresh. }
  unfold getConnectionWithTimeout, new_promise, setTimeout.
  set (task := fresh (dom (tasks w))) in *.
  set (w1 := with_timers _ _).
  rewrite getConnection_spec.
  assert ((connections_get name w1
             ≫= (λ entry : nat * CachedConnection, connection entry.2))
            ≫= (λ h : nat, match handles (getGlobalCache w1).2 !! h return option nat with
                     | Some c => if (readyState c =? 1)%Z then Some h else None
                     | None => None
                     end) = ready_connection name w) as ->.
  { rewrite getGlobalCache_handles.
    unfold ready_connection. rewrite !connections_get_eq. subst w1. frame.
    destruct (cache_map w !! name) as [addr|]; [|done]. simpl.
    destruct (objects w !! addr) as [cc|]; [|done]. simpl.
    by destruct (connection cc). }
  assert (forall s, s <> Pending ->
    tasks (settle task s (clearTimeout (fresh (dom (timers w))) (getGlobalCache w1).2))
      !! task = Some s) as Hsettle.
  { intros s _. apply settle_pending. unfold clearTimeout. frame.
    rewrite getGlobalCache_tasks. subst w1. frame. apply lookup_insert_eq. }
  assert (forall s,
    timers (settle task s (clearTimeout (fresh (dom (timers w))) (getGlobalCache w1).2))
    = timers w) as Htimers.
  { intros s. rewrite settle_timers. unfold clearTimeout. frame.
    rewrite getGlobalCache_timers. subst w1. frame. by apply delete_insert_id. }
  destruct (ready_connection name w) as [h|]; simpl;
    rewrite Hsettle by done;
    (split; [done|]); (split; [done|]); (split; [apply Htimers|]);
    (split; [by apply run_timers_settled; [apply Hsettle|]|]); [done|].
  rewrite !app_cons. discriminate.
Qed.

End Timeout.


Section LogFrames.
Import MongoConnectionManager.
Implicit Types (w : World).

Lemma invoke_callback_tasks label cb w : tasks (invoke_callback label cb w) = tasks w.
Proof. unfold invoke_callback. by repeat case_match. Qed.

Lemma invoke_callback_objects label cb w : objects (invoke_callback label cb w) = objects w.
Proof. unfold invoke_callback. by repeat case_match. Qed.

Lemma invoke_callback_handles label cb w : handles (invoke_callback label cb w) = handles w.
Proof. unfold invoke_callback. by repeat case_match. Qed.

Lemma invoke_callback_global_cache label cb w :
  global_cache (invoke_callback label cb w) = global_cache w.
Proof. unfold invoke_callback. by repeat case_match. Qed.

Lemma invoke_callback_NODE_ENV label cb w :
  NODE_ENV (invoke_callback label cb w) = NODE_ENV w.
Proof. unfold invoke_callback. by repeat case_match. Qed.

Lemma debug_write_tasks on level line w : tasks (debug_write on level line w) = tasks w.
Proof. by destruct on. Qed.

Lemma debug_write_objects on level line w : objects (debug_write on level line w) = objects w.
Proof. by destruct on. Qed.

Lemma debug_write_handles on level line w : handles (debug_write on level line w) = handles w.
Proof. by destruct on. Qed.

Lemma debug_write_global_cache on level line w :
  global_cache (debug_write on level line w) = global_cache w.
Proof. by destruct on. Qed.

Lemma debug_write_NODE_ENV on level line w : NODE_ENV (debug_write on level line w) = NODE_ENV w.
Proof. by destruct on. Qed.

Lemma invoke_callback_clock label cb w : clock (invoke_callback label cb w) = clock w.
Proof. unfold invoke_callback. by repeat case_match. Qed.

Lemma debug_write_clock on level line w : clock (debug_write on level line w) = clock w.
Proof. by destruct on. Qed.

Lemma abandoned_clock driver attempt w : clock (abandoned driver attempt w) = clock w.
Proof. unfold abandoned. by case_match. Qed.

Lemma abandoned_tasks driver attempt w : tasks (abandoned driver attempt w) = tasks w.
Proof. unfold abandoned. by case_match. Qed.

Lemma abandoned_objects driver attempt w : objects (abandoned driver attempt w) = objects w.
Proof. unfold abandoned. by case_match. Qed.

Lemma abandoned_global_cache driver attempt w :
  global_cache (abandoned driver attempt w) = global_cache w.
Proof. unfold abandoned. by case_match. Qed.

Lemma abandoned_NODE_ENV driver attempt w :
  NODE_ENV (abandoned driver attempt w) = NODE_ENV w.
Proof. unfold abandoned. by case_match. Qed.

End LogFrames.

Ltac through_logs :=
  repeat first
    [ rewrite invoke_callback_tasks | rewrite debug_write_tasks
    | rewrite invoke_callback_objects | rewrite debug_write_objects
    | rewrite invoke_callback_handles | rewrite debug_write_handles
    | rewrite invoke_callback_global_cache | rewrite debug_write_global_cache
    | rewrite invoke_callback_NODE_ENV | rewrite debug_write_NODE_ENV
    | rewrite abandoned_tasks | rewrite abandoned_objects
    | rewrite abandoned_global_cache | rewrite abandoned_NODE_ENV
    | rewrite invoke_callback_clock | rewrite debug_write_clock
    | rewrite abandoned_clock
    | progress frame ].

Section RetryLoop.
Import MongoConnectionManager.
Implicit Types (w : World) (name : string) (addr task h : nat) (cc : CachedConnection)
  (c : Connection) (e : Thrown) (driver : Driver) (opts : MongoConnectionOptions)
  (cbs : Callbacks).

(** If the attempts [attempt], ..., [n] all fail under the whole budget [n],
    the loop throws the error that names [n] and the last failure, touches no
    promise, and leaves the record in state [ERROR] with [retryCount = n]. *)
Lemma retry_loop_exhausted (errs : Z -> Thrown) driver opts cbs addr
    (n retryDelay connectionTimeout : Z) :
  forall (remaining : nat) (attempt : Z) w,
    (0 < remaining)%nat ->
    (attempt + Z.of_nat remaining = n + 1)%Z ->
    (forall k, (attempt <= k <= n)%Z ->
       dial driver k connectionTimeout = Throw (errs k)) ->
    exists w',
      retry_loop remaining attempt (Whole n) retryDelay connectionTimeout
                 driver opts addr cbs w
      = (w', Throw (ErrorInstance ("Failed to connect after " ++ pretty n
                                   ++ " attempts. Last error: "
                                   ++ message_of (errs n)))) /\
      tasks w' = tasks w /\
      (forall cc, objects w !! addr = Some cc ->
         exists cc', objects w' !! addr = Some cc' /\ same_identity cc cc' /\
                     state (info cc') = ERROR /\
                     retryCount (info cc') = n /\
                     lastError (info cc') = Some (errs n)).
Proof.
  induction remaining as [|remaining IH]; intros attempt w Hpos Hsum Hfail; [lia|].
  cbn [retry_loop identical].
  rewrite (Hfail attempt) by lia.
  destruct (Z.eqb_spec attempt n) as [->|Hne].
  - eexists. split; [reflexivity|]. split.
    + by through_logs.
    + intros cc Hcc. through_logs.
      rewrite lookup_alter_eq. through_logs. rewrite lookup_alter_eq, Hcc. simpl.
      eexists. split; [reflexivity|]. by repeat split.
  - match goal with
    | |- context [retry_loop remaining _ _ _ _ _ _ _ _ ?w0] =>
        destruct (IH (attempt + 1)%Z w0) as (w' & Hrun & Htasks & Hobj);
        [lia|lia|intros; apply Hfail; lia|]
    end.
    exists w'. split; [exact Hrun|]. split.
    + rewrite Htasks. unfold sleep. by through_logs.
    + intros cc Hcc.
      destruct (Hobj (mkCached (connection cc) (promise cc)
                        (set_failure (errs attempt) attempt (info cc))
                        (cc_options cc) (cc_callbacks cc)))
        as (cc' & Hcc' & Hid & Hst); [|by exists cc'].
      unfold sleep. through_logs. by rewrite lookup_alter_eq, Hcc.
Qed.

(** When no attempt that the loop makes is identical to the budget, the
    loop waits after every failed attempt, the last one included, and ends
    with its closing [throw]: the error names neither a count nor a cause, and
    the record is not marked [ERROR]. *)
Lemma retry_loop_falls_through (errs : Z -> Thrown) driver opts cbs addr
    (budget : JsNumber) (retryDelay connectionTimeout : Z) :
  forall (remaining : nat) (attempt : Z) w,
    (forall k, (attempt <= k < attempt + Z.of_nat remaining)%Z ->
       identical k budget = false) ->
    (forall k, (attempt <= k < attempt + Z.of_nat remaining)%Z ->
       dial driver k connectionTimeout = Throw (errs k)) ->
    exists w',
      retry_loop remaining attempt budget retryDelay connectionTimeout
                 driver opts addr cbs w
      = (w', Throw (ErrorInstance "Unexpected error in connection retry logic")) /\
      tasks w' = tasks w /\
      clock w' = (clock w + Z.of_nat remaining * Z.max 0 retryDelay)%Z /\
      (forall cc, objects w !! addr = Some cc ->
         exists cc', objects w' !! addr = Some cc' /\ same_identity cc cc' /\
                     state (info cc') = state (info cc) /\
                     ((0 < remaining)%nat ->
                      retryCount (info cc') = (attempt + Z.of_nat remaining - 1)%Z /\
                      lastError (info cc')
                      = Some (errs (attempt + Z.of_nat remaining - 1)%Z))).
Proof.
  induction remaining as [|remaining IH]; intros attempt w Hnever Hfail.
  { exists w. split; [done|]. split; [done|]. split; [simpl; lia|].
    intros cc Hcc. exists cc. repeat split; try done; lia. }
  cbn [retry_loop].
  rewrite (Hfail attempt), (Hnever attempt) by lia.
  match goal with
  | |- context [retry_loop remaining _ _ _ _ _ _ _ _ ?w0] =>
      destruct (IH (attempt + 1)%Z w0) as (w' & Hrun & Htasks & Hclock & Hobj);
      [intros; apply Hnever; lia|intros; apply Hfail; lia|]
  end.
  exists w'. split; [exact Hrun|]. split; [|split].
  - rewrite Htasks. unfold sleep. by through_logs.
  - rewrite Hclock. unfold sleep. through_logs. lia.
  - intros cc Hcc.
    destruct (Hobj (mkCached (connection cc) (promise cc)
                      (set_failure (errs attempt) attempt (info cc))
                      (cc_options cc) (cc_callbacks cc)))
      as (cc' & Hcc' & Hid & Hst & Hlast).
    { unfold sleep. through_logs. by rewrite lookup_alter_eq, Hcc. }
    exists cc'. split; [done|]. split; [done|]. split; [done|]. intros _.
    destruct remaining as [|remaining'].
    + cbn [retry_loop] in Hrun. injection Hrun as <-.
      revert Hcc'. unfold sleep. through_logs. rewrite lookup_alter_eq, Hcc.
      intros [= <-]. cbn [info retryCount lastError set_failure].
      split; [lia|]. do 2 f_equal. lia.
    + destruct Hlast as [Hcount Herr]; [lia|].
      replace (attempt + Z.of_nat (S (S remaining')) - 1)%Z
        with (attempt + 1 + Z.of_nat (S remaining') - 1)%Z by lia.
      done.
Qed.

End RetryLoop.


Section ConnectBegin.
Import MongoSecurityValidator MongoConnectionManager.
Context `{Platform}.
Implicit Types (w : World) (name uri : string) (addr task h : nat) (cc : CachedConnection)
  (opts : MongoConnectionOptions) (cbs : Callbacks) (env : option string).

Lemma debug_write_connections_get on level line name w :
  connections_get name (debug_write on level line w) = connections_get name w.
Proof. by destruct on. Qed.

Lemma debug_write_cache_map on level line w :
  cache_map (debug_write on level line w) = cache_map w.
Proof. by destruct on. Qed.

Lemma registerShutdownHandlers_connections_get name w :
  connections_get name (registerShutdownHandlers w) = connections_get name w.
Proof. unfold registerShutdownHandlers. by case_match. Qed.

Lemma at_lookup_connections_get line on name w :
  connections_get name (at_lookup line on w) = connections_get name w.
Proof.
  unfold at_lookup.
  by rewrite registerShutdownHandlers_connections_get, getGlobalCache_connections_get,
    debug_write_connections_get.
Qed.

Lemma at_lookup_frame line on w :
  cache_map (at_lookup line on w) = cache_map w /\
  objects (at_lookup line on w) = objects w /\
  tasks (at_lookup line on w) = tasks w /\
  handles (at_lookup line on w) = handles w /\
  NODE_ENV (at_lookup line on w) = NODE_ENV w /\
  is_Some (global_cache (at_lookup line on w)).
Proof.
  unfold at_lookup, registerShutdownHandlers.
  destruct (shutdownHandlersRegistered _); frame;
    rewrite ?getGlobalCache_cache_map, ?getGlobalCache_objects, ?getGlobalCache_tasks,
      ?getGlobalCache_handles;
    destruct on; repeat split; try done;
    try apply getGlobalCache_is_Some; cache_cases w.
Qed.

(** [connect] up to the lookup, for arguments that pass validation. *)
Lemma connect_begin_lookup uri opts cbs w :
  passes_validation (NODE_ENV w) uri opts ->
  exists line on,
    connect_begin uri opts cbs w
    = let name := name_or_default (opt_connectionName opts) in
      let w1 := at_lookup line on w in
      match connections_get name w1 with
      | Some (_, existingConnection) =>
          (debug_write (debug opts) LOG
             ("[MongoConnector] Reusing existing connection: " ++ name) w1,
           Joined (promise existingConnection))
      | None =>
          let task := fresh (dom (tasks w1)) in
          let addr := fresh (dom (objects w1)) in
          let cachedConnection :=
            {| connection := None; promise := task;
               info := {| state := CONNECTING; connectedAt := None; lastError := None;
                          host := None; database := None;
                          connectionName := name; retryCount := 0 |};
               cc_options := opts; cc_callbacks := cbs |} in
          (update_connections (insert name addr)
             (with_objects (<[addr := cachedConnection]> (objects w1))
                (with_tasks (<[task := Pending]> (tasks w1)) w1)),
           Started name addr task)
      end.
Proof.
  intros [(rv & Hrv & Hvalid) Hopts]. unfold connect_begin.
  rewrite Hrv, Hvalid. cbn [negb].
  rewrite debug_write_NODE_ENV, Hopts. cbn [negb].
  exists ("[MongoConnector] Security warnings: " ++ JsString.join "," (warnings rv)),
    (debug opts && (0 <? length (warnings rv))%nat).
  unfold at_lookup.
  destruct (getGlobalCache _) as [c0 w0]. cbn [snd].
  destruct (connections_get _ _) as [[addr cc]|]; reflexivity.
Qed.

End ConnectBegin.


Section ConnectFailure.
Import MongoSecurityValidator MongoConnectionManager.
Context `{Platform}.
Implicit Types (w : World) (name uri : string) (addr task h : nat) (cc : CachedConnection)
  (opts : MongoConnectionOptions) (cbs : Callbacks) (driver : Driver) (s : TaskState).

Lemma update_connections_objects f w : objects (update_connections f w) = objects w.
Proof. unfold update_connections. by destruct (global_cache w). Qed.

Lemma update_connections_tasks f w : tasks (update_connections f w) = tasks w.
Proof. unfold update_connections. by destruct (global_cache w). Qed.

Lemma update_connections_handles f w : handles (update_connections f w) = handles w.
Proof. unfold update_connections. by destruct (global_cache w). Qed.

Lemma update_connections_NODE_ENV f w : NODE_ENV (update_connections f w) = NODE_ENV w.
Proof. unfold update_connections. by destruct (global_cache w). Qed.

Lemma cache_map_delete name w : cache_map (update_connections (delete name) w) !! name = None.
Proof.
  unfold update_connections, cache_map.
  destruct (global_cache w) as [c|] eqn:E; simpl; [|by rewrite E].
  apply lookup_delete_eq.
Qed.

Lemma settle_objects task s w : objects (settle task s w) = objects w.
Proof. unfold settle. by repeat case_match. Qed.

Lemma settle_cache_map task s w : cache_map (settle task s w) = cache_map w.
Proof. unfold settle. by repeat case_match. Qed.

Lemma settle_handles task s w : handles (settle task s w) = handles w.
Proof. unfold settle. by repeat case_match. Qed.

Lemma settle_NODE_ENV task s w : NODE_ENV (settle task s w) = NODE_ENV w.
Proof. unfold settle. by repeat case_match. Qed.

(** X30. Let a call of [connect] pass validation and find no record under
    its name, let the retry budget [maxRetries || 3] be a whole number [n] of
    at least one, and let every attempt [1 .. n] fail.  Then the call rejects
    with the error that names [n] and the message of the last failure;
    afterwards no record is cached under the name and the name is not among
    [getPoolStats().connectionNames]; the record that was created for the call
    is left in state [ERROR] with [retryCount] equal to [n]. *)
Theorem connect_rejects_when_every_attempt_fails driver (errs : Z -> Thrown)
    uri opts cbs w (n : Z) :
  passes_validation (NODE_ENV w) uri opts ->
  connections_get (name_or_default (opt_connectionName opts)) w = None ->
  number_or_default (maxRetries opts) SECURITY_CONFIG.MAX_RETRIES = Whole n ->
  (1 <= n)%Z ->
  (forall k, (1 <= k <= n)%Z ->
     dial driver k (or_default (connectionTimeout opts) SECURITY_CONFIG.DEFAULT_TIMEOUT)
     = Throw (errs k)) ->
  exists w',
    connect driver uri opts cbs w
    = (w', RejectsWith (ErrorInstance
             ("Failed to connect after " ++ pretty n ++ " attempts. Last error: "
              ++ message_of (errs n)))) /\
    connections_get (name_or_default (opt_connectionName opts)) w' = None /\
    (name_or_default (opt_connectionName opts) ∉ connectionNames (getPoolStats w').1) /\
    (exists addr cc,
       objects w' !! addr = Some cc /\
       connectionName (info cc) = name_or_default (opt_connectionName opts) /\
       state (info cc) = ERROR /\
       retryCount (info cc) = n /\
       lastError (info cc) = Some (errs n)).
Proof.
  intros Hvalid Hmiss Hwhole Hbudget Hfail.
  set (name := name_or_default (opt_connectionName opts)) in *.
  destruct (connect_begin_lookup uri opts cbs w Hvalid) as (line & on & Hbegin).
  unfold connect. rewrite Hbegin. cbn zeta. fold name.
  rewrite at_lookup_connections_get, Hmiss.
  set (w0 := at_lookup line on w).
  set (task := fresh (dom (tasks w0))).
  set (addr := fresh (dom (objects w0))).
  set (record := mkCached None task _ opts cbs).
  set (w1 := update_connections _ _).
  assert (tasks w1 !! task = Some Pending) as Htask.
  { subst w1. rewrite update_connections_tasks. frame. apply lookup_insert_eq. }
  assert (objects w1 !! addr = Some record) as Hrecord.
  { subst w1. rewrite update_connections_objects. frame. apply lookup_insert_eq. }
  destruct (retry_loop_exhausted errs driver opts cbs addr n
              (or_default (retryDelay opts) SECURITY_CONFIG.RETRY_DELAY)
              (or_default (connectionTimeout opts) SECURITY_CONFIG.DEFAULT_TIMEOUT)
              (Z.to_nat n) 1%Z w1)
    as (w2 & Hloop & Htasks & Hobjects); [lia|lia|done|].
  destruct (Hobjects record Hrecord) as (cc' & Hcc' & (_ & _ & Hname) & Hstate & Hcount & Hlast).
  unfold run_establishment, connectWithRetry. rewrite Hwhole. cbn [whole_part].
  rewrite Hloop.
  unfold connect_resume.
  rewrite settle_pending by (by rewrite Htasks).
  eexists. split; [reflexivity|]. split; [apply delete_connections_get|]. split.
  - rewrite getPoolStats_names, cache_map_delete. by intros [? ?].
  - exists addr, cc'. by rewrite update_connections_objects, settle_objects.
Qed.

(** When no attempt that is made is identical to the budget (a budget that
    is not whole, or one below one), and every attempt that is made fails, the
    loop falls through to its closing [throw]: the error names neither a count
    nor a cause, and the record that was created for the call, which the call
    removes from the cache, is left in state [CONNECTING]. *)
Lemma connect_falls_through driver (errs : Z -> Thrown) uri opts cbs w :
  passes_validation (NODE_ENV w) uri opts ->
  connections_get (name_or_default (opt_connectionName opts)) w = None ->
  (forall k, (1 <= k <= whole_part (number_or_default (maxRetries opts)
                                      SECURITY_CONFIG.MAX_RETRIES))%Z ->
     identical k (number_or_default (maxRetries opts) SECURITY_CONFIG.MAX_RETRIES) = false) ->
  (forall k, (1 <= k <= whole_part (number_or_default (maxRetries opts)
                                      SECURITY_CONFIG.MAX_RETRIES))%Z ->
     dial driver k (or_default (connectionTimeout opts) SECURITY_CONFIG.DEFAULT_TIMEOUT)
     = Throw (errs k)) ->
  exists w',
    connect driver uri opts cbs w
    = (w', RejectsWith (ErrorInstance "Unexpected error in connection retry logic")) /\
    connections_get (name_or_default (opt_connectionName opts)) w' = None /\
    (exists addr cc,
       objects w' !! addr = Some cc /\
       connectionName (info cc) = name_or_default (opt_connectionName opts) /\
       state (info cc) = CONNECTING).
Proof.
  intros Hvalid Hmiss Hnever Hfail.
  set (name := name_or_default (opt_connectionName opts)) in *.
  set (budget := number_or_default (maxRetries opts) SECURITY_CONFIG.MAX_RETRIES) in *.
  destruct (connect_begin_lookup uri opts cbs w Hvalid) as (line & on & Hbegin).
  unfold connect. rewrite Hbegin. cbn zeta. fold name.
  rewrite at_lookup_connections_get, Hmiss.
  set (w0 := at_lookup line on w).
  set (task := fresh (dom (tasks w0))).
  set (addr := fresh (dom (objects w0))).
  set (record := mkCached None task _ opts cbs).
  set (w1 := update_connections _ _).
  assert (tasks w1 !! task = Some Pending) as Htask.
  { subst w1. rewrite update_connections_tasks. frame. apply lookup_insert_eq. }
  assert (objects w1 !! addr = Some record) as Hrecord.
  { subst w1. rewrite update_connections_objects. frame. apply lookup_insert_eq. }
  destruct (retry_loop_falls_through errs driver opts cbs addr budget
              (or_default (retryDelay opts) SECURITY_CONFIG.RETRY_DELAY)
              (or_default (connectionTimeout opts) SECURITY_CONFIG.DEFAULT_TIMEOUT)
              (Z.to_nat (whole_part budget)) 1%Z w1)
    as (w2 & Hloop & Htasks & _ & Hobjects);
    [intros; apply Hnever; lia|intros; apply Hfail; lia|].
  destruct (Hobjects record Hrecord) as (cc' & Hcc' & (_ & _ & Hname) & Hstate & _).
  unfold run_establishment, connectWithRetry. fold budget. rewrite Hloop.
  unfold connect_resume.
  rewrite settle_pending by (by rewrite Htasks).
  eexists. split; [reflexivity|]. split; [apply delete_connections_get|].
  exists addr, cc'. by rewrite update_connections_objects, settle_objects.
Qed.

(** A budget below one makes no attempt at all. *)
Lemma connect_without_attempts driver uri opts cbs w :
  passes_validation (NODE_ENV w) uri opts ->
  connections_get (name_or_default (opt_connectionName opts)) w = None ->
  (whole_part (number_or_default (maxRetries opts) SECURITY_CONFIG.MAX_RETRIES) < 1)%Z ->
  (connect driver uri opts cbs w).2
  = RejectsWith (ErrorInstance "Unexpected error in connection retry logic").
Proof.
  intros Hvalid Hmiss Hbudget.
  destruct (connect_falls_through driver (fun _ => OtherValue) uri opts cbs w Hvalid Hmiss)
    as (w' & -> & _); [intros; lia|intros; lia|done].
Qed.

End ConnectFailure.


Section RetryLoopFrame.
Import MongoConnectionManager.
Implicit Types (w : World) (name : string) (addr task h : nat) (cc : CachedConnection)
  (c : Connection) (e : Thrown) (driver : Driver) (opts : MongoConnectionOptions)
  (cbs : Callbacks).

Lemma loop_frame_refl w : loop_frame w w.
Proof. repeat split. eauto. Qed.

Lemma loop_frame_trans w1 w2 w3 : loop_frame w1 w2 -> loop_frame w2 w3 -> loop_frame w1 w3.
Proof.
  intros (Hc1 & Ht1 & He1 & Ho1) (Hc2 & Ht2 & He2 & Ho2).
  repeat split; try congruence.
  intros a cc Hcc. destruct (Ho1 a cc Hcc) as (cc' & Hcc' & Hp).
  destruct (Ho2 a cc' Hcc') as (cc'' & Hcc'' & Hp'). exists cc''. split; congruence.
Qed.

Lemma loop_frame_debug_write on level line w : loop_frame w (debug_write on level line w).
Proof. destruct on; repeat split; eauto. Qed.

Lemma loop_frame_invoke_callback label cb w : loop_frame w (invoke_callback label cb w).
Proof. unfold invoke_callback. repeat case_match; repeat split; eauto. Qed.

Lemma loop_frame_sleep ms w : loop_frame w (sleep ms w).
Proof. repeat split; eauto. Qed.

Lemma loop_frame_update_info addr f w : loop_frame w (update_info addr f w).
Proof.
  repeat split. intros a cc Hcc. frame.
  destruct (decide (a = addr)) as [->|Hne].
  - rewrite lookup_alter_eq, Hcc. simpl. eauto.
  - rewrite lookup_alter_ne by done. eauto.
Qed.

Lemma loop_frame_with_handles hs w : loop_frame w (with_handles hs w).
Proof. repeat split; eauto. Qed.

Lemma loop_frame_abandoned driver attempt w : loop_frame w (abandoned driver attempt w).
Proof. unfold abandoned. case_match; repeat split; eauto. Qed.

End RetryLoopFrame.

(** A chain of writes, peeled from the outside. *)
Ltac frame_chain :=
  repeat first
    [ apply loop_frame_refl
    | eapply loop_frame_trans;
      [| first [ apply loop_frame_debug_write | apply loop_frame_invoke_callback
               | apply loop_frame_sleep | apply loop_frame_update_info
               | apply loop_frame_with_handles | apply loop_frame_abandoned ] ] ].

Section RetryLoopResult.
Import MongoConnectionManager.
Implicit Types (w : World) (name : string) (addr task h : nat) (cc : CachedConnection)
  (c : Connection) (e : Thrown) (driver : Driver) (opts : MongoConnectionOptions)
  (cbs : Callbacks).

Lemma retry_loop_frame driver opts cbs addr maxRetries retryDelay connectionTimeout :
  forall (remaining : nat) (attempt : Z) w,
    loop_frame w (retry_loop remaining attempt maxRetries retryDelay connectionTimeout
                             driver opts addr cbs w).1 /\
    (forall h,
       (retry_loop remaining attempt maxRetries retryDelay connectionTimeout
                   driver opts addr cbs w).2 = Normal h ->
       is_Some (handles (retry_loop remaining attempt maxRetries retryDelay
                                    connectionTimeout driver opts addr cbs w).1 !! h)).
Proof.
  induction remaining as [|remaining IH]; intros attempt w.
  { split; [apply loop_frame_refl|done]. }
  cbn [retry_loop].
  destruct (dial driver attempt connectionTimeout) as [c|e].
  - unfold new_handle. cbn [fst snd]. split; [frame_chain|].
    intros h [= <-]. through_logs. rewrite lookup_insert_eq. eauto.
  - destruct (identical attempt maxRetries).
    + cbn [fst snd]. split; [frame_chain|done].
    + match goal with
      | |- context [retry_loop remaining ?a _ _ _ _ _ _ _ ?w0] =>
          destruct (IH a w0) as [Hframe Hhandle]
      end.
      split; [|exact Hhandle].
      eapply loop_frame_trans; [|exact Hframe]. frame_chain.
Qed.

End RetryLoopResult.


Section ConnectReuse.
Import MongoSecurityValidator MongoConnectionManager.
Context `{Platform}.
Implicit Types (w : World) (name uri : string) (addr task h : nat) (cc : CachedConnection)
  (opts : MongoConnectionOptions) (cbs : Callbacks) (driver : Driver) (s : TaskState).

(** A call that finds a record returns that record's promise and changes
    neither the cache nor the heaps. *)
Lemma connect_begin_hit uri opts cbs w addr cc :
  passes_validation (NODE_ENV w) uri opts ->
  connections_get (name_or_default (opt_connectionName opts)) w = Some (addr, cc) ->
  exists w',
    connect_begin uri opts cbs w = (w', Joined (promise cc)) /\
    cache_map w' = cache_map w /\ objects w' = objects w /\ tasks w' = tasks w /\
    handles w' = handles w /\ NODE_ENV w' = NODE_ENV w.
Proof.
  intros Hvalid Hhit.
  destruct (connect_begin_lookup uri opts cbs w Hvalid) as (line & on & ->). cbn zeta.
  rewrite at_lookup_connections_get, Hhit.
  destruct (at_lookup_frame line on w) as (Hc & Ho & Ht & Hh & He & _).
  eexists. split; [reflexivity|].
  by rewrite debug_write_cache_map, debug_write_objects, debug_write_tasks,
    debug_write_handles, debug_write_NODE_ENV.
Qed.

(** A call that finds none creates one record and one pending promise. *)
Lemma connect_begin_miss uri opts cbs w :
  passes_validation (NODE_ENV w) uri opts ->
  connections_get (name_or_default (opt_connectionName opts)) w = None ->
  exists w1 addr task cc,
    connect_begin uri opts cbs w
    = (w1, Started (name_or_default (opt_connectionName opts)) addr task) /\
    cache_map w1 = <[name_or_default (opt_connectionName opts) := addr]> (cache_map w) /\
    objects w1 = <[addr := cc]> (objects w) /\
    tasks w1 = <[task := Pending]> (tasks w) /\
    handles w1 = handles w /\ NODE_ENV w1 = NODE_ENV w /\
    promise cc = task /\ tasks w !! task = None.
Proof.
  intros Hvalid Hmiss.
  destruct (connect_begin_lookup uri opts cbs w Hvalid) as (line & on & ->). cbn zeta.
  rewrite at_lookup_connections_get, Hmiss.
  destruct (at_lookup_frame line on w) as (Hc & Ho & Ht & Hh & He & Hsome).
  eexists _, _, _, _. split; [reflexivity|].
  rewrite update_connections_objects, update_connections_tasks,
    update_connections_handles, update_connections_NODE_ENV.
  rewrite update_connections_cache_map by done. frame.
  rewrite Hc, Ho, Ht, Hh, He. repeat split.
  rewrite <- Ht. apply not_elem_of_dom, is_fresh.
Qed.

Lemma connections_get_frame name w w' :
  cache_map w' = cache_map w -> objects w' = objects w ->
  connections_get name w' = connections_get name w.
Proof. intros Hc Ho. by rewrite !connections_get_eq, Hc, Ho. Qed.

Lemma passes_validation_frame w w' uri opts :
  NODE_ENV w' = NODE_ENV w ->
  passes_validation (NODE_ENV w) uri opts -> passes_validation (NODE_ENV w') uri opts.
Proof. by intros ->. Qed.

Lemma size_one_record name addr w w1 :
  cache_map w = ∅ -> cache_map w1 = <[name := addr]> (cache_map w) ->
  totalConnections (getPoolStats w1).1 = 1%nat.
Proof.
  intros Hempty Hins. rewrite getPoolStats_total, Hins, Hempty.
  by rewrite map_size_insert_None, map_size_empty.
Qed.

(** The state of the process when the first call of [connect], which found
    no record, resolves with [h]: its record is cached under the name, and
    the record's promise is fulfilled with [h]. *)
Lemma connect_miss_resolves driver uri opts cbs w w3 h :
  passes_validation (NODE_ENV w) uri opts ->
  connections_get (name_or_default (opt_connectionName opts)) w = None ->
  connect driver uri opts cbs w = (w3, Resolves h) ->
  exists addr cc,
    connections_get (name_or_default (opt_connectionName opts)) w3 = Some (addr, cc) /\
    tasks w3 !! promise cc = Some (Fulfilled h) /\
    cache_map w3 = <[name_or_default (opt_connectionName opts) := addr]> (cache_map w) /\
    NODE_ENV w3 = NODE_ENV w.
Proof.
  intros Hvalid Hmiss.
  destruct (connect_begin_miss uri opts cbs w Hvalid Hmiss)
    as (w1 & addr & task & cc & Hbegin & Hc1 & Ho1 & Ht1 & _ & He1 & Hp & _).
  unfold connect. rewrite Hbegin. unfold run_establishment, connectWithRetry.
  set (n := number_or_default (maxRetries opts) SECURITY_CONFIG.MAX_RETRIES).
  set (d := or_default (retryDelay opts) SECURITY_CONFIG.RETRY_DELAY).
  set (t := or_default (connectionTimeout opts) SECURITY_CONFIG.DEFAULT_TIMEOUT).
  destruct (retry_loop_frame driver opts cbs addr n d t (Z.to_nat (whole_part n)) 1%Z w1)
    as [(Hc2 & Ht2 & He2 & Ho2) Hhandle].
  destruct (retry_loop _ _ _ _ _ _ _ _ _ w1) as [w2 [h'|e]]; cbn [fst snd] in *.
  - unfold connect_resume. rewrite settle_pending
      by (by rewrite Ht2, Ht1, lookup_insert_eq).
    destruct (Hhandle h' eq_refl) as [c Hc].
    assert (handles (update_object addr (set_connection h')
                       (settle task (Fulfilled h') w2)) !! h' = Some c) as ->
      by (frame; by rewrite settle_handles).
    intros [= <- <-].
    destruct (Ho2 addr cc) as (cc2 & Hcc2 & Hp2); [by rewrite Ho1, lookup_insert_eq|].
    eexists addr, _. rewrite connections_get_eq. frame.
    rewrite !settle_cache_map, !settle_objects.
    assert (cache_map w2 = cache_map w1) as -> by (unfold cache_map; by rewrite Hc2).
    rewrite Hc1, lookup_insert_eq. cbn [mbind option_bind].
    rewrite !lookup_alter_eq, Hcc2. cbn [fmap option_fmap option_map].
    split; [reflexivity|]. cbn [promise set_connection].
    rewrite Hp2, Hp. split; [|split; [done|rewrite settle_NODE_ENV; congruence]].
    unfold settle. rewrite Ht2, Ht1, lookup_insert_eq. frame. apply lookup_insert_eq.
  - unfold connect_resume. rewrite settle_pending
      by (by rewrite Ht2, Ht1, lookup_insert_eq). done.
Qed.

End ConnectReuse.


Section ConnectTwice.
Import MongoSecurityValidator MongoConnectionManager.
Context `{Platform}.
Implicit Types (w : World) (name uri : string) (addr task h : nat) (cc : CachedConnection)
  (opts : MongoConnectionOptions) (cbs : Callbacks) (driver : Driver) (s : TaskState).

Lemma outcome_of_task_frame task w w' :
  tasks w' = tasks w -> outcome_of_task task w' = outcome_of_task task w.
Proof. unfold outcome_of_task. by intros ->. Qed.

Lemma connect_hit driver uri opts cbs w addr cc :
  passes_validation (NODE_ENV w) uri opts ->
  connections_get (name_or_default (opt_connectionName opts)) w = Some (addr, cc) ->
  exists w',
    connect_begin uri opts cbs w = (w', Joined (promise cc)) /\
    connect driver uri opts cbs w = (w', outcome_of_task (promise cc) w) /\
    cache_map w' = cache_map w /\ objects w' = objects w /\ tasks w' = tasks w /\
    NODE_ENV w' = NODE_ENV w /\
    totalConnections (getPoolStats w').1 = totalConnections (getPoolStats w).1.
Proof.
  intros Hvalid Hhit.
  destruct (connect_begin_hit uri opts cbs w addr cc Hvalid Hhit)
    as (w' & Hbegin & Hc & Ho & Ht & _ & He).
  exists w'. unfold connect. rewrite Hbegin, (outcome_of_task_frame _ w w' Ht).
  by rewrite !getPoolStats_total, Hc.
Qed.

(** C4. For arguments that pass validation:
    - a call of [connect] that finds a record under its name returns that
      record's promise, and neither the cache nor the heaps of records and
      promises change;
    - a second call made while the first is still waiting for its promise
      returns that same promise;
    - a second call made after the first resolved with a handle resolves with
      the same handle;
    - in both cases the number of records is what it was after the first
      call, and it is 1 when the cache was empty before the first call. *)
Theorem connect_same_name_shares_one_record driver driver' uri opts cbs w :
  passes_validation (NODE_ENV w) uri opts ->
  (forall addr cc,
     connections_get (name_or_default (opt_connectionName opts)) w = Some (addr, cc) ->
     exists w',
       connect_begin uri opts cbs w = (w', Joined (promise cc)) /\
       connect driver uri opts cbs w = (w', outcome_of_task (promise cc) w) /\
       cache_map w' = cache_map w /\ objects w' = objects w /\ tasks w' = tasks w /\
       totalConnections (getPoolStats w').1 = totalConnections (getPoolStats w).1) /\
  (connections_get (name_or_default (opt_connectionName opts)) w = None ->
   exists w1 addr task w2,
     connect_begin uri opts cbs w
     = (w1, Started (name_or_default (opt_connectionName opts)) addr task) /\
     connect_begin uri opts cbs w1 = (w2, Joined task) /\
     totalConnections (getPoolStats w2).1 = totalConnections (getPoolStats w1).1 /\
     (cache_map w = ∅ -> totalConnections (getPoolStats w2).1 = 1%nat)) /\
  (forall w1 h,
     connect driver uri opts cbs w = (w1, Resolves h) ->
     exists w2,
       connect driver' uri opts cbs w1 = (w2, Resolves h) /\
       totalConnections (getPoolStats w2).1 = totalConnections (getPoolStats w1).1 /\
       (cache_map w = ∅ -> totalConnections (getPoolStats w2).1 = 1%nat)).
Proof.
  intros Hvalid. set (name := name_or_default (opt_connectionName opts)) in *.
  split; [|split].
  - intros addr cc Hhit.
    destruct (connect_hit driver uri opts cbs w addr cc Hvalid Hhit)
      as (w' & ? & ? & ? & ? & ? & ? & ?).
    by exists w'.
  - intros Hmiss.
    destruct (connect_begin_miss uri opts cbs w Hvalid Hmiss)
      as (w1 & addr & task & cc & Hbegin & Hc1 & Ho1 & Ht1 & _ & He1 & Hp & _).
    assert (connections_get name w1 = Some (addr, cc)) as Hhit.
    { by rewrite connections_get_eq, Hc1, Ho1, lookup_insert_eq; simpl;
        rewrite lookup_insert_eq. }
    destruct (connect_begin_hit uri opts cbs w1 addr cc) as (w2 & Hsecond & Hc2 & _);
      [by apply (passes_validation_frame w)|done|].
    exists w1, addr, task, w2. rewrite Hp in Hsecond.
    split; [done|]. split; [done|]. split.
    + by rewrite !getPoolStats_total, Hc2.
    + intros Hempty. rewrite getPoolStats_total, Hc2, <- getPoolStats_total.
      by eapply size_one_record.
  - intros w1 h Hfirst.
    assert (exists addr cc,
      connections_get name w1 = Some (addr, cc) /\
      tasks w1 !! promise cc = Some (Fulfilled h) /\
      NODE_ENV w1 = NODE_ENV w /\
      (cache_map w = ∅ -> totalConnections (getPoolStats w1).1 = 1%nat))
      as (addr & cc & Hhit & Htask & He & Hone).
    { destruct (connections_get name w) as [[addr cc]|] eqn:Hget.
      - destruct (connect_hit driver uri opts cbs w addr cc Hvalid Hget)
          as (w' & _ & Hconnect & Hc & Ho & Ht & He' & _).
        rewrite Hconnect in Hfirst. injection Hfirst as -> Hout.
        exists addr, cc. split; [by rewrite (connections_get_frame _ w w1)|].
        split; [|split; [done|]].
        + rewrite Ht. unfold outcome_of_task in Hout.
          by destruct (tasks w !! promise cc) as [[| |]|]; simplify_eq.
        + intros Hempty. rewrite connections_get_eq, Hempty in Hget. done.
      - destruct (connect_miss_resolves driver uri opts cbs w w1 h Hvalid Hget Hfirst)
          as (addr & cc & Hhit & Htask & Hc & He').
        exists addr, cc. repeat split; try done.
        intros Hempty. by eapply size_one_record. }
    destruct (connect_hit driver' uri opts cbs w1 addr cc) as
      (w2 & _ & Hconnect & Hc2 & _ & _ & _ & Htotal);
      [by apply (passes_validation_frame w)|done|].
    exists w2. split; [|split; [done|intros; rewrite Htotal; auto]].
    rewrite Hconnect. unfold outcome_of_task. by rewrite Htask.
Qed.

End ConnectTwice.


(** * The repository's own tests, replayed on the embedding *)

Section RepositoryTests.
Import Samples.

(** security.test.ts, "should handle malformed URIs gracefully". *)
Example malformed_targets_are_rejected :
  forallb (fun uri => rejected (validateURI (H:=node) None uri None))
    [ "not-a-uri"; "mongodb://"; "mongodb://@host:27017/db"; "mongodb://user:pass@";
      "mongodb+srv://"; "mongodb://invalid"; "mongodb://host:invalid-port/db" ] = true.
Proof. vm_compute. reflexivity. Qed.

(** security.test.ts, "should properly handle wildcard host patterns" and
    "should validate host whitelist strictly". *)
Example wildcard_patterns :
  forallb (fun hostname => isAllowed hostname ["*.mongodb.net"; "*.internal.company.com"])
    [ "cluster0.mongodb.net"; "shard1.mongodb.net"; "db.internal.company.com" ] = true /\
  existsb (fun hostname => isAllowed hostname ["*.mongodb.net"; "*.internal.company.com"])
    [ "mongodb.net"; "evil.mongodb.net.attacker.com"; "company.com" ] = false /\
  existsb (fun hostname => isAllowed hostname ["*.mongodb.net"; "localhost"; "trusted.com"])
    [ "evil.com"; "malicious.example.com"; "192.168.1.100";
      "attacker.mongodb.net.evil.com" ] = false.
Proof. by vm_compute. Qed.

(** security.test.ts, "should reject insecure SSL settings in production" and
    "should allow flexible SSL settings in development". *)
Example insecure_options_by_mode :
  forallb (fun o => negb (isValid (validateOptions (Some "production") o)))
    [ mkConnectOptions (Some false) None None None None None;
      mkConnectOptions None (Some false) None None None None;
      mkConnectOptions None None (Some true) None None None;
      mkConnectOptions None None None (Some true) None None ] = true /\
  isValid (validateOptions (Some "development")
             (mkConnectOptions (Some false) None (Some true) None None None)) = true.
Proof. by vm_compute. Qed.

(** security.test.ts, "should warn about excessive resource limits". *)
Example excessive_limits_warn :
  warnings (validateOptions None (mkConnectOptions None None None None (Some 1000%Z)
                                                   (Some 10000%Z)))
  = [ "Very large connection pool size detected"; "Very large buffer size detected" ].
Proof. reflexivity. Qed.

(** The port check reads digits only when a further character follows them:
    a port that ends the target reaches [new URL] unchecked, and the platform
    accepts port 0. *)
Example port_at_end_of_target :
  match_port_regex "mongodb://db.example.com:0" = None /\
  validateURI (H:=node) None "mongodb://db.example.com:0" None
  = Normal {| isValid := true; errors := []; warnings := [] |}.
Proof. by vm_compute. Qed.

(** The degenerate-path check compares the path with the root path: a
    target that stops after the host has an empty path and passes, unless its
    host is one of the two placeholder names. *)
Example host_only_without_trailing_slash :
  validateURI (H:=node) None "mongodb://localhost" None
  = Normal {| isValid := true; errors := []; warnings := [] |} /\
  validateURI (H:=node) None "mongodb://invalid" None
  = Normal {| isValid := false; errors := ["Invalid URI format: malformed hostname"];
              warnings := [] |}.
Proof. by vm_compute. Qed.

(** A negative [maxRetries] is not replaced by the default and leaves the
    loop without an attempt. *)
Example negative_retry_budget :
  (connect (H:=node) unreachable_server "mongodb://host/db"
     (mkOptions None false None (Some (Whole (-1))) None None None) no_callbacks
     fresh_process).2
  = RejectsWith (ErrorInstance "Unexpected error in connection retry logic").
Proof. by vm_compute. Qed.

End RepositoryTests.

(** * The claims on sample inputs *)

Section Witnesses.
Import JsString MongoSecurityValidator MongoConnectionManager Samples.

(** C1.  [closeConnection] on a cached record whose handle throws on
    [close()]: the call returns normally and logs the error, but the record is
    still in the cache afterwards, in state [DISCONNECTING], and its name is
    still among [getPoolStats().connectionNames]. *)
Theorem closeConnection_keeps_record_when_close_throws :
  connections_get "default" process_with_broken_handle = Some (0%nat, connected_record) /\
  (closeConnection "default" process_with_broken_handle).2 = Normal () /\
  connections_get "default" (closeConnection "default" process_with_broken_handle).1
  = Some (0%nat, disconnecting connected_record) /\
  "default" ∈ connectionNames
                (getPoolStats (closeConnection "default" process_with_broken_handle).1).1 /\
  console (closeConnection "default" process_with_broken_handle).1
  = [(ERR, "[MongoConnector] Error closing connection default: topology was destroyed")].
Proof.
  assert (connections_get "default" process_with_broken_handle
          = Some (0%nat, connected_record)) as Hget by reflexivity.
  destruct (closeConnection_close_throws "default" process_with_broken_handle 0
              connected_record 0 broken_handle (ErrorInstance "topology was destroyed")
              Hget eq_refl eq_refl eq_refl) as (Hkept & Hname & Hlog).
  split; [done|]. split; [apply closeConnection_returns|]. by repeat split.
Qed.

(** C2.  [connect] with [maxRetries: 1.5] against a server that refuses every
    connection.  The loop makes its one attempt, which fails; [attempt ===
    maxRetries] is false for it, so the loop does not throw the error that
    names the count and the cause: it waits [retryDelay] once more, ends, and
    the statement after it throws.  [connect] rejects with that error, which
    names neither the number of attempts nor the error of the attempt, and
    the record, which is removed from the Map, was never set to state
    [ERROR].  With the whole budget [1] the same call rejects with the error
    that names both. *)
Theorem connect_fractional_budget_loses_the_cause :
  dial unreachable_server 1 30000
  = Throw (ErrorInstance "connect ECONNREFUSED 127.0.0.1:27017") /\
  (connect (H:=node) unreachable_server "mongodb://host/db" fractional_budget
           no_callbacks fresh_process).2
  = RejectsWith (ErrorInstance "Unexpected error in connection retry logic") /\
  clock (connect (H:=node) unreachable_server "mongodb://host/db" fractional_budget
                 no_callbacks fresh_process).1 = 5000%Z /\
  connections_get "default"
    (connect (H:=node) unreachable_server "mongodb://host/db" fractional_budget
             no_callbacks fresh_process).1 = None /\
  connectionNames
    (getPoolStats (connect (H:=node) unreachable_server "mongodb://host/db"
                           fractional_budget no_callbacks fresh_process).1).1 = [] /\
  (info <$> objects (connect (H:=node) unreachable_server "mongodb://host/db"
                             fractional_budget no_callbacks fresh_process).1 !! 0%nat)
  = Some {| state := CONNECTING; connectedAt := None;
            lastError := Some (ErrorInstance "connect ECONNREFUSED 127.0.0.1:27017");
            host := None; database := None; connectionName := "default";
            retryCount := 1 |} /\
  (connect (H:=node) unreachable_server "mongodb://host/db"
           (mkOptions None false None (Some (Whole 1)) None None None)
           no_callbacks fresh_process).2
  = RejectsWith (ErrorInstance
      "Failed to connect after 1 attempts. Last error: connect ECONNREFUSED 127.0.0.1:27017").
Proof. by vm_compute. Qed.

Lemma connect_rejects_when_every_attempt_fails_witness :
  passes_validation (H:=node) (NODE_ENV fresh_process) "mongodb://host/db" default_options /\
  connections_get "default" fresh_process = None /\
  exists w',
    connect (H:=node) unreachable_server "mongodb://host/db" default_options
            no_callbacks fresh_process
    = (w', RejectsWith (ErrorInstance
        "Failed to connect after 3 attempts. Last error: connect ECONNREFUSED 127.0.0.1:27017"))
    /\ connections_get "default" w' = None.
Proof.
  assert (passes_validation (H:=node) (NODE_ENV fresh_process) "mongodb://host/db"
            default_options) as Hvalid.
  { split; [eexists; split; reflexivity|reflexivity]. }
  split; [exact Hvalid|]. split; [reflexivity|].
  destruct (connect_rejects_when_every_attempt_fails (H:=node) unreachable_server
              (fun _ => ErrorInstance "connect ECONNREFUSED 127.0.0.1:27017")
              "mongodb://host/db" default_options no_callbacks fresh_process 3%Z)
    as (w' & Hconnect & Hgone & _); [exact Hvalid|reflexivity|reflexivity|done|reflexivity|].
  exists w'. split; [exact Hconnect|exact Hgone].
Defined.


Lemma connect_same_name_shares_one_record_witness :
  passes_validation (H:=node) (NODE_ENV fresh_process) "mongodb://host/db" default_options /\
  exists w1 w2 h,
    connect (H:=node) healthy_server "mongodb://host/db" default_options no_callbacks
            fresh_process = (w1, Resolves h) /\
    connect (H:=node) unreachable_server "mongodb://host/db" default_options no_callbacks
            w1 = (w2, Resolves h) /\
    totalConnections (getPoolStats w2).1 = 1%nat.
Proof.
  assert (passes_validation (H:=node) (NODE_ENV fresh_process) "mongodb://host/db"
            default_options) as Hvalid.
  { split; [eexists; split; reflexivity|reflexivity]. }
  split; [exact Hvalid|].
  destruct (connect_same_name_shares_one_record (H:=node) healthy_server unreachable_server
              "mongodb://host/db" default_options no_callbacks fresh_process Hvalid)
    as (_ & _ & Hagain).
  assert ((connect (H:=node) healthy_server "mongodb://host/db" default_options
             no_callbacks fresh_process).2 = Resolves 0) as Hout by (by vm_compute).
  destruct (connect (H:=node) healthy_server "mongodb://host/db" default_options
              no_callbacks fresh_process) as [w1 out] eqn:Hfirst.
  simpl in Hout. subst out.
  destruct (Hagain w1 0%nat eq_refl) as (w2 & Hsecond & _ & Hone).
  exists w1, w2, 0%nat. split; [done|]. split; [done|]. by apply Hone.
Defined.

Lemma validateURI_rejects_dangerous_scheme_witness :
  (exists a b, "mongodb://localhost:27017/test?authMechanism=javascript:alert(1)"
               = a ++ "javascript:" ++ b) /\
  exists r,
    validateURI (H:=node) None
      "mongodb://localhost:27017/test?authMechanism=javascript:alert(1)"
      (Some ["localhost"]) = Normal r /\
    isValid r = false.
Proof.
  assert (exists a b, "mongodb://localhost:27017/test?authMechanism=javascript:alert(1)"
                      = a ++ "javascript:" ++ b) as Hsub.
  { by exists "mongodb://localhost:27017/test?authMechanism=", "alert(1)". }
  split; [exact Hsub|].
  apply validateURI_rejects_dangerous_scheme. by left.
Defined.

(** C7 as stated fails: this target has the port component [0], and the
    error it is rejected with is not the invalid-port error. *)
Lemma invalid_port_error_counterexample :
  match_port_regex "mongodb://@host:0/db" = Some ":0/" /\
  parseInt10 (slice_1_m1 ":0/") = Some 0%Z /\
  validateURI (H:=node) None "mongodb://@host:0/db" None
  = Normal {| isValid := false;
              errors := ["Invalid URI format: @ found without username/password"];
              warnings := [] |} /\
  ~ In "Invalid URI format: invalid port number"
       ["Invalid URI format: @ found without username/password"].
Proof.
  repeat split; try reflexivity. intros [E|[]]. discriminate E.
Qed.

Lemma invalid_port_precheck_witness :
  match_port_regex "mongodb://db.example.com:0/app" = Some ":0/" /\
  ~ (1 <= digits_value_from 0 (slice_1_m1 ":0/") <= 65535)%Z /\
  validateURI (H:=node) None "mongodb://db.example.com:0/app" None
  = Normal {| isValid := false;
              errors := ["Invalid URI format: invalid port number"];
              warnings := [] |}.
Proof.
  assert (~ (1 <= digits_value_from 0 (slice_1_m1 ":0/") <= 65535)%Z) as Hrange.
  { vm_compute. intros [Hle _]. by apply Hle. }
  split; [reflexivity|]. split; [exact Hrange|].
  destruct (invalid_port_precheck (H:=node) None "mongodb://db.example.com:0/app" None
              ":0/" eq_refl Hrange) as (r & Hr & _ & Hexact & _).
  rewrite Hr. f_equal. by apply Hexact.
Defined.

(** C8 as stated fails: this target is protocol and host only, with the
    root path, and the error it is rejected with is not the incompleteness
    error. *)
Lemma incompleteness_error_counterexample :
  new_URL (Platform:=node) "mongodb://host/" = Normal (mongodb_url "" "" "host" "" "/" "") /\
  validateURI (H:=node) None "mongodb://host/" None
  = Normal {| isValid := false;
              errors := ["Invalid URI format: malformed hostname"];
              warnings := [] |} /\
  ~ In "Invalid URI format: missing database name or path"
       ["Invalid URI format: malformed hostname"].
Proof.
  repeat split; try reflexivity. intros [E|[]]. discriminate E.
Qed.

Lemma degenerate_target_rejected_witness :
  new_URL (Platform:=node) "mongodb://db.example.com/"
  = Normal (mongodb_url "" "" "db.example.com" "" "/" "") /\
  exists r,
    validateURI (H:=node) None "mongodb://db.example.com/" None = Normal r /\
    isValid r = false /\
    In "Invalid URI format: missing database name or path" (errors r).
Proof.
  split; [reflexivity|].
  destruct (degenerate_target_rejected (H:=node) None "mongodb://db.example.com/" None
              (mongodb_url "" "" "db.example.com" "" "/" "")
              eq_refl eq_refl eq_refl eq_refl eq_refl) as (r & Hr & Hinvalid & Hmsg & _).
  exists r. split; [exact Hr|]. split; [exact Hinvalid|].
  apply Hmsg; [reflexivity|discriminate|discriminate].
Defined.

Lemma validateOptions_production_gate_witness :
  insecure (mkConnectOptions (Some false) None None None None None) /\
  isValid (validateOptions (Some "production")
             (mkConnectOptions (Some false) None None None None None)) = false /\
  isValid (validateOptions (Some "development")
             (mkConnectOptions (Some false) None None None None None)) = true.
Proof.
  assert (insecure (mkConnectOptions (Some false) None None None None None)) as Hins
    by (by left).
  split; [exact Hins|]. split.
  - by apply (validateOptions_production_gate (Some "production") _ Hins).
  - by apply (validateOptions_production_gate (Some "development") _ Hins).
Defined.

End Witnesses.

(** * Further properties: the options handed to the driver *)

Section SecureOptions.
Implicit Types (env : option string) (u : MongooseOptionKeys).

Lemma is_development_not_production env :
  is_production env = true -> is_development env = false.
Proof.
  destruct env as [v|]; [|done]. simpl. intros ->%String.eqb_eq. done.
Qed.

(** X1. In production, options that [validateOptions] accepts never come
    out of [createSecureOptions] insecure: the result neither switches [ssl] or
    [tls] off nor allows invalid certificates or host names.  Each of the four
    settings has its safe value unless the caller passed that key with the
    value [undefined]: then the default is overwritten and the result holds
    [undefined] for it. *)
Theorem createSecureOptions_production_secured env u :
  is_production env = true ->
  isValid (validateOptions env (as_read u)) = true ->
  ~ insecure (checked (createSecureOptions env u)) /\
  ssl (checked (createSecureOptions env u))
  = match ssl_key u with Present None => None | _ => Some true end /\
  tls (checked (createSecureOptions env u))
  = match tls_key u with Present None => None | _ => Some true end /\
  tlsAllowInvalidCertificates (checked (createSecureOptions env u))
  = match tlsAllowInvalidCertificates_key u with Present None => None | _ => Some false end /\
  tlsAllowInvalidHostnames (checked (createSecureOptions env u))
  = match tlsAllowInvalidHostnames_key u with Present None => None | _ => Some false end.
Proof.
  intros Hprod Hvalid. unfold createSecureOptions.
  rewrite (is_development_not_production env Hprod).
  unfold validateOptions in Hvalid. rewrite Hprod in Hvalid.
  destruct u as [s t ci hi ? ? ? ? ? ? ? ?]. unfold insecure. cbn in *.
  destruct s as [|[[]|]], t as [|[[]|]], ci as [|[[]|]], hi as [|[[]|]];
    cbn in Hvalid |- *; repeat case_match; try discriminate;
    (split; [intros [?|[?|[?|?]]]; discriminate|by repeat split]).
Qed.

(** X2. The execution mode changes the result of [createSecureOptions] in
    one respect only: in development the two [tlsAllowInvalid...] settings
    stay unset when the caller left the keys out, where every other mode sets
    them to [false].  [ssl] and [tls] come out the same in every mode: [true]
    when the caller left the key out, and otherwise what the caller passed,
    [undefined] included. *)
Theorem createSecureOptions_mode_dependence env u :
  let r := createSecureOptions env u in
  let r0 := createSecureOptions None u in
  ssl (checked r) = spread (Some true) (ssl_key u) /\
  tls (checked r) = spread (Some true) (tls_key u) /\
  tlsAllowInvalidCertificates (checked r)
  = spread (if is_development env then None else Some false)
           (tlsAllowInvalidCertificates_key u) /\
  tlsAllowInvalidHostnames (checked r)
  = spread (if is_development env then None else Some false)
           (tlsAllowInvalidHostnames_key u) /\
  maxPoolSize (checked r) = maxPoolSize (checked r0) /\
  bufferMaxEntries (checked r) = bufferMaxEntries (checked r0) /\
  serverSelectionTimeoutMS r = serverSelectionTimeoutMS r0 /\
  socketTimeoutMS r = socketTimeoutMS r0 /\
  connectTimeoutMS r = connectTimeoutMS r0 /\
  heartbeatFrequencyMS r = heartbeatFrequencyMS r0 /\
  retryWrites r = retryWrites r0 /\
  retryReads r = retryReads r0.
Proof.
  destruct u as [s t ci hi ? ? ? ? ? ? ? ?].
  unfold createSecureOptions. cbn.
  destruct (is_development env); cbn;
    destruct s as [|[[]|]], t as [|[[]|]], ci as [|[[]|]], hi as [|[[]|]];
    by repeat split.
Qed.

End SecureOptions.

(** * Further properties: queries and closing *)

Section Queries.
Implicit Types (w : World) (name : string) (addr task h : nat) (cc : CachedConnection)
  (c : Connection) (e : Thrown).

Lemma getConnectionInfo_spec name w :
  getConnectionInfo name w
  = ((fun entry : nat * CachedConnection => info entry.2) <$> connections_get name w,
     (getGlobalCache w).2).
Proof.
  unfold getConnectionInfo. rewrite <- (getGlobalCache_connections_get name w).
  by destruct (getGlobalCache w).
Qed.

Lemma getGlobalCache_snd_idem w : (getGlobalCache (getGlobalCache w).2).2 = (getGlobalCache w).2.
Proof. cache_cases w. Qed.

Lemma getGlobalCache_console w : console (getGlobalCache w).2 = console w.
Proof. cache_cases w. Qed.

Lemma getGlobalCache_clock w : clock (getGlobalCache w).2 = clock w.
Proof. cache_cases w. Qed.

Lemma getGlobalCache_NODE_ENV w : NODE_ENV (getGlobalCache w).2 = NODE_ENV w.
Proof. cache_cases w. Qed.

Lemma readyState_of_ready name w :
  readyState_of (connections_get name w
                   ≫= (fun entry : nat * CachedConnection => connection entry.2)) w
  = Some 1%Z <-> is_Some (ready_connection name w).
Proof.
  unfold readyState_of, ready_connection.
  destruct (connections_get name w) as [[addr cc]|]; simpl; [|by split; [|intros []]].
  destruct (connection cc) as [h|]; simpl; [|by split; [|intros []]].
  destruct (handles w !! h) as [c|]; simpl; [|by split; [|intros []]].
  destruct (Z.eqb_spec (readyState c) 1) as [->|Hne].
  - split; eauto.
  - split; [congruence|by intros []].
Qed.

(** [isConnected] in terms of the cached record. *)
Lemma isConnected_eq name w :
  isConnected name w
  = (bool_decide (is_Some (ready_connection name w))
     && bool_decide (record_state name w = Some CONNECTED), (getGlobalCache w).2).
Proof.
  unfold isConnected. rewrite getConnection_spec, getConnectionInfo_spec.
  rewrite getGlobalCache_connections_get, getGlobalCache_snd_idem.
  assert (readyState_of (connections_get name w
            ≫= (fun entry : nat * CachedConnection => connection entry.2))
            (getGlobalCache w).2
          = readyState_of (connections_get name w
            ≫= (fun entry : nat * CachedConnection => connection entry.2)) w) as ->.
  { unfold readyState_of. by rewrite getGlobalCache_handles. }
  unfold record_state. rewrite <- option_fmap_compose.
  destruct (decide (is_Some (ready_connection name w))) as [Hr|Hr].
  - rewrite (bool_decide_eq_true_2 _ Hr).
    apply readyState_of_ready in Hr. rewrite (bool_decide_eq_true_2 _ Hr). done.
  - rewrite (bool_decide_eq_false_2 _ Hr).
    assert (Hn := Hr). rewrite <- readyState_of_ready in Hn.
    by rewrite (bool_decide_eq_false_2 _ Hn).
Qed.

(** What [closeConnection] does to each component of the process. *)
Lemma closeConnection_cases name w :
  let w' := (closeConnection name w).1 in
  NODE_ENV w' = NODE_ENV w /\ tasks w' = tasks w /\ clock w' = clock w /\
  is_Some (global_cache w') /\
  match connections_get name w with
  | None =>
      cache_map w' = cache_map w /\ objects w' = objects w /\ handles w' = handles w /\
      console w' = console w
  | Some (addr, cc) =>
      objects w' = alter disconnecting addr (objects w) /\
      match connection cc ≫= (fun h => (fun c => (h, c)) <$> handles w !! h) with
      | Some (h, c) =>
          match close_failure c with
          | Some e =>
              cache_map w' = cache_map w /\ handles w' = handles w /\
              console w'
              = (console w ++ [(ERR, ("[MongoConnector] Error closing connection "
                                      ++ name ++ ": " ++ message_of e)%string)])%list
          | None =>
              cache_map w' = delete name (cache_map w) /\
              handles w' = <[h := closed c]> (handles w) /\
              console w' = console w
          end
      | None =>
          cache_map w' = delete name (cache_map w) /\ handles w' = handles w /\
          console w' = console w
      end
  end.
Proof.
  unfold closeConnection.
  destruct (getGlobalCache w) as [c0 w0] eqn:E0.
  assert (w0 = (getGlobalCache w).2) as -> by by rewrite E0.
  rewrite getGlobalCache_connections_get.
  destruct (getGlobalCache_is_Some w) as [g Hg].
  assert (connections g = cache_map w) as Hmap.
  { rewrite <- getGlobalCache_cache_map. unfold cache_map. by rewrite Hg. }
  destruct (connections_get name w) as [[addr cc]|] eqn:Hget; cbn zeta.
  - destruct (connection cc) as [h|] eqn:Hc; simpl.
    + unfold close. frame. rewrite getGlobalCache_handles.
      destruct (handles w !! h) as [c|] eqn:Hh; simpl.
      * destruct (close_failure c) as [e|] eqn:He; simpl.
        -- frame. rewrite Hg. simpl.
           rewrite ?getGlobalCache_NODE_ENV, ?getGlobalCache_tasks, ?getGlobalCache_clock,
             ?getGlobalCache_objects, ?getGlobalCache_handles, ?getGlobalCache_console.
           repeat split; eauto using getGlobalCache_cache_map.
        -- unfold update_connections. frame. rewrite Hg. frame. rewrite Hmap.
           rewrite ?getGlobalCache_NODE_ENV, ?getGlobalCache_tasks, ?getGlobalCache_clock,
             ?getGlobalCache_objects, ?getGlobalCache_handles, ?getGlobalCache_console.
           repeat split; eauto using getGlobalCache_cache_map.
           unfold closed. by rewrite He.
      * unfold update_connections. frame. rewrite Hg. frame. rewrite Hmap.
        rewrite ?getGlobalCache_NODE_ENV, ?getGlobalCache_tasks, ?getGlobalCache_clock,
          ?getGlobalCache_objects, ?getGlobalCache_handles, ?getGlobalCache_console.
        repeat split; eauto using getGlobalCache_cache_map.
    + unfold update_connections. frame. rewrite Hg. frame. rewrite Hmap.
      rewrite ?getGlobalCache_NODE_ENV, ?getGlobalCache_tasks, ?getGlobalCache_clock,
        ?getGlobalCache_objects, ?getGlobalCache_handles, ?getGlobalCache_console.
      repeat split; eauto using getGlobalCache_cache_map.
  - simpl. rewrite getGlobalCache_NODE_ENV, getGlobalCache_tasks, getGlobalCache_clock,
      getGlobalCache_objects, getGlobalCache_handles, getGlobalCache_console,
      getGlobalCache_cache_map. repeat split; eauto using getGlobalCache_cache_map.
Qed.

End Queries.

Section Closing.
Implicit Types (w : World) (name : string) (addr task h : nat) (cc : CachedConnection)
  (c : Connection) (e : Thrown).

(** Whatever record is cached under a name after [closeConnection] was
    cached under it before, unchanged or in state [DISCONNECTING]. *)
Lemma closeConnection_record name n w addr cc' :
  connections_get n (closeConnection name w).1 = Some (addr, cc') ->
  exists cc0, connections_get n w = Some (addr, cc0) /\
              (cc' = cc0 \/ cc' = disconnecting cc0) /\
              (n = name -> cc' = disconnecting cc0).
Proof.
  destruct (closeConnection_cases name w) as (_ & _ & _ & _ & Hcases).
  rewrite !connections_get_eq.
  destruct (connections_get name w) as [[a cc]|] eqn:Hget.
  - destruct Hcases as [Hobj Hcases]. rewrite Hobj.
    assert (cache_map (closeConnection name w).1 = cache_map w \/
            cache_map (closeConnection name w).1 = delete name (cache_map w)) as Hmap.
    { destruct (connection cc ≫= _) as [[h c]|]; [destruct (close_failure c)|];
        destruct Hcases as (-> & _); auto. }
    assert (forall a', cache_map (closeConnection name w).1 !! n = Some a' ->
                       cache_map w !! n = Some a' /\
                       (n = name -> cache_map (closeConnection name w).1 = cache_map w))
      as Hsub.
    { intros a'. destruct Hmap as [->| ->]; [done|].
      destruct (decide (n = name)) as [->|Hne].
      - by rewrite lookup_delete_eq.
      - by rewrite lookup_delete_ne. }
    destruct (cache_map (closeConnection name w).1 !! n) as [a'|] eqn:Hn; [|done].
    destruct (Hsub a' eq_refl) as [Hn0 Hsame]. rewrite Hn0. simpl.
    destruct (decide (a' = a)) as [->|Hne].
    + rewrite lookup_alter_eq.
      destruct (objects w !! a) as [cc0|]; [|done]. simpl.
      intros [= <- <-]. exists cc0. auto.
    + rewrite lookup_alter_ne by done.
      destruct (objects w !! a') as [cc0|] eqn:Ho; [|done]. simpl.
      intros [= <- <-]. exists cc0. split; [done|]. split; [auto|].
      intros ->. rewrite connections_get_eq, Hn0 in Hget. simpl in Hget.
      rewrite Ho in Hget. simpl in Hget. congruence.
  - destruct Hcases as (-> & -> & _).
    destruct (cache_map w !! n) as [a'|] eqn:Hn; [|done]. simpl.
    destruct (objects w !! a') as [cc0|] eqn:Ho; [|done]. simpl.
    intros [= <- <-]. exists cc0. split; [done|]. split; [auto|].
    intros ->. rewrite connections_get_eq, Hn in Hget. simpl in Hget.
    rewrite Ho in Hget. done.
Qed.

Lemma record_state_disconnecting cc : state (info (disconnecting cc)) = DISCONNECTING.
Proof. done. Qed.

(** [closeConnection] never makes a record [CONNECTED], and the record of
    the name it is given is not [CONNECTED] afterwards. *)
Lemma closeConnection_record_state name n w :
  n = name \/ record_state n w <> Some CONNECTED ->
  record_state n (closeConnection name w).1 <> Some CONNECTED.
Proof.
  intros Hpre. unfold record_state in *.
  destruct (connections_get n (closeConnection name w).1) as [[addr cc']|] eqn:Hafter;
    [|done].
  destruct (closeConnection_record name n w addr cc' Hafter) as (cc0 & Hbefore & Hor & Hsame).
  simpl. destruct Hpre as [->|Hpre].
  - rewrite Hsame by done. done.
  - rewrite Hbefore in Hpre. simpl in Hpre. destruct Hor as [->| ->]; [done|done].
Qed.

Lemma not_connected_isConnected name w :
  record_state name w <> Some CONNECTED -> (isConnected name w).1 = false.
Proof.
  intros Hs. rewrite isConnected_eq. simpl.
  rewrite (bool_decide_eq_false_2 _ Hs). apply andb_false_r.
Qed.

(** X3. After [closeConnection(name)], [isConnected(name)] is false: this
    holds when there was no record, when the handle closed, and also when
    [close()] threw and the record stayed in the cache. *)
Theorem closeConnection_then_not_connected name w :
  (isConnected name (closeConnection name w).1).1 = false.
Proof. apply not_connected_isConnected, closeConnection_record_state. by left. Qed.

(** The calls that [closeAllConnections] makes, one per name. *)
Lemma close_each_record_state n names :
  forall w,
    n ∈ names \/ record_state n w <> Some CONNECTED ->
    record_state n (foldl (fun w name => (closeConnection name w).1) w names)
    <> Some CONNECTED.
Proof.
  induction names as [|name names IH]; intros w Hpre; simpl.
  - destruct Hpre as [Hin|]; [|done]. by apply elem_of_nil in Hin.
  - apply IH. destruct Hpre as [Hin|Hpre].
    + apply elem_of_cons in Hin as [->|Hin]; [|by left].
      right. apply closeConnection_record_state. by left.
    + right. apply closeConnection_record_state. by right.
Qed.

Lemma closeAllConnections_eq w :
  (closeAllConnections w).1
  = foldl (fun w name => (closeConnection name w).1) (getGlobalCache w).2
          (map_to_list (cache_map w)).*1.
Proof.
  unfold closeAllConnections. rewrite <- getGlobalCache_fst.
  by destruct (getGlobalCache w).
Qed.

Lemma record_state_absent n w : cache_map w !! n = None -> record_state n w = None.
Proof. intros Hn. unfold record_state. by rewrite connections_get_eq, Hn. Qed.

Lemma closeAllConnections_record_state n w :
  record_state n (closeAllConnections w).1 <> Some CONNECTED.
Proof.
  rewrite closeAllConnections_eq. apply close_each_record_state.
  destruct (cache_map w !! n) as [addr|] eqn:Hn.
  - left. apply names_of_map. eauto.
  - right. unfold record_state. rewrite getGlobalCache_connections_get.
    fold (record_state n w). by rewrite record_state_absent.
Qed.

(** X4. After [closeAllConnections()], [isConnected] is false for every
    name, whether or not the handles closed. *)
Theorem closeAllConnections_then_none_connected w name :
  (isConnected name (closeAllConnections w).1).1 = false.
Proof. apply not_connected_isConnected, closeAllConnections_record_state. Qed.

Lemma closeConnection_allocated name w :
  records_allocated w -> records_allocated (closeConnection name w).1.
Proof.
  intros Hwf n addr. destruct (closeConnection_cases name w) as (_ & _ & _ & _ & Hcases).
  destruct (connections_get name w) as [[a cc]|].
  - destruct Hcases as [-> Hcases]. intros Hn.
    assert (cache_map w !! n = Some addr) as Hn0.
    { destruct (connection cc ≫= _) as [[h c]|]; [destruct (close_failure c)|];
        destruct Hcases as (Hm & _); rewrite Hm in Hn; try done;
        by apply lookup_delete_Some in Hn as [_ ?]. }
    destruct (Hwf n addr Hn0) as [cc0 Hcc0].
    destruct (decide (addr = a)) as [->|Hne].
    + rewrite lookup_alter_eq, Hcc0. eauto.
    + rewrite lookup_alter_ne by done. eauto.
  - destruct Hcases as (-> & -> & _). apply Hwf.
Qed.

Lemma closeConnection_clean name w :
  handles_close_cleanly w -> handles_close_cleanly (closeConnection name w).1.
Proof.
  intros Hclean h0 c0. destruct (closeConnection_cases name w) as (_ & _ & _ & _ & Hcases).
  destruct (connections_get name w) as [[a cc]|].
  - destruct Hcases as [_ Hcases].
    destruct (connection cc ≫= _) as [[h c]|] eqn:Hh.
    + destruct (close_failure c) eqn:He.
      * destruct Hcases as (_ & -> & _). apply Hclean.
      * destruct Hcases as (_ & -> & _).
        destruct (decide (h0 = h)) as [->|Hne].
        -- rewrite lookup_insert_eq. by intros [= <-].
        -- rewrite lookup_insert_ne by done. apply Hclean.
    + destruct Hcases as (_ & -> & _). apply Hclean.
  - destruct Hcases as (_ & _ & -> & _). apply Hclean.
Qed.

(** With records in place and handles that close, [closeConnection] removes
    exactly the name it is given. *)
Lemma closeConnection_cache_map name w :
  records_allocated w -> handles_close_cleanly w ->
  cache_map (closeConnection name w).1 = delete name (cache_map w).
Proof.
  intros Hwf Hclean. destruct (closeConnection_cases name w) as (_ & _ & _ & _ & Hcases).
  destruct (connections_get name w) as [[a cc]|] eqn:Hget.
  - destruct Hcases as [_ Hcases].
    destruct (connection cc ≫= _) as [[h c]|] eqn:Hh; [|by destruct Hcases].
    assert (handles w !! h = Some c) as Hc.
    { destruct (connection cc) as [h'|]; [|done]. simpl in Hh.
      destruct (handles w !! h') as [c'|] eqn:Hh'; [|done]. simpl in Hh. congruence. }
    rewrite (Hclean h c Hc) in Hcases. by destruct Hcases.
  - destruct Hcases as (-> & _). symmetry. apply delete_id.
    rewrite connections_get_eq in Hget.
    destruct (cache_map w !! name) as [a|] eqn:Hn; [|done].
    destruct (Hwf name a Hn) as [cc Hcc]. simpl in Hget. by rewrite Hcc in Hget.
Qed.

Lemma close_each_cache_map names :
  forall w,
    records_allocated w -> handles_close_cleanly w ->
    cache_map (foldl (fun w name => (closeConnection name w).1) w names)
    = foldl (fun m name => delete name m) (cache_map w) names.
Proof.
  induction names as [|name names IH]; intros w Hwf Hclean; [done|]. simpl.
  rewrite IH by (by apply closeConnection_allocated || by apply closeConnection_clean).
  by rewrite closeConnection_cache_map.
Qed.

Lemma delete_each_lookup (names : list string) :
  forall (m : gmap string nat) n,
    foldl (fun m name => delete name m) m names !! n
    = if bool_decide (n ∈ names) then None else m !! n.
Proof.
  induction names as [|name names IH]; intros m n; cbn [foldl].
  - rewrite bool_decide_eq_false_2; [done|]. apply not_elem_of_nil.
  - rewrite IH. destruct (decide (n ∈ names)) as [Hin|Hin].
    + rewrite !bool_decide_eq_true_2; [done| |done]. by right.
    + rewrite (bool_decide_eq_false_2 _ Hin).
      destruct (decide (n = name)) as [->|Hne].
      * rewrite lookup_delete_eq, bool_decide_eq_true_2; [done|]. by left.
      * rewrite lookup_delete_ne by done. rewrite bool_decide_eq_false_2; [done|].
        intros [->|?]%elem_of_cons; done.
Qed.

Lemma getGlobalCache_allocated w : records_allocated w -> records_allocated (getGlobalCache w).2.
Proof.
  intros Hwf n addr. rewrite getGlobalCache_cache_map, getGlobalCache_objects. apply Hwf.
Qed.

Lemma getGlobalCache_clean w :
  handles_close_cleanly w -> handles_close_cleanly (getGlobalCache w).2.
Proof. intros Hc h c. rewrite getGlobalCache_handles. apply Hc. Qed.

(** X5. When every name of the Map leads to a record and no handle throws
    on [close()], [closeAllConnections()] leaves the Map empty:
    [getPoolStats()] counts no connection. *)
Theorem closeAllConnections_empties_cache w :
  records_allocated w -> handles_close_cleanly w ->
  cache_map (closeAllConnections w).1 = ∅ /\
  totalConnections (getPoolStats (closeAllConnections w).1).1 = 0%nat /\
  (closeAllConnections w).2 = Normal ().
Proof.
  intros Hwf Hclean.
  assert (cache_map (closeAllConnections w).1 = ∅) as Hempty.
  { rewrite closeAllConnections_eq.
    rewrite close_each_cache_map
      by (by apply getGlobalCache_allocated || by apply getGlobalCache_clean).
    rewrite getGlobalCache_cache_map. apply map_eq. intros n.
    rewrite delete_each_lookup, lookup_empty.
    destruct (cache_map w !! n) as [addr|] eqn:Hn; [|by case_bool_decide].
    rewrite bool_decide_eq_true_2; [done|]. apply names_of_map. eauto. }
  split; [done|]. split.
  - by rewrite getPoolStats_total, Hempty, map_size_empty.
  - unfold closeAllConnections. by destruct (getGlobalCache w).
Qed.

End Closing.

Section Cleanup.
Implicit Types (w : World) (name : string) (addr task h : nat) (cc : CachedConnection)
  (c : Connection) (e : Thrown).

Lemma closeConnection_keeps_failing_handle name w h c e :
  handles w !! h = Some c -> close_failure c = Some e ->
  handles (closeConnection name w).1 !! h = Some c.
Proof.
  intros Hh He. destruct (closeConnection_cases name w) as (_ & _ & _ & _ & Hcases).
  destruct (connections_get name w) as [[a cc]|].
  - destruct Hcases as [_ Hcases].
    destruct (connection cc ≫= _) as [[h' c']|] eqn:Hh'.
    + destruct (close_failure c') eqn:He'.
      * by destruct Hcases as (_ & -> & _).
      * destruct Hcases as (_ & -> & _).
        rewrite lookup_insert_ne; [done|]. intros ->.
        destruct (connection cc) as [h0|]; [|done]. simpl in Hh'.
        destruct (handles w !! h0) as [c0|] eqn:Hh0; [|done]. simpl in Hh'.
        congruence.
    + by destruct Hcases as (_ & -> & _).
  - by destruct Hcases as (_ & _ & -> & _).
Qed.

Lemma close_each_keeps_failing_handle names h c e :
  forall w,
    handles w !! h = Some c -> close_failure c = Some e ->
    handles (foldl (fun w name => (closeConnection name w).1) w names) !! h = Some c.
Proof.
  induction names as [|name names IH]; intros w Hh He; [done|]. simpl.
  apply IH; [|done]. by eapply closeConnection_keeps_failing_handle.
Qed.

Lemma no_cache_no_record name w : global_cache w = None -> connections_get name w = None.
Proof. unfold connections_get. by intros ->. Qed.

(** X6. [cleanup()] returns normally and discards the cache object,
    whether or not the handles closed: afterwards no name has a connection,
    [isConnected] is false for every name and [getPoolStats()] counts no
    connection.  A handle whose [close()] threw is left exactly as it was,
    with nothing referring to it any more. *)
Theorem cleanup_discards_cache w :
  (cleanup w).2 = Normal () /\
  global_cache (cleanup w).1 = None /\
  (forall name,
     (getConnection name (cleanup w).1).1 = None /\
     (getConnectionInfo name (cleanup w).1).1 = None /\
     (isConnected name (cleanup w).1).1 = false) /\
  totalConnections (getPoolStats (cleanup w).1).1 = 0%nat /\
  (forall h c e,
     handles w !! h = Some c -> close_failure c = Some e ->
     handles (cleanup w).1 !! h = Some c).
Proof.
  unfold cleanup.
  destruct (getGlobalCache w) as [c0 w0] eqn:E0.
  assert (w0 = (getGlobalCache w).2) as -> by by rewrite E0.
  pose proof (closeAllConnections_eq (getGlobalCache w).2) as Hall.
  destruct (closeAllConnections (getGlobalCache w).2) as [w1 [[]|e]] eqn:E1;
    [|unfold closeAllConnections in E1;
      by destruct (getGlobalCache (getGlobalCache w).2) in E1].
  cbn [fst] in Hall. cbn [fst snd].
  split; [done|]. split; [done|].
  set (w' := console_write _ _ _).
  assert (global_cache w' = None) as Hnone by done.
  split; [|split].
  - intros name. rewrite getConnection_spec, getConnectionInfo_spec, isConnected_eq.
    cbn [fst]. unfold record_state. rewrite (no_cache_no_record name w' Hnone).
    by repeat split.
  - rewrite getPoolStats_total. unfold cache_map. rewrite Hnone. apply map_size_empty.
  - intros h c e Hh He. subst w'. frame.
    rewrite update_connections_handles, Hall.
    eapply close_each_keeps_failing_handle; [|done].
    by rewrite getGlobalCache_snd_idem, getGlobalCache_handles.
Qed.

(** X7. [resetConnectorState()] empties the Map without closing anything:
    the handles are what they were, but no name has a connection any more,
    and the shutdown handlers count as not installed.  It does not create the
    cache object when there is none. *)
Theorem resetConnectorState_forgets_without_closing w :
  handles (resetConnectorState w) = handles w /\
  cache_map (resetConnectorState w) = ∅ /\
  (forall name,
     (getConnection name (resetConnectorState w)).1 = None /\
     (isConnected name (resetConnectorState w)).1 = false) /\
  shutdownHandlersRegistered (resetConnectorState w) = false /\
  (global_cache w = None -> global_cache (resetConnectorState w) = None).
Proof.
  unfold resetConnectorState.
  assert (cache_map (console_write LOG "[MongoConnector] Connector state reset"
            (with_shutdownHandlersRegistered false
               (with_global_cache
                  ((fun _ => {| connections := ∅; initialized := false |})
                     <$> global_cache w) w))) = ∅) as Hempty.
  { frame. unfold cache_map. simpl. by destruct (global_cache w). }
  split; [done|]. split; [done|]. split; [|split; [done|by intros ->]].
  intros name. rewrite getConnection_spec, isConnected_eq. cbn [fst].
  unfold record_state. rewrite connections_get_eq, Hempty, lookup_empty. simpl.
  split; [done|]. apply andb_false_r.
Qed.

End Cleanup.

Section Health.
Implicit Types (w : World) (name : string) (addr task h : nat) (cc : CachedConnection)
  (c : Connection) (e : Thrown) (ping : Pinger).

Lemma ready_connection_inv name w h :
  ready_connection name w = Some h ->
  exists addr cc c,
    connections_get name w = Some (addr, cc) /\ connection cc = Some h /\
    handles w !! h = Some c /\ readyState c = 1%Z.
Proof.
  unfold ready_connection.
  destruct (connections_get name w) as [[addr cc]|]; [|done].
  destruct (connection cc) as [h'|] eqn:Hc; [|done].
  destruct (handles w !! h') as [c|] eqn:Hh; [|done].
  destruct (Z.eqb_spec (readyState c) 1); [|done].
  intros [= ->]. by exists addr, cc, c.
Qed.

Lemma ready_connection_intro name w addr cc h c :
  connections_get name w = Some (addr, cc) -> connection cc = Some h ->
  handles w !! h = Some c -> readyState c = 1%Z ->
  ready_connection name w = Some h.
Proof. unfold ready_connection. by intros -> -> -> ->. Qed.

(** [healthCheck] in terms of the cached record. *)
Lemma healthCheck_eq ping name w :
  healthCheck ping name w
  = match connections_get name w with
    | Some (_, cc) =>
        match connection cc with
        | Some h =>
            if negb (bool_decide (readyState_of (Some h) w = Some 1%Z)) then
              ({| isHealthy := false; health_name := name;
                  health_state := state (info cc); latency := None; lastPing := None;
                  health_error :=
                    Some ("Connection not ready. ReadyState: "
                          ++ from_option pretty "undefined" (readyState_of (Some h) w)
                          ++ ", State: " ++ state_name (state (info cc))) |},
               (getGlobalCache w).2)
            else
              let w1 := with_clock (clock w + elapsed (ping h))
                                   (getGlobalCache w).2 in
              match ping_failure (ping h) with
              | None =>
                  ({| isHealthy := true; health_name := name;
                      health_state := state (info cc);
                      latency := Some (elapsed (ping h));
                      lastPing := Some (clock w + elapsed (ping h))%Z;
                      health_error := None |}, w1)
              | Some error =>
                  ({| isHealthy := false; health_name := name;
                      health_state := state (info cc); latency := None; lastPing := None;
                      health_error := Some (message_or_unknown error) |}, w1)
              end
        | None =>
            ({| isHealthy := false; health_name := name; health_state := DISCONNECTED;
                latency := None; lastPing := None;
                health_error :=
                  Some ("Connection '" ++ name ++ "' not found. Available connections: "
                        ++ names_or_none (map_to_list (cache_map w)).*1) |},
             (getGlobalCache w).2)
        end
    | None =>
        ({| isHealthy := false; health_name := name; health_state := DISCONNECTED;
            latency := None; lastPing := None;
            health_error :=
              Some ("Connection '" ++ name ++ "' not found. Available connections: "
                    ++ names_or_none (map_to_list (cache_map w)).*1) |},
         (getGlobalCache w).2)
    end.
Proof.
  unfold healthCheck. rewrite getConnection_spec, getConnectionInfo_spec.
  rewrite getGlobalCache_connections_get, !getGlobalCache_snd_idem.
  assert (forall h, readyState_of (Some h) (getGlobalCache w).2 = readyState_of (Some h) w)
    as Hready.
  { intros h. unfold readyState_of. by rewrite getGlobalCache_handles. }
  destruct (connections_get name w) as [[addr cc]|];
    cbn [mbind option_bind fmap option_fmap option_map snd fst].
  - destruct (connection cc) as [h|].
    + rewrite !Hready. case_bool_decide; cbn [negb]; [|done]. cbn zeta.
      rewrite getGlobalCache_clock.
      destruct (ping_failure (ping h)); [done|].
      cbn [clock with_clock].
      replace (clock w + elapsed (ping h) - clock w)%Z
        with (elapsed (ping h)) by lia.
      done.
    + destruct (getGlobalCache (getGlobalCache w).2) as [c1 w1] eqn:E1.
      assert (w1 = (getGlobalCache w).2) as ->
        by (rewrite <- (getGlobalCache_snd_idem w); by rewrite E1).
      assert (connections c1 = cache_map w) as ->; [|done].
      rewrite <- (getGlobalCache_cache_map w), <- (getGlobalCache_fst (getGlobalCache w).2).
      by rewrite E1.
  - destruct (getGlobalCache (getGlobalCache w).2) as [c1 w1] eqn:E1.
    assert (w1 = (getGlobalCache w).2) as ->
      by (rewrite <- (getGlobalCache_snd_idem w); by rewrite E1).
    assert (connections c1 = cache_map w) as ->; [|done].
    rewrite <- (getGlobalCache_cache_map w), <- (getGlobalCache_fst (getGlobalCache w).2).
    by rewrite E1.
Qed.

Lemma readyState_of_handle h w :
  readyState_of (Some h) w = Some 1%Z
  <-> exists c, handles w !! h = Some c /\ readyState c = 1%Z.
Proof.
  unfold readyState_of. simpl. destruct (handles w !! h) as [c|]; simpl.
  - split; [intros [= ?]; eauto|]. by intros (c' & [= <-] & ->).
  - split; [done|]. by intros (c' & ? & _).
Qed.

(** X8. [healthCheck] reports a connection healthy exactly when the name
    has a handle in ready state 1 and the probe of that handle succeeds.  The
    state recorded in the connection's info plays no part in the verdict. *)
Theorem healthCheck_healthy_iff ping name w :
  isHealthy (healthCheck ping name w).1 = true
  <-> exists h, ready_connection name w = Some h /\ ping_failure (ping h) = None.
Proof.
  rewrite healthCheck_eq. split.
  - destruct (connections_get name w) as [[addr cc]|] eqn:Hget; [|done].
    destruct (connection cc) as [h|] eqn:Hc; [|done].
    case_bool_decide as Hr; simpl; [|done].
    destruct (ping_failure (ping h)) eqn:Hp; [done|]. intros _.
    apply readyState_of_handle in Hr as (c & Hh & H1).
    exists h. split; [|done]. by eapply ready_connection_intro.
  - intros (h & Hr & Hp).
    apply ready_connection_inv in Hr as (addr & cc & c & -> & -> & Hh & H1).
    rewrite bool_decide_eq_true_2 by (apply readyState_of_handle; eauto).
    simpl. by rewrite Hp.
Qed.

(** X9. A healthy verdict carries as its latency the difference between
    [Date.now()] after the probe and before it, whatever its sign, and as
    [lastPing] the time after the probe; it has no error and repeats the state
    of the connection's info, whatever that state is. *)
Theorem healthCheck_healthy_report ping name w :
  isHealthy (healthCheck ping name w).1 = true ->
  exists h,
    ready_connection name w = Some h /\
    latency (healthCheck ping name w).1 = Some (elapsed (ping h)) /\
    lastPing (healthCheck ping name w).1 = Some (clock (healthCheck ping name w).2) /\
    clock (healthCheck ping name w).2 = (clock w + elapsed (ping h))%Z /\
    Some (health_state (healthCheck ping name w).1) = record_state name w /\
    health_error (healthCheck ping name w).1 = None.
Proof.
  rewrite healthCheck_eq. unfold record_state.
  destruct (connections_get name w) as [[addr cc]|] eqn:Hget; [|done].
  destruct (connection cc) as [h|] eqn:Hc; [|done].
  case_bool_decide as Hr; simpl; [|done].
  destruct (ping_failure (ping h)) eqn:Hp; [done|]. intros _.
  apply readyState_of_handle in Hr as (c & Hh & H1).
  exists h. split; [by eapply ready_connection_intro|]. by repeat split.
Qed.

(** X10. When the name has no handle in ready state 1, [healthCheck] does
    not probe: the verdict is unhealthy with an explanation, it does not
    depend on what a probe would answer, and no time passes. *)
Theorem healthCheck_without_probe ping ping' name w :
  ready_connection name w = None ->
  healthCheck ping name w = healthCheck ping' name w /\
  isHealthy (healthCheck ping name w).1 = false /\
  is_Some (health_error (healthCheck ping name w).1) /\
  latency (healthCheck ping name w).1 = None /\
  clock (healthCheck ping name w).2 = clock w.
Proof.
  intros Hnone. rewrite !healthCheck_eq.
  destruct (connections_get name w) as [[addr cc]|] eqn:Hget;
    [|simpl; rewrite getGlobalCache_clock; by eauto 10].
  destruct (connection cc) as [h|] eqn:Hc;
    [|simpl; rewrite getGlobalCache_clock; by eauto 10].
  rewrite bool_decide_eq_false_2.
  - simpl. rewrite getGlobalCache_clock; by eauto 10.
  - intros (c & Hh & H1)%readyState_of_handle.
    by rewrite (ready_connection_intro name w addr cc h c) in Hnone.
Qed.

(** X11. While a connection is being established its record has no handle
    yet, and [healthCheck] then answers as for an unknown name: state
    [DISCONNECTED], whatever the record's info says, and a [not found] message
    whose list of available connections contains that very name. *)
Theorem healthCheck_while_connecting ping name w addr cc :
  connections_get name w = Some (addr, cc) ->
  connection cc = None ->
  health_state (healthCheck ping name w).1 = DISCONNECTED /\
  exists names,
    name ∈ names /\
    health_error (healthCheck ping name w).1
    = Some ("Connection '" ++ name ++ "' not found. Available connections: "
            ++ names_or_none names).
Proof.
  intros Hget Hc. rewrite healthCheck_eq, Hget, Hc. simpl. split; [done|].
  exists (map_to_list (cache_map w)).*1. split; [|done].
  apply names_of_map. rewrite connections_get_eq in Hget.
  destruct (cache_map w !! name); [eauto|done].
Qed.

(** X12. [isConnectedWithVerification] gives the verdict of [isConnected];
    a positive verdict comes with an existing handle, ready state 1 and the
    state name [connected]; without a handle the ready state reported is 0,
    and without a record the state name reported is [unknown]. *)
Theorem isConnectedWithVerification_agrees name w :
  let v := (isConnectedWithVerification name w).1 in
  verified_isConnected v = (isConnected name w).1 /\
  (verified_isConnected v = true ->
   connectionExists v = true /\ verified_readyState v = 1%Z /\
   verified_connectionState v = "connected") /\
  (connectionExists v = false -> verified_readyState v = 0%Z) /\
  (connections_get name w = None -> verified_connectionState v = "unknown") /\
  (isConnectedWithVerification name w).2 = (isConnected name w).2.
Proof.
  unfold isConnectedWithVerification, isConnected.
  rewrite getConnection_spec, getConnectionInfo_spec.
  rewrite getGlobalCache_connections_get, !getGlobalCache_snd_idem. cbn [fst snd].
  set (connection := connections_get name w ≫= _).
  set (st := state <$> _).
  set (rs := readyState_of connection _).
  cbn zeta. cbn [verified_isConnected verified_readyState verified_connectionState
                 connectionExists].
  split; [|split; [|split; [|split]]].
  - destruct (bool_decide (rs = Some 1%Z)); simpl; done.
  - intros [Hrs Hst]%andb_true_iff.
    apply bool_decide_eq_true in Hrs. apply bool_decide_eq_true in Hst.
    rewrite Hrs. simpl. split; [|split; [done|]].
    + apply bool_decide_eq_true. subst rs. unfold readyState_of in Hrs.
      destruct connection; [eauto|done].
    + subst st. destruct (connections_get name w) as [[a cc]|]; [|done]. simpl in *.
      by injection Hst as ->.
  - intros Hno. apply bool_decide_eq_false in Hno.
    subst rs. destruct connection; [by destruct Hno; eauto|done].
  - by intros ->.
  - by destruct (bool_decide (rs = Some 1%Z)).
Qed.

End Health.

Section PoolStats.
Implicit Types (w : World).

Lemma filter_length_le {A} (p : A -> bool) (l : list A) :
  (length (List.filter p l) <= length l)%nat.
Proof. induction l as [|x l IH]; simpl; [lia|]. destruct (p x); simpl; lia. Qed.

Lemma filter_disjoint_length {A} (p q : A -> bool) (l : list A) :
  (forall x, p x = true -> q x = true -> False) ->
  (length (List.filter p l) + length (List.filter q l) <= length l)%nat.
Proof.
  intros Hdisj. induction l as [|x l IH]; simpl; [lia|].
  destruct (p x) eqn:Hp, (q x) eqn:Hq; simpl; try lia.
  destruct (Hdisj x Hp Hq).
Qed.

Lemma omap_length_le {A B} (f : A -> option B) (l : list A) :
  (length (omap f l) <= length l)%nat.
Proof. induction l as [|x l IH]; csimpl; [lia|]. destruct (f x); simpl; lia. Qed.

(** X13. The counts of [getPoolStats()] are bounded by the number of
    cached connections: the active ones are at most the total, and so are the
    pending and the failed ones together; there is one name per connection. *)
Theorem getPoolStats_counts_bounded w :
  let stats := (getPoolStats w).1 in
  (activeConnections stats <= totalConnections stats)%nat /\
  (pendingConnections stats + failedConnections stats <= totalConnections stats)%nat /\
  length (connectionNames stats) = totalConnections stats /\
  NoDup (connectionNames stats).
Proof.
  unfold getPoolStats. destruct (getGlobalCache w) as [c w0]. cbn.
  set (entries := map_to_list (connections c)).
  set (values := omap _ entries).
  pose proof (omap_length_le (fun entry : string * nat => objects w0 !! entry.2) entries)
    as Hvalues. fold values in Hvalues.
  split; [|split; [|split]].
  - pose proof (filter_length_le (is_active w0) values). lia.
  - pose proof (filter_disjoint_length (in_state CONNECTING) (in_state ERROR) values) as Hd.
    etrans; [apply Hd|done]. unfold in_state. intros x Hp Hq.
    apply bool_decide_eq_true in Hp. apply bool_decide_eq_true in Hq. congruence.
  - apply length_fmap.
  - apply NoDup_fst_map_to_list.
Qed.

End PoolStats.

(** * Further properties: the retry loop and the life of a connection *)

Section RetryTiming.
Implicit Types (w : World) (name : string) (addr task h : nat) (cc : CachedConnection)
  (c : Connection) (e : Thrown) (driver : Driver) (opts : MongoConnectionOptions)
  (cbs : Callbacks) (budget : JsNumber).

Lemma dial_ready driver k t c : dial driver k t = Normal c -> readyState c = 1%Z.
Proof.
  unfold dial. destruct (driver k) as [e|c0 r]; [done|].
  destruct (waitForConnectionReady r t); [|done]. by intros [= <-].
Qed.

Lemma identical_below j k budget :
  (j < k)%Z -> (k <= whole_part budget)%Z -> identical j budget = false.
Proof. destruct budget as [n|below text]; [|done]. simpl. lia. Qed.

Lemma new_handle_keeps c w h0 c0 :
  handles w !! h0 = Some c0 -> handles (new_handle c w).2 !! h0 = Some c0.
Proof.
  intros Hh. unfold new_handle. cbn [snd]. frame. rewrite lookup_insert_ne; [done|].
  intros <-. pose proof (is_fresh (dom (handles w))) as Hfresh.
  apply not_elem_of_dom in Hfresh. congruence.
Qed.

Lemma abandoned_keeps driver attempt w h0 c0 :
  handles w !! h0 = Some c0 -> handles (abandoned driver attempt w) !! h0 = Some c0.
Proof. unfold abandoned. case_match; [done|]. apply new_handle_keeps. Qed.

Lemma abandoned_new driver attempt w h :
  handles (abandoned driver attempt w) !! h = None -> handles w !! h = None.
Proof.
  intros Hnone. destruct (handles w !! h) as [c0|] eqn:Hh; [|done].
  by rewrite (abandoned_keeps driver attempt w h c0 Hh) in Hnone.
Qed.



(** The loop when attempt [k] is the first that succeeds. *)
Lemma retry_loop_succeeds (errs : Z -> Thrown) driver opts cbs addr budget
    (retryDelay connectionTimeout k : Z) c :
  dial driver k connectionTimeout = Normal c ->
  forall (remaining : nat) (attempt : Z) w,
    (attempt <= k <= whole_part budget)%Z ->
    (k - attempt < Z.of_nat remaining)%Z ->
    (forall j, (attempt <= j < k)%Z -> dial driver j connectionTimeout = Throw (errs j)) ->
    exists w' h,
      retry_loop remaining attempt budget retryDelay connectionTimeout
                 driver opts addr cbs w
      = (w', Normal h) /\
      handles w !! h = None /\
      handles w' !! h = Some (setupConnectionEvents c) /\
      tasks w' = tasks w /\ global_cache w' = global_cache w /\
      NODE_ENV w' = NODE_ENV w /\
      clock w' = (clock w + (k - attempt) * Z.max 0 retryDelay)%Z /\
      (forall a, a <> addr -> objects w' !! a = objects w !! a) /\
      (forall cc, objects w !! addr = Some cc ->
         objects w' !! addr
         = Some (mkCached (connection cc) (promise cc)
                   (connected_info (connectionName (info cc)) (clock w') c
                      (if (attempt <? k)%Z then Some (errs (k - 1)%Z)
                       else lastError (info cc)) k)
                   (cc_options cc) (cc_callbacks cc))).
Proof.
  intros Hdial.
  induction remaining as [|remaining IH]; intros attempt w Hk Hrem Hfail; [lia|].
  cbn [retry_loop].
  destruct (decide (attempt = k)) as [->|Hne].
  - rewrite Hdial. unfold new_handle. cbn [fst snd]. through_logs.
    eexists _, _. split; [reflexivity|].
    through_logs.
    split; [apply not_elem_of_dom, is_fresh|].
    split; [apply lookup_insert_eq|].
    repeat split; try done.
    + lia.
    + intros a Ha. by rewrite !lookup_alter_ne.
    + intros cc Hcc. rewrite !lookup_alter_eq, Hcc. simpl.
      by rewrite Z.ltb_irrefl.
  - rewrite (Hfail attempt) by lia.
    rewrite (identical_below attempt k budget) by lia.
    match goal with
    | |- context [retry_loop remaining _ _ _ _ _ _ _ _ ?w0] =>
        destruct (IH (attempt + 1)%Z w0)
          as (w' & h & Hrun & Hnew & Hh & Ht & Hg & He & Hclk & Hother & Hrec);
        [lia|lia|intros; apply Hfail; lia|]
    end.
    unfold sleep in *. revert Hrun Hnew Hh Ht Hg He Hclk Hother Hrec. through_logs.
    intros Hrun Hnew Hh Ht Hg He Hclk Hother Hrec.
    exists w', h. split; [exact Hrun|].
    split; [by apply abandoned_new in Hnew; rewrite debug_write_handles in Hnew|].
    split; [done|].
    repeat split; try done.
    + lia.
    + intros a Ha. rewrite Hother by done. by rewrite lookup_alter_ne.
    + intros cc Hcc.
      rewrite (Hrec (mkCached (connection cc) (promise cc)
                       (set_failure (errs attempt) attempt (info cc))
                       (cc_options cc) (cc_callbacks cc)))
        by (by rewrite lookup_alter_eq, Hcc).
      cbn [connection promise info cc_options cc_callbacks set_failure connectionName
           lastError].
      assert ((attempt <? k)%Z = true) as -> by lia.
      destruct (Z.ltb_spec (attempt + 1) k) as [_|Hge]; [done|].
      replace (k - 1)%Z with attempt by lia. done.
Qed.




End RetryTiming.

Section ConnectLife.
Context `{Platform}.
Implicit Types (w : World) (name uri : string) (addr task h : nat) (cc : CachedConnection)
  (c : Connection) (opts : MongoConnectionOptions) (cbs : Callbacks) (driver : Driver).

Lemma at_lookup_clock line on w : clock (at_lookup line on w) = clock w.
Proof.
  unfold at_lookup, registerShutdownHandlers.
  destruct (shutdownHandlersRegistered _); frame;
    by rewrite getGlobalCache_clock, debug_write_clock.
Qed.

Lemma update_connections_clock f w : clock (update_connections f w) = clock w.
Proof. unfold update_connections. by destruct (global_cache w). Qed.

Lemma update_connections_is_Some f w :
  is_Some (global_cache w) -> is_Some (global_cache (update_connections f w)).
Proof. unfold update_connections. intros [g ->]. simpl. eauto. Qed.

Lemma settle_clock task s w : clock (settle task s w) = clock w.
Proof. unfold settle. by repeat case_match. Qed.

Lemma settle_global_cache task s w : global_cache (settle task s w) = global_cache w.
Proof. unfold settle. by repeat case_match. Qed.

(** The process after a call of [connect] that found no record and whose
    attempt [k] was the first to succeed. *)
Lemma connect_first_success (errs : Z -> Thrown) driver uri opts cbs (k : Z) c w :
  passes_validation (NODE_ENV w) uri opts ->
  connections_get (name_or_default (opt_connectionName opts)) w = None ->
  (1 <= k <= whole_part (number_or_default (maxRetries opts)
                                           SECURITY_CONFIG.MAX_RETRIES))%Z ->
  (forall j, (1 <= j < k)%Z ->
     dial driver j (or_default (connectionTimeout opts) SECURITY_CONFIG.DEFAULT_TIMEOUT)
     = Throw (errs j)) ->
  dial driver k (or_default (connectionTimeout opts) SECURITY_CONFIG.DEFAULT_TIMEOUT)
  = Normal c ->
  exists w' addr task h,
    connect driver uri opts cbs w = (w', Resolves h) /\
    is_Some (global_cache w') /\
    cache_map w' = <[name_or_default (opt_connectionName opts) := addr]> (cache_map w) /\
    objects w' !! addr
    = Some (mkCached (Some h) task
              (connected_info (name_or_default (opt_connectionName opts)) (clock w')
                 (setupConnectionEvents c)
                 (if (1 <? k)%Z then Some (errs (k - 1)%Z) else None) k)
              opts cbs) /\
    handles w !! h = None /\
    handles w' !! h = Some (setupConnectionEvents c) /\
    clock w'
    = (clock w + (k - 1) * Z.max 0 (or_default (retryDelay opts)
                                              SECURITY_CONFIG.RETRY_DELAY))%Z /\
    NODE_ENV w' = NODE_ENV w.
Proof.
  intros Hvalid Hmiss Hk Hfail Hdial.
  set (name := name_or_default (opt_connectionName opts)) in *.
  destruct (connect_begin_lookup uri opts cbs w Hvalid) as (line & on & Hbegin).
  unfold connect. rewrite Hbegin. cbn zeta. fold name.
  rewrite at_lookup_connections_get, Hmiss.
  destruct (at_lookup_frame line on w) as (Hc0 & Ho0 & Ht0 & Hh0 & He0 & Hsome0).
  pose proof (at_lookup_clock line on w) as Hclk0.
  set (w0 := at_lookup line on w) in *.
  set (task := fresh (dom (tasks w0))).
  set (addr := fresh (dom (objects w0))).
  set (record := mkCached None task _ opts cbs).
  set (w1 := update_connections _ _).
  assert (tasks w1 !! task = Some Pending) as Htask.
  { subst w1. rewrite update_connections_tasks. frame. apply lookup_insert_eq. }
  assert (objects w1 !! addr = Some record) as Hrecord.
  { subst w1. rewrite update_connections_objects. frame. apply lookup_insert_eq. }
  assert (handles w1 = handles w) as Hh1.
  { subst w1. rewrite update_connections_handles. by frame. }
  assert (clock w1 = clock w) as Hclk1.
  { subst w1. rewrite update_connections_clock. by frame. }
  assert (cache_map w1 = <[name := addr]> (cache_map w)) as Hc1.
  { subst w1. rewrite update_connections_cache_map by done. frame. by rewrite Hc0. }
  assert (NODE_ENV w1 = NODE_ENV w) as He1.
  { subst w1. rewrite update_connections_NODE_ENV. by frame. }
  assert (is_Some (global_cache w1)) as Hsome1.
  { subst w1. by apply update_connections_is_Some. }
  destruct (retry_loop_succeeds errs driver opts cbs addr
              (number_or_default (maxRetries opts) SECURITY_CONFIG.MAX_RETRIES)
              (or_default (retryDelay opts) SECURITY_CONFIG.RETRY_DELAY)
              (or_default (connectionTimeout opts) SECURITY_CONFIG.DEFAULT_TIMEOUT)
              k c Hdial
              (Z.to_nat (whole_part (number_or_default (maxRetries opts)
                                       SECURITY_CONFIG.MAX_RETRIES))) 1%Z w1)
    as (w2 & h & Hrun & Hnew & Hh2 & Ht2 & Hg2 & He2 & Hclk2 & _ & Hrec);
    [lia|lia|done|].
  rewrite Hh1 in Hnew.
  unfold run_establishment, connectWithRetry. rewrite Hrun.
  unfold connect_resume. rewrite settle_pending by (by rewrite Ht2).
  assert (handles (update_object addr (set_connection h) (settle task (Fulfilled h) w2))
            !! h = Some (setupConnectionEvents c)) as ->.
  { frame. by rewrite settle_handles, Hh2. }
  eexists _, addr, task, h. split; [reflexivity|].
  frame. rewrite !settle_cache_map, !settle_objects, !settle_handles, !settle_clock,
    !settle_NODE_ENV, !settle_global_cache.
  split; [by rewrite Hg2|].
  split; [unfold cache_map in *; by rewrite Hg2|].
  split; [|split; [done|split; [done|split; [lia|congruence]]]].
  rewrite !lookup_alter_eq, (Hrec record Hrecord). simpl. done.
Qed.

Lemma connections_get_intro name w addr cc :
  cache_map w !! name = Some addr -> objects w !! addr = Some cc ->
  connections_get name w = Some (addr, cc).
Proof. intros Hn Ho. by rewrite connections_get_eq, Hn; simpl; rewrite Ho. Qed.

Lemma getGlobalCache_id w : is_Some (global_cache w) -> (getGlobalCache w).2 = w.
Proof. intros [g Hg]. unfold getGlobalCache. by rewrite Hg. Qed.

(** X16. Round trip of [connect] and the queries.  When a call of
    [connect] finds no record under its name and attempt [k] is the first to
    succeed, the call resolves with a new handle, and right afterwards
    [getConnection] returns that handle under the name, [isConnected] is true,
    the exported [getConnection] returns the handle instead of throwing, and
    [getConnectionInfo] says [CONNECTED] with [retryCount] [k - 1] and the
    handle's host and database. *)
Theorem connect_then_queries (errs : Z -> Thrown) driver uri opts cbs (k : Z) c w :
  passes_validation (NODE_ENV w) uri opts ->
  connections_get (name_or_default (opt_connectionName opts)) w = None ->
  (1 <= k <= whole_part (number_or_default (maxRetries opts)
                                           SECURITY_CONFIG.MAX_RETRIES))%Z ->
  (forall j, (1 <= j < k)%Z ->
     dial driver j (or_default (connectionTimeout opts) SECURITY_CONFIG.DEFAULT_TIMEOUT)
     = Throw (errs j)) ->
  dial driver k (or_default (connectionTimeout opts) SECURITY_CONFIG.DEFAULT_TIMEOUT)
  = Normal c ->
  exists w' h,
    connect driver uri opts cbs w = (w', Resolves h) /\
    handles w !! h = None /\
    getConnection (name_or_default (opt_connectionName opts)) w' = (Some h, w') /\
    isConnected (name_or_default (opt_connectionName opts)) w' = (true, w') /\
    Index.getConnection (Some (name_or_default (opt_connectionName opts))) w'
    = (w', Normal h) /\
    getConnectionInfo (name_or_default (opt_connectionName opts)) w'
    = (Some (connected_info (name_or_default (opt_connectionName opts)) (clock w')
               (setupConnectionEvents c)
               (if (1 <? k)%Z then Some (errs (k - 1)%Z) else None) k), w').
Proof.
  intros Hvalid Hmiss Hk Hfail Hdial.
  destruct (connect_first_success errs driver uri opts cbs k c w Hvalid Hmiss Hk Hfail Hdial)
    as (w' & addr & task & h & Hconnect & Hsome & Hmap & Hobj & Hnew & Hh & _ & _).
  set (name := name_or_default (opt_connectionName opts)) in *.
  assert (connections_get name w' = Some (addr, mkCached (Some h) task
            (connected_info name (clock w') (setupConnectionEvents c)
               (if (1 <? k)%Z then Some (errs (k - 1)%Z) else None) k) opts cbs)) as Hget.
  { apply connections_get_intro; [by rewrite Hmap, lookup_insert_eq|done]. }
  assert (ready_connection name w' = Some h) as Hready.
  { eapply ready_connection_intro; [done|done|exact Hh|].
    simpl. by apply dial_ready in Hdial. }
  exists w', h. split; [done|]. split; [done|].
  assert (getConnection name w' = (Some h, w')) as Hgc.
  { by rewrite getConnection_spec, Hget, getGlobalCache_id. }
  split; [done|]. split; [|split].
  - rewrite isConnected_eq, Hready, getGlobalCache_id by done.
    unfold record_state. rewrite Hget.
    rewrite (bool_decide_eq_true_2 (is_Some (Some h))) by eauto.
    by rewrite bool_decide_eq_true_2.
  - unfold Index.getConnection. simpl. by rewrite Hgc.
  - by rewrite getConnectionInfo_spec, Hget, getGlobalCache_id.
Qed.

(** X17. Round trip of [connect] and [closeConnection].  When the name
    was not in the Map, the call of [connect] resolved as above, and the
    handle closes without throwing, [closeConnection] brings the Map back to
    what it was before [connect]: the name has no record, no info and no
    connection, and the handle is left in ready state 0. *)
Theorem connect_then_close (errs : Z -> Thrown) driver uri opts cbs (k : Z) c w :
  passes_validation (NODE_ENV w) uri opts ->
  cache_map w !! name_or_default (opt_connectionName opts) = None ->
  (1 <= k <= whole_part (number_or_default (maxRetries opts)
                                           SECURITY_CONFIG.MAX_RETRIES))%Z ->
  (forall j, (1 <= j < k)%Z ->
     dial driver j (or_default (connectionTimeout opts) SECURITY_CONFIG.DEFAULT_TIMEOUT)
     = Throw (errs j)) ->
  dial driver k (or_default (connectionTimeout opts) SECURITY_CONFIG.DEFAULT_TIMEOUT)
  = Normal c ->
  close_failure c = None ->
  exists w' h,
    connect driver uri opts cbs w = (w', Resolves h) /\
    let w'' := (closeConnection (name_or_default (opt_connectionName opts)) w').1 in
    cache_map w'' = cache_map w /\
    (getConnection (name_or_default (opt_connectionName opts)) w'').1 = None /\
    (getConnectionInfo (name_or_default (opt_connectionName opts)) w'').1 = None /\
    (readyState <$> handles w'' !! h) = Some 0%Z /\
    totalConnections (getPoolStats w'').1 = totalConnections (getPoolStats w).1.
Proof.
  intros Hvalid Hmiss Hk Hfail Hdial Hclose.
  assert (connections_get (name_or_default (opt_connectionName opts)) w = None) as Hmiss'.
  { by rewrite connections_get_eq, Hmiss. }
  destruct (connect_first_success errs driver uri opts cbs k c w Hvalid Hmiss' Hk Hfail Hdial)
    as (w' & addr & task & h & Hconnect & Hsome & Hmap & Hobj & _ & Hh & _ & _).
  set (name := name_or_default (opt_connectionName opts)) in *.
  exists w', h. split; [done|]. cbn zeta.
  destruct (closeConnection_cases name w') as (_ & _ & _ & _ & Hcases).
  rewrite (connections_get_intro name w' addr _) in Hcases
    by (by rewrite ?Hmap, ?lookup_insert_eq).
  destruct Hcases as [_ Hcases]. cbn [connection mbind option_bind] in Hcases.
  rewrite Hh in Hcases. cbn in Hcases. rewrite Hclose in Hcases.
  destruct Hcases as (Hmap'' & Hh'' & _).
  assert (cache_map (closeConnection name w').1 = cache_map w) as Hback.
  { rewrite Hmap'', Hmap. by apply delete_insert_id. }
  split; [done|].
  assert (connections_get name (closeConnection name w').1 = None) as Hgone.
  { by rewrite connections_get_eq, Hback, Hmiss. }
  rewrite getConnection_spec, getConnectionInfo_spec, Hgone. cbn [fst].
  split; [done|]. split; [done|]. split.
  - by rewrite Hh'', lookup_insert_eq.
  - by rewrite !getPoolStats_total, Hback.
Qed.

End ConnectLife.

(** * Further properties: validation *)

Section ValidatorMore.
Context `{Platform}.
Implicit Types (r : SecurityValidation) (uri : string) (url : URL)
  (env : option string) (allowed : option (list string)).

Lemma validate_parsed_valid_iff env uri allowed url :
  isValid (validate_parsed env uri allowed url fresh_result) = true
  <-> acceptable uri allowed url.
Proof.
  unfold acceptable. split.
  - intros Hv.
    assert (isValid (validate_parsed env uri allowed url fresh_result) = false -> False)
      as Hcontra by congruence.
    split; [|split; [|split; [|split; [|split]]]].
    + destruct (existsb _ SECURITY_CONFIG.ALLOWED_PROTOCOLS) eqn:Hp; [done|].
      exfalso. apply Hcontra. unfold validate_parsed.
      apply tail_sticky, warnings_sticky, check_suspicious_sticky,
        check_host_whitelist_sticky.
      unfold check_protocol. by rewrite Hp.
    + destruct allowed as [[|a hosts]|]; [auto|right; right|auto].
      exists (a :: hosts). split; [done|].
      destruct (isAllowed (hostname url) (a :: hosts)) eqn:Ha; [done|].
      exfalso. apply Hcontra. unfold validate_parsed.
      apply tail_sticky, warnings_sticky, check_suspicious_sticky.
      unfold check_host_whitelist. by rewrite Ha.
    + destruct (includes "javascript:" uri) eqn:Hj; [|done].
      exfalso. apply Hcontra. unfold validate_parsed. apply tail_sticky, warnings_sticky.
      unfold check_suspicious. by rewrite Hj.
    + destruct (includes "data:" uri) eqn:Hd; [|done].
      exfalso. apply Hcontra. unfold validate_parsed. apply tail_sticky, warnings_sticky.
      unfold check_suspicious. by rewrite Hd, orb_true_r.
    + destruct (placeholder_hostname url) eqn:Hph; [|done].
      exfalso. apply Hcontra. unfold validate_parsed. by rewrite Hph.
    + destruct (degenerate_path url) eqn:Hdp; [|done].
      exfalso. apply Hcontra. unfold validate_parsed. rewrite Hdp. by case_match.
  - intros (Hp & Hallow & Hj & Hd & Hph & Hdp).
    unfold validate_parsed. rewrite Hph, Hdp.
    unfold check_protocol, check_suspicious. rewrite Hp, Hj, Hd. cbn [negb orb].
    assert (check_host_whitelist url allowed fresh_result = fresh_result) as ->.
    { unfold check_host_whitelist.
      destruct Hallow as [->|[->|(hosts & -> & Ha)]]; [done|done|].
      destruct hosts; [done|]. by rewrite Ha. }
    unfold warn_credentials, warn_localhost. by repeat case_match.
Qed.

(** X18. [validateURI] accepts a target exactly when the checks before
    parsing all pass, the target parses, its scheme is [mongodb] or
    [mongodb+srv], its host matches the allow-list when a non-empty one is
    given, it contains neither [javascript:] nor [data:], and it is neither a
    placeholder host without a path nor a bare host followed by [/]. *)
Theorem validateURI_accepts_iff env uri allowed :
  (exists r, validateURI env uri allowed = Normal r /\ isValid r = true)
  <-> first_failure structural_checks uri = None /\
      exists url, new_URL uri = Normal url /\ acceptable uri allowed url.
Proof.
  destruct (validateURI_cases env uri allowed)
    as [(msg & Hf & ->)|[(e & Hf & Hu & ->)|(url & Hf & Hu & ->)]].
  - split; [by intros (r & [= <-] & ?)|]. rewrite Hf. by intros [? _].
  - split; [by intros (r & [= <-] & ?)|]. rewrite Hu. by intros (_ & url & ? & _).
  - split.
    + intros (r & [= <-] & Hv). split; [done|]. exists url. split; [done|].
      by apply validate_parsed_valid_iff in Hv.
    + intros (_ & url' & Hu' & Hacc). rewrite Hu in Hu'. injection Hu' as <-.
      eexists. split; [reflexivity|]. by apply validate_parsed_valid_iff.
Qed.

Lemma validate_parsed_errors_mode env env' uri allowed url r :
  errors (validate_parsed env uri allowed url r)
  = errors (validate_parsed env' uri allowed url r) /\
  isValid (validate_parsed env uri allowed url r)
  = isValid (validate_parsed env' uri allowed url r).
Proof.
  unfold validate_parsed, warn_localhost, warn_credentials.
  by repeat case_match.
Qed.

(** X19. The execution mode has no part in the verdict of [validateURI]:
    for any two modes the results are valid or invalid together and carry the
    same errors; only the warnings can differ. *)
Theorem validateURI_verdict_ignores_mode env env' uri allowed :
  exists r r',
    validateURI env uri allowed = Normal r /\
    validateURI env' uri allowed = Normal r' /\
    isValid r = isValid r' /\ errors r = errors r'.
Proof.
  unfold validateURI.
  destruct (first_failure structural_checks uri) as [msg|]; [by eexists _, _|].
  destruct (new_URL uri) as [url|e]; [|by eexists _, _].
  eexists _, _. split; [reflexivity|]. split; [reflexivity|].
  destruct (validate_parsed_errors_mode env env' uri allowed url fresh_result). done.
Qed.

End ValidatorMore.

Section ConnectRefusal.
Context `{Platform}.
Implicit Types (w : World) (name uri : string) (opts : MongoConnectionOptions)
  (cbs : Callbacks) (driver : Driver).

Lemma debug_write_frame on level line w :
  global_cache (debug_write on level line w) = global_cache w /\
  shutdownHandlersRegistered (debug_write on level line w) = shutdownHandlersRegistered w /\
  objects (debug_write on level line w) = objects w /\
  handles (debug_write on level line w) = handles w /\
  tasks (debug_write on level line w) = tasks w /\
  clock (debug_write on level line w) = clock w.
Proof. by destruct on. Qed.

(** X20. A call of [connect] whose target or options fail validation is
    rejected before anything is set up: the error is [Security validation
    failed] or [Options validation failed] followed by the errors, and the
    cache object, the shutdown handlers, the records, the handles and the
    promises are what they were (the cache object is not even created). *)
Theorem connect_refused_before_setup driver uri opts cbs w :
  ~ passes_validation (NODE_ENV w) uri opts ->
  exists errs w',
    errs <> [] /\
    (connect driver uri opts cbs w
     = (w', RejectsWith (ErrorInstance ("Security validation failed: "
                                        ++ join ", " errs))) \/
     connect driver uri opts cbs w
     = (w', RejectsWith (ErrorInstance ("Options validation failed: "
                                        ++ join ", " errs)))) /\
    global_cache w' = global_cache w /\
    shutdownHandlersRegistered w' = shutdownHandlersRegistered w /\
    objects w' = objects w /\ handles w' = handles w /\ tasks w' = tasks w /\
    clock w' = clock w.
Proof.
  intros Hnot. unfold connect, connect_begin.
  destruct (validateURI_consistent (NODE_ENV w) uri (allowedHosts opts)) as (rv & Hrv & Hcons).
  rewrite Hrv.
  destruct (isValid rv) eqn:Hvalid; cbn [negb].
  - rewrite debug_write_NODE_ENV.
    destruct (isValid (validateOptions (NODE_ENV w) (default no_options (options opts))))
      eqn:Hopts; cbn [negb].
    { destruct Hnot. split; [eauto|done]. }
    eexists _, _. split; [|split; [right; reflexivity|apply debug_write_frame]].
    intros Hnil. apply validateOptions_isValid in Hnil. congruence.
  - eexists _, _. split; [|split; [left; reflexivity|done]].
    intros Hnil. apply Hcons in Hnil. congruence.
Qed.

End ConnectRefusal.

(** * Further properties: targets taken from the environment *)

Section Environment.
Context `{Platform}.
Implicit Types (w : World) (name uri : string) (opts : MongoConnectionOptions)
  (cbs : Callbacks) (driver : Driver) (env : ProcessEnv) (fb : option string).

Lemma or_string_cases (a b : option string) :
  (exists s, a = Some s /\ s <> "" /\ or_string a b = Some s) \/
  (is_falsy a = true /\ or_string a b = b).
Proof.
  destruct a as [s|]; [|by right]. simpl.
  destruct (String.eqb_spec s ""); [by right|left; eauto].
Qed.

Lemma is_falsy_false (a : option string) :
  is_falsy a = false <-> exists s, a = Some s /\ s <> "".
Proof.
  destruct a as [s|]; simpl.
  - destruct (String.eqb_spec s ""); split; try done.
    + by intros (s' & [= <-] & ?).
    + eauto.
  - split; [done|]. by intros (? & ? & _).
Qed.


(** X21. Whatever [getMongoUri] returns has passed [validateURI], is not
    empty, and is the first of [MONGODB_URI], [MONGO_URI], [DATABASE_URL] and
    the fallback that is set to a non-empty string: a later source is used
    only when every earlier one is unset or empty.  The call changes nothing
    but the console. *)
Theorem getMongoUri_returns_first_valid env fb w w' uri :
  getMongoUri env fb w = (w', Normal uri) ->
  uri <> "" /\
  (exists rv, validateURI (NODE_ENV w) uri None = Normal rv /\ isValid rv = true) /\
  (MONGODB_URI env = Some uri \/
   is_falsy (MONGODB_URI env) = true /\
   (MONGO_URI env = Some uri \/
    is_falsy (MONGO_URI env) = true /\
    (DATABASE_URL env = Some uri \/
     is_falsy (DATABASE_URL env) = true /\ fb = Some uri))) /\
  global_cache w' = global_cache w /\ objects w' = objects w /\
  handles w' = handles w /\ tasks w' = tasks w.
Proof.
  unfold getMongoUri.
  set (chosen := or_string _ _).
  destruct (is_falsy chosen) eqn:Hfalsy; [done|].
  apply is_falsy_false in Hfalsy as (u & Hu & Hne). rewrite Hu.
  change (default "" (Some u)) with u.
  destruct (validateURI (NODE_ENV w) u None) as [rv|e] eqn:Hrv; [|done].
  destruct (isValid rv) eqn:Hvalid; cbn [negb]; [|done].
  intros [= <- <-]. split; [done|]. split; [eauto|]. split.
  - subst chosen.
    destruct (or_string_cases (MONGODB_URI env)
                (or_string (MONGO_URI env) (or_string (DATABASE_URL env) fb)))
      as [(s & Hs & _ & Hor)|[Hf Hor]]; rewrite Hor in Hu; [left; congruence|right].
    split; [done|].
    destruct (or_string_cases (MONGO_URI env) (or_string (DATABASE_URL env) fb))
      as [(s & Hs & _ & Hor')|[Hf' Hor']]; rewrite Hor' in Hu; [left; congruence|right].
    split; [done|].
    destruct (or_string_cases (DATABASE_URL env) fb)
      as [(s & Hs & _ & Hor'')|[Hf'' Hor'']]; rewrite Hor'' in Hu; [left; congruence|right].
    done.
  - destruct (debug_write_frame (0 <? length (warnings rv))%nat WARN
                ("[MongoConnector] URI warnings: " ++ join "," (warnings rv)) w)
      as (? & _ & ? & ? & ? & _). done.
Qed.

(** X22. [quickConnect] never rejects with a bare error: whatever makes it
    fail, the missing or invalid target as well as the failure of [connect],
    the message of the rejection starts with [Quick connect failed: ]. *)
Theorem quickConnect_rejections_wrapped env driver connectionName quick w w' e :
  quickConnect env driver connectionName quick w = (w', RejectsWith e) ->
  exists reason, e = ErrorInstance ("Quick connect failed: " ++ reason).
Proof.
  unfold quickConnect.
  destruct (getMongoUri env None w) as [w0 [uri|e0]]; [|intros [= _ <-]; eauto].
  destruct (connect driver uri _ _ w0) as [w1 [h|e1|t]]; [done| |done].
  intros [= _ <-]. eauto.
Qed.

(** X23. The exported [connectMongo] takes its target from the argument,
    then from [MONGODB_URI], then from [MONGO_URI], and from nowhere else: when
    these three are unset or empty the call is rejected and the process is
    untouched, even though [DATABASE_URL] holds a target that [getMongoUri]
    returns. *)
Theorem connectMongo_ignores_DATABASE_URL env driver (given : option string)
    opts cbs w u :
  is_falsy given = true ->
  is_falsy (MONGODB_URI env) = true ->
  is_falsy (MONGO_URI env) = true ->
  Index.connectMongo env driver given opts cbs w
  = (w, RejectsWith (ErrorInstance "MongoDB URI is required. Provide it as parameter or set MONGODB_URI environment variable.")) /\
  (DATABASE_URL env = Some u -> u <> "" ->
   (exists rv, validateURI (NODE_ENV w) u None = Normal rv /\ isValid rv = true) ->
   (getMongoUri env None w).2 = Normal u).
Proof.
  intros Hu Hm1 Hm2. split.
  - unfold Index.connectMongo.
    destruct (or_string_cases given (or_string (MONGODB_URI env) (MONGO_URI env)))
      as [(s & Hs & Hne & _)|[_ ->]].
    { rewrite Hs in Hu. simpl in Hu. by apply String.eqb_eq in Hu. }
    destruct (or_string_cases (MONGODB_URI env) (MONGO_URI env))
      as [(s & Hs & Hne & _)|[_ ->]].
    { rewrite Hs in Hm1. simpl in Hm1. by apply String.eqb_eq in Hm1. }
    by rewrite Hm2.
  - intros Hd Hne (rv & Hrv & Hvalid). unfold getMongoUri.
    destruct (or_string_cases (MONGODB_URI env)
                (or_string (MONGO_URI env) (or_string (DATABASE_URL env) None)))
      as [(s & Hs & Hne' & _)|[_ ->]].
    { rewrite Hs in Hm1. simpl in Hm1. by apply String.eqb_eq in Hm1. }
    destruct (or_string_cases (MONGO_URI env) (or_string (DATABASE_URL env) None))
      as [(s & Hs & Hne' & _)|[_ ->]].
    { rewrite Hs in Hm2. simpl in Hm2. by apply String.eqb_eq in Hm2. }
    rewrite Hd. unfold or_string.
    destruct (String.eqb u "") eqn:E; [by apply String.eqb_eq in E|].
    cbn [is_falsy]. rewrite E. change (default "" (Some u)) with u.
    by rewrite Hrv, Hvalid.
Qed.

End Environment.

Section QuickConnect.
Context `{Platform}.
Implicit Types (w : World) (name uri : string) (opts : MongoConnectionOptions)
  (cbs : Callbacks) (driver : Driver) (env : ProcessEnv).



End QuickConnect.

(** * Further properties: several connections at once *)

Section MultiDb.
Context `{Platform}.
Implicit Types (w : World) (conns : list MultiDbConnection) (env : option string).

Lemma size_list_to_set_le (l : list string) :
  (size (list_to_set l : gset string) <= length l)%nat.
Proof.
  induction l as [|x l IH]; [by rewrite list_to_set_nil, size_empty|].
  rewrite list_to_set_cons, size_union_alt, size_singleton. cbn [length].
  assert (size (list_to_set l ∖ {[x]} : gset string) <= size (list_to_set l : gset string))%nat
    by (apply subseteq_size; intros y [? _]%elem_of_difference; done).
  lia.
Qed.

Lemma size_list_to_set_NoDup (l : list string) :
  length l = size (list_to_set l : gset string) <-> NoDup l.
Proof.
  split; [|intros Hnd; symmetry; by apply size_list_to_set].
  induction l as [|x l IH]; [constructor|].
  rewrite list_to_set_cons. cbn [length]. intros Hlen.
  pose proof (size_list_to_set_le l) as Hle.
  destruct (decide (x ∈ l)) as [Hin|Hnin].
  - exfalso.
    assert ({[x]} ∪ list_to_set l = (list_to_set l : gset string)) as Heq.
    { apply subseteq_union_1_L, singleton_subseteq_l, elem_of_list_to_set. done. }
    rewrite Heq in Hlen. lia.
  - constructor; [done|]. apply IH.
    rewrite size_union in Hlen
      by (apply disjoint_singleton_l; by rewrite elem_of_list_to_set).
    rewrite size_singleton in Hlen. lia.
Qed.

Lemma first_invalid_target_None env conns :
  first_invalid_target env conns = None <-> Forall (target_accepted env) conns.
Proof.
  induction conns as [|conn conns IH]; [by split|]. cbn [first_invalid_target].
  destruct (validateURI_consistent env (multi_uri conn) (multi_options conn ≫= allowedHosts))
    as (rv & Hrv & _).
  rewrite Hrv. destruct (isValid rv) eqn:Hvalid; cbn [negb].
  - rewrite IH. split.
    + intros Hall. constructor; [|done]. by exists rv.
    + by intros [_ ?]%Forall_cons.
  - split; [done|]. intros [(rv' & Hrv' & Hvalid') _]%Forall_cons.
    rewrite Hrv in Hrv'. congruence.
Qed.

Lemma start_each_names conns :
  forall w steps,
    (foldl (fun acc conn =>
              let '(w, step) :=
                connect_begin (multi_uri conn) (named_options conn)
                              (multi_callbacks conn) acc.1 in
              (w, (acc.2 ++ [(multi_name conn, step)])%list))
           (w, steps) conns).2.*1
    = (steps.*1 ++ (multi_name <$> conns))%list.
Proof.
  induction conns as [|conn conns IH]; intros w steps; cbn [foldl].
  - by rewrite app_nil_r.
  - cbn [fst snd].
    destruct (connect_begin _ _ _ w) as [w1 step]. rewrite IH.
    by rewrite fmap_app, <- app_assoc.
Qed.

(** X25. [connectMultiDb] starts connecting exactly when it was given at
    least one entry, the names of the entries are pairwise different, and
    every target passes [validateURI] with its entry's allow-list; it then
    starts one call of [connect] per entry, in order.  Otherwise it throws
    before any call of [connect], and the process is untouched. *)
Theorem connectMultiDb_starts_iff conns w :
  ((exists w' steps,
      connectMultiDb_begin conns w = (w', MultiStarted steps) /\
      steps.*1 = multi_name <$> conns)
   <-> conns <> [] /\ NoDup (multi_name <$> conns) /\
       Forall (target_accepted (NODE_ENV w)) conns) /\
  (forall w' e, connectMultiDb_begin conns w = (w', MultiRefused e) -> w' = w).
Proof.
  unfold connectMultiDb_begin.
  case_bool_decide as Hlen.
  { split; [|by intros ? ? [= <- _]].
    split; [by intros (? & ? & ? & _)|].
    intros (Hne & _). by destruct conns. }
  destruct (decide (NoDup (multi_name <$> conns))) as [Hnd|Hnd].
  2:{ rewrite bool_decide_eq_false_2 by (by rewrite size_list_to_set_NoDup).
      cbn [negb]. split; [|by intros ? ? [= <- _]].
      split; [by intros (? & ? & ? & _)|]. by intros (_ & ? & _). }
  rewrite bool_decide_eq_true_2 by (by rewrite size_list_to_set_NoDup). cbn [negb].
  destruct (first_invalid_target (NODE_ENV w) conns) as [e|] eqn:Hfirst.
  { split; [|by intros ? ? [= <- _]].
    split; [by intros (? & ? & ? & _)|].
    intros (_ & _ & Hall). apply first_invalid_target_None in Hall. congruence. }
  apply first_invalid_target_None in Hfirst.
  pose proof (start_each_names conns w []) as Hnames.
  destruct (foldl _ (w, []) conns) as [w' steps]. cbn [snd] in Hnames.
  split; [|done]. split.
  - intros _. split; [by destruct conns|done].
  - intros _. by exists w', steps.
Qed.

End MultiDb.

(** * Further properties: monitoring *)

Section Monitoring.
Implicit Types (w : World) (name : string) (reported : gmap string bool)
  (calls : list (string * bool)).

(** [check_one] when a callback was supplied. *)
Lemma check_one_listening name info calls reported :
  check_one true name info (calls, reported)
  = if bool_decide (reported !! name = Some (healthy info))
    then (calls, reported)
    else ((calls ++ [(name, healthy info)])%list,
          reported_set name (healthy info) reported).
Proof.
  unfold check_one, reported_has, healthy. cbn [fst snd andb].
  destruct (reported !! name) as [b|] eqn:Hr.
  - rewrite (bool_decide_eq_true_2 (is_Some (Some b))) by eauto. cbn [negb orb].
    by destruct (bool_decide (Some b = Some (bool_decide (state info = CONNECTED)))).
  - rewrite (bool_decide_eq_false_2 (is_Some None)) by apply is_Some_None.
    cbn [negb orb].
    by rewrite (bool_decide_eq_false_2 (None = Some (bool_decide (state info = CONNECTED)))).
Qed.

Lemma reported_set_lookup name name' b reported :
  reported_set name b reported !! name'
  = if bool_decide (name' = name /\ name <> "__proto__") then Some b
    else reported !! name'.
Proof.
  unfold reported_set. destruct (String.eqb_spec name "__proto__") as [->|Hne].
  - rewrite bool_decide_eq_false_2; [done|]. by intros [_ ?].
  - destruct (decide (name' = name)) as [->|Hne'].
    + rewrite lookup_insert_eq, bool_decide_eq_true_2; done.
    + rewrite lookup_insert_ne by done. rewrite bool_decide_eq_false_2; [done|].
      by intros [? _].
Qed.

(** The loop of [check] over entries with pairwise different names. *)
Lemma check_each (entries : list (string * ConnectionInfo)) :
  NoDup entries.*1 ->
  forall calls reported,
    let result := foldl (fun acc entry => check_one true entry.1 entry.2 acc)
                        (calls, reported) entries in
    (forall name b,
       (name, b) ∈ result.1
       <-> (name, b) ∈ calls \/
           exists info, (name, info) ∈ entries /\ b = healthy info /\
                        reported !! name <> Some b) /\
    (forall name,
       result.2 !! name
       = match list_find (fun entry => entry.1 = name) entries with
         | Some (_, (_, info)) =>
             if bool_decide (name = "__proto__") then reported !! name
             else Some (healthy info)
         | None => reported !! name
         end).
Proof.
  induction entries as [|[n i] entries IH]; intros Hnd calls reported.
  { cbn. split; [|done]. intros name b. split; [auto|].
    intros [?|(info & Hin & _)]; [done|]. by apply elem_of_nil in Hin. }
  rewrite fmap_cons in Hnd. apply NoDup_cons in Hnd as [Hn Hnd]. cbn [fst] in Hn.
  cbn [foldl fst snd].
  rewrite check_one_listening.
  assert (forall info, (n, info) ∈ entries -> False) as Hfresh.
  { intros info Hin. apply Hn. apply list_elem_of_fmap. by exists (n, info). }
  case_bool_decide as Hsame.
  - destruct (IH Hnd calls reported) as [IHcalls IHrep]. cbn zeta. split.
    + intros name b. rewrite IHcalls. split.
      * intros [?|(info & Hin & ? & ?)]; [auto|]. right. exists info.
        split; [by right|done].
      * intros [?|(info & Hin & Hb & Hneq)]; [auto|].
        apply elem_of_cons in Hin as [[= -> ->]|Hin]; [|right; by exists info].
        congruence.
    + intros name. rewrite IHrep. cbn [list_find fst].
      destruct (decide (n = name)) as [->|Hne]; [|by destruct (list_find _ entries) as [[? [? ?]]|]].
      assert (list_find (fun entry : string * ConnectionInfo => entry.1 = name) entries = None)
        as ->.
      { apply list_find_None, Forall_forall. intros [n' i'] Hin. simpl. intros ->.
        by apply (Hfresh i'). }
      cbn. by case_bool_decide.
  - destruct (IH Hnd (calls ++ [(n, healthy i)])%list (reported_set n (healthy i) reported))
      as [IHcalls IHrep]. cbn zeta. split.
    + intros name b. rewrite IHcalls. rewrite elem_of_app, list_elem_of_singleton. split.
      * intros [[?|[= -> ->]]|(info & Hin & Hb & Hneq)]; [auto| |].
        -- right. exists i. split; [by left|done].
        -- right. exists info. split; [by right|]. split; [done|].
           rewrite reported_set_lookup in Hneq.
           rewrite bool_decide_eq_false_2 in Hneq; [done|].
           intros [-> _]. by apply (Hfresh info).
      * intros [?|(info & Hin & Hb & Hneq)]; [auto|].
        apply elem_of_cons in Hin as [[= -> ->]|Hin]; [subst b; auto|].
        right. exists info. split; [done|]. split; [done|].
        rewrite reported_set_lookup, bool_decide_eq_false_2; [done|].
        intros [-> _]. by apply (Hfresh info).
    + intros name. rewrite IHrep. cbn [list_find fst].
      destruct (decide (n = name)) as [->|Hne].
      * assert (list_find (fun entry : string * ConnectionInfo => entry.1 = name) entries
                = None) as ->.
        { apply list_find_None, Forall_forall. intros [n' i'] Hin. simpl. intros ->.
          by apply (Hfresh i'). }
        cbn. rewrite reported_set_lookup.
        case_bool_decide as Hp.
        -- rewrite bool_decide_eq_false_2; [done|]. by destruct Hp.
        -- rewrite bool_decide_eq_true_2; [done|].
           destruct (decide (name = "__proto__")); [done|]. by destruct Hp.
      * destruct (list_find _ entries) as [[? [? ?]]|]; cbn;
          rewrite reported_set_lookup, (bool_decide_eq_false_2 (name = n /\ _));
          try done; intros [? _]; congruence.
Qed.

Lemma check_eq reported w :
  check true reported w
  = (foldl (fun acc entry => check_one true entry.1 entry.2 acc) ([], reported)
           (map_to_list (getAllConnectionsInfo w).1),
     (getAllConnectionsInfo w).2).
Proof. unfold check. by destruct (getAllConnectionsInfo w). Qed.

Lemma list_find_map_to_list (m : gmap string ConnectionInfo) name :
  (snd ∘ snd <$> list_find (fun entry : string * ConnectionInfo => entry.1 = name)
                           (map_to_list m))
  = m !! name.
Proof.
  destruct (list_find _ (map_to_list m)) as [[k [n info]]|] eqn:Hfind.
  - apply list_find_Some in Hfind as (Hk & Heq & _). simpl in Heq. subst n.
    apply list_elem_of_lookup_2 in Hk. apply elem_of_map_to_list in Hk. by rewrite Hk.
  - destruct (m !! name) as [info|] eqn:Hm; [|done].
    apply list_find_None in Hfind. rewrite Forall_forall in Hfind.
    apply elem_of_map_to_list in Hm. by destruct (Hfind _ Hm).
Qed.

Lemma getAllConnectionsInfo_eq w :
  getAllConnectionsInfo w
  = (omap (fun addr => info <$> objects w !! addr) (cache_map w), (getGlobalCache w).2).
Proof.
  unfold getAllConnectionsInfo. rewrite <- getGlobalCache_fst, <- (getGlobalCache_objects w).
  by destruct (getGlobalCache w).
Qed.

Lemma getAllConnectionsInfo_again w :
  (getAllConnectionsInfo (getAllConnectionsInfo w).2).1 = (getAllConnectionsInfo w).1.
Proof.
  rewrite !getAllConnectionsInfo_eq. cbn [fst snd].
  by rewrite getGlobalCache_cache_map, getGlobalCache_objects.
Qed.

(** One round of the monitor, in terms of the Map of infos. *)
Lemma check_round reported w :
  (forall name b,
     (name, b) ∈ (check true reported w).1.1
     <-> exists info, (getAllConnectionsInfo w).1 !! name = Some info /\ b = healthy info /\
                      reported !! name <> Some b) /\
  (forall name info,
     (getAllConnectionsInfo w).1 !! name = Some info -> name <> "__proto__" ->
     (check true reported w).1.2 !! name = Some (healthy info)) /\
  (forall name,
     (getAllConnectionsInfo w).1 !! name = None \/ name = "__proto__" ->
     (check true reported w).1.2 !! name = reported !! name).
Proof.
  rewrite check_eq. cbn [fst snd].
  set (allInfo := (getAllConnectionsInfo w).1).
  destruct (check_each (map_to_list allInfo) (NoDup_fst_map_to_list allInfo) [] reported)
    as [Hcalls Hrep].
  split; [|split].
  - intros name b. rewrite Hcalls. split.
    + intros [Hnil|(info & Hin & ? & ?)]; [by apply elem_of_nil in Hnil|].
      exists info. by rewrite <- elem_of_map_to_list.
    + intros (info & Hin & ? & ?). right. exists info.
      by rewrite elem_of_map_to_list.
  - intros name info Hin Hne. rewrite Hrep.
    pose proof (list_find_map_to_list allInfo name) as Hfind. rewrite Hin in Hfind.
    destruct (list_find _ (map_to_list allInfo)) as [[k [n i]]|]; [|done].
    simpl in Hfind. injection Hfind as ->. by rewrite bool_decide_eq_false_2.
  - intros name Hcase. rewrite Hrep.
    pose proof (list_find_map_to_list allInfo name) as Hfind.
    destruct (list_find _ (map_to_list allInfo)) as [[k [n i]]|]; [|done].
    simpl in Hfind. destruct Hcase as [Hnone| ->]; [congruence|].
    by rewrite bool_decide_eq_true_2.
Qed.

Lemma report_after_set name b reported (entries : list (string * ConnectionInfo)) :
  name ∉ entries.*1 ->
  omap (report (reported_set name b reported)) entries = omap (report reported) entries.
Proof.
  induction entries as [|[n i] entries IH]; [done|].
  rewrite fmap_cons, not_elem_of_cons. cbn [fst]. intros [Hne Hrest]. csimpl.
  rewrite (IH Hrest). unfold report at 1 3. cbn [fst snd].
  rewrite reported_set_lookup, (bool_decide_eq_false_2 (n = name /\ _)); [done|].
  intros [? _]. congruence.
Qed.

(** The calls of one round, in the order of the entries. *)
Lemma check_calls (entries : list (string * ConnectionInfo)) :
  NoDup entries.*1 ->
  forall calls reported,
    (foldl (fun acc entry => check_one true entry.1 entry.2 acc)
           (calls, reported) entries).1
    = (calls ++ omap (report reported) entries)%list.
Proof.
  induction entries as [|[n i] entries IH]; intros Hnd calls reported.
  { cbn. by rewrite app_nil_r. }
  rewrite fmap_cons in Hnd. apply NoDup_cons in Hnd as [Hn Hnd]. cbn [fst] in Hn.
  cbn [foldl fst snd]. rewrite check_one_listening. csimpl.
  unfold report at 1. cbn [fst snd].
  case_bool_decide as Hsame; [by apply IH|].
  rewrite (IH Hnd), report_after_set by done. by rewrite <- app_assoc.
Qed.

(** Among entries with pairwise different names, the calls for one name. *)
Lemma omap_one_name {B} (f : string * ConnectionInfo -> option B) name
    (entries : list (string * ConnectionInfo)) :
  NoDup entries.*1 ->
  (forall entry, entry ∈ entries -> entry.1 <> name -> f entry = None) ->
  omap f entries
  = match list_find (fun entry => entry.1 = name) entries with
    | Some (_, entry) => option_list (f entry)
    | None => []
    end.
Proof.
  induction entries as [|[n i] entries IH]; intros Hnd Hother; [done|].
  rewrite fmap_cons in Hnd. apply NoDup_cons in Hnd as [Hn Hnd]. cbn [fst] in Hn.
  csimpl. cbn [list_find fst].
  assert (forall entry, entry ∈ entries -> entry.1 <> name -> f entry = None) as Hrest.
  { intros entry Hin. apply Hother. by right. }
  destruct (decide (n = name)) as [->|Hne].
  - assert (omap f entries = []) as ->.
    { rewrite (IH Hnd Hrest).
      assert (list_find (fun entry : string * ConnectionInfo => entry.1 = name) entries
              = None) as ->; [|done].
      apply list_find_None, Forall_forall. intros [n' i'] Hin. simpl. intros ->.
      apply Hn, list_elem_of_fmap. by exists (name, i'). }
    cbn. by destruct (f (name, i)).
  - rewrite (Hother (n, i)) by (done || by left). rewrite (IH Hnd Hrest).
    by destruct (list_find _ entries) as [[? ?]|].
Qed.

Lemma check_world reported w : (check true reported w).2 = (getAllConnectionsInfo w).2.
Proof. by rewrite check_eq. Qed.

(** Rounds that nothing interleaves with see the same infos, remember the
    health of every name but [__proto__], and never remember [__proto__]. *)
Lemma monitor_round_state (n : nat) w :
  (getAllConnectionsInfo (monitor_round n w).2).1 = (getAllConnectionsInfo w).1 /\
  (forall name info,
     (getAllConnectionsInfo w).1 !! name = Some info -> name <> "__proto__" ->
     (monitor_round n w).1.2 !! name = Some (healthy info)) /\
  (monitor_round n w).1.2 !! "__proto__" = None.
Proof.
  induction n as [|n (Hsame & Hrep & Hproto)]; cbn [monitor_round].
  - destruct (check_round ∅ w) as (_ & Hrep & Hkeep).
    split; [rewrite check_world; apply getAllConnectionsInfo_again|].
    split; [done|]. rewrite Hkeep by auto. apply lookup_empty.
  - destruct (check_round (monitor_round n w).1.2 (monitor_round n w).2)
      as (_ & Hrep' & Hkeep').
    rewrite Hsame in Hrep', Hkeep'.
    split; [by rewrite check_world, getAllConnectionsInfo_again|].
    split; [done|]. by rewrite Hkeep' by auto.
Qed.

(** X26. One round of the monitor reports changes only.  The callback is
    called for a connection exactly when the health that was last reported
    for its name differs from its health now (or none was reported yet), with
    [healthy] meaning that the state is [CONNECTED]; afterwards the health now
    is what counts as reported, for every name other than [__proto__]. *)
Theorem monitoring_reports_changes_only reported w :
  (forall name b,
     (name, b) ∈ (check true reported w).1.1
     <-> exists info, (getAllConnectionsInfo w).1 !! name = Some info /\ b = healthy info /\
                      reported !! name <> Some b) /\
  (forall name info,
     (getAllConnectionsInfo w).1 !! name = Some info -> name <> "__proto__" ->
     (check true reported w).1.2 !! name = Some (healthy info)).
Proof.
  destruct (check_round reported w) as (Hcalls & Hrep & _). by split.
Qed.

(** X27. The rounds of the monitor when the connections do not change.
    The monitor starts with nothing reported, so its first round calls the
    callback exactly once for every cached connection, with the health of
    that connection: the calls are the entries of the Map, one for one.
    Every later round calls it for no connection but one named [__proto__]:
    such a connection is reported again in every round, once, because the
    assignment that should remember it creates no property. *)
Theorem monitoring_later_rounds_are_silent w :
  (monitor_round 0 w).1.1
  = (fun entry => (entry.1, healthy entry.2)) <$> map_to_list (getAllConnectionsInfo w).1 /\
  NoDup (monitor_round 0 w).1.1.*1 /\
  (forall n,
     (monitor_round (S n) w).1.1
     = match (getAllConnectionsInfo w).1 !! "__proto__" with
       | Some info => [("__proto__", healthy info)]
       | None => []
       end).
Proof.
  set (allInfo := (getAllConnectionsInfo w).1).
  assert ((monitor_round 0 w).1.1
          = (fun entry => (entry.1, healthy entry.2)) <$> map_to_list allInfo) as Hfirst.
  { cbn [monitor_round]. rewrite check_eq. cbn [fst]. fold allInfo.
    rewrite check_calls by apply NoDup_fst_map_to_list. cbn [app].
    induction (map_to_list allInfo) as [|[n i] entries IH]; [done|].
    csimpl. rewrite IH. unfold report at 1. cbn [fst snd].
    by rewrite lookup_empty, bool_decide_eq_false_2. }
  split; [exact Hfirst|]. split.
  { rewrite Hfirst, <- list_fmap_compose. exact (NoDup_fst_map_to_list allInfo). }
  intros n. cbn [monitor_round].
  destruct (monitor_round_state n w) as (Hsame & Hrep & Hproto). fold allInfo in Hsame, Hrep.
  rewrite check_eq. cbn [fst]. rewrite Hsame.
  rewrite check_calls by apply NoDup_fst_map_to_list. cbn [app].
  rewrite (omap_one_name _ "__proto__"); [|apply NoDup_fst_map_to_list|].
  - pose proof (list_find_map_to_list allInfo "__proto__") as Hfind.
    destruct (list_find _ (map_to_list allInfo)) as [[k [name info]]|] eqn:Hlist.
    + apply list_find_Some in Hlist as (_ & Hname & _). simpl in Hname. subst name.
      simpl in Hfind. rewrite <- Hfind. unfold report. cbn [fst snd].
      rewrite Hproto. by rewrite bool_decide_eq_false_2.
    + simpl in Hfind. by rewrite <- Hfind.
  - intros [name info] Hin Hne. cbn [fst] in Hne. unfold report. cbn [fst snd].
    apply elem_of_map_to_list in Hin.
    by rewrite (Hrep name info Hin Hne), bool_decide_eq_true_2.
Qed.

End Monitoring.

Section EmptyName.
Context `{Platform}.
Implicit Types (w : World) (name uri : string) (opts : MongoConnectionOptions)
  (cbs : Callbacks) (driver : Driver).

(** X28. An empty connection name means the default name to [connect],
    but not to the queries.  After a call of [connect] with the name [""] has
    resolved, the connection is found under [default]; asked for [""],
    [getConnection] finds nothing, [isConnected] is false and
    [closeConnection] leaves the connection open and cached. *)
Theorem connect_with_empty_name (errs : Z -> Thrown) driver uri opts cbs (k : Z) c w :
  opt_connectionName opts = Some "" ->
  passes_validation (NODE_ENV w) uri opts ->
  cache_map w !! "" = None ->
  connections_get "default" w = None ->
  (1 <= k <= whole_part (number_or_default (maxRetries opts)
                                           SECURITY_CONFIG.MAX_RETRIES))%Z ->
  (forall j, (1 <= j < k)%Z ->
     dial driver j (or_default (connectionTimeout opts) SECURITY_CONFIG.DEFAULT_TIMEOUT)
     = Throw (errs j)) ->
  dial driver k (or_default (connectionTimeout opts) SECURITY_CONFIG.DEFAULT_TIMEOUT)
  = Normal c ->
  exists w' h,
    connect driver uri opts cbs w = (w', Resolves h) /\
    (getConnection "default" w').1 = Some h /\
    (getConnection "" w').1 = None /\
    (isConnected "" w').1 = false /\
    (getConnection "default" (closeConnection "" w').1).1 = Some h /\
    (isConnected "default" (closeConnection "" w').1).1 = true.
Proof.
  intros Hname Hvalid Hempty Hmiss Hk Hfail Hdial.
  assert (name_or_default (opt_connectionName opts) = "default") as Hdefault
    by (by rewrite Hname).
  destruct (connect_first_success errs driver uri opts cbs k c w)
    as (w' & addr & task & h & Hconnect & Hsome & Hmap & Hobj & _ & Hh & _ & _);
    [done|by rewrite Hdefault|done|done|done|].
  rewrite Hdefault in Hmap, Hobj.
  assert (connections_get "" w' = None) as Hnone.
  { rewrite connections_get_eq, Hmap, lookup_insert_ne by done. by rewrite Hempty. }
  assert (forall w'', cache_map w'' = cache_map w' -> objects w'' = objects w' ->
                      handles w'' = handles w' ->
                      (getConnection "default" w'').1 = Some h /\
                      (isConnected "default" w'').1 = true) as Hfound.
  { intros w'' Hm Ho Hhs.
    assert (connections_get "default" w'' = connections_get "default" w') as Hget
      by (by apply connections_get_frame).
    rewrite (connections_get_intro "default" w' addr _) in Hget
      by (by rewrite ?Hmap, ?lookup_insert_eq).
    rewrite getConnection_spec, isConnected_eq, Hget. cbn [fst]. split; [done|].
    assert (ready_connection "default" w'' = Some h) as ->.
    { eapply ready_connection_intro; [exact Hget|done| |].
      - by rewrite Hhs, Hh.
      - simpl. by apply dial_ready in Hdial. }
    unfold record_state. rewrite Hget.
    rewrite (bool_decide_eq_true_2 (is_Some (Some h))) by eauto.
    by rewrite bool_decide_eq_true_2. }
  exists w', h. split; [done|].
  destruct (Hfound w' eq_refl eq_refl eq_refl) as [Hg _].
  split; [done|]. split; [by rewrite getConnection_spec, Hnone|].
  split; [apply not_connected_isConnected; unfold record_state; by rewrite Hnone|].
  destruct (closeConnection_cases "" w') as (_ & _ & _ & _ & Hcases).
  rewrite Hnone in Hcases. destruct Hcases as (Hm & Ho & Hhs & _).
  by apply Hfound.
Qed.

End EmptyName.

Section OptionLimits.
Implicit Types (env : option string) (o : ConnectOptions).

Lemma exceeds_above (x : option Z) (bound : Z) :
  (0 <= bound)%Z -> exceeds x bound = above bound x.
Proof.
  intros Hb. unfold exceeds, above. destruct x as [n|]; [|done].
  destruct (Z.eqb_spec n 0) as [->|_]; [|done]. simpl. symmetry. lia.
Qed.

(** X29. The size limits of [validateOptions] only warn.  Its warnings
    are decided by the two sizes alone, in every mode: one for a pool larger
    than 100, one for a buffer larger than 1000, none at the bounds
    themselves; its errors and its verdict do not depend on the sizes. *)
Theorem validateOptions_limits_only_warn env o :
  warnings (validateOptions env o)
  = ((if above 100 (maxPoolSize o)
      then ["Very large connection pool size detected"] else [])
     ++ (if above 1000 (bufferMaxEntries o)
         then ["Very large buffer size detected"] else []))%list /\
  (forall pool buffer,
     let o' := mkConnectOptions (ssl o) (tls o) (tlsAllowInvalidCertificates o)
                                (tlsAllowInvalidHostnames o) pool buffer in
     errors (validateOptions env o') = errors (validateOptions env o) /\
     isValid (validateOptions env o') = isValid (validateOptions env o)).
Proof.
  split.
  - unfold validateOptions. rewrite !exceeds_above by lia. by repeat case_match.
  - intros pool buffer. unfold validateOptions. cbn. by repeat case_match.
Qed.

End OptionLimits.

(** * The further properties at sample inputs *)

Section MoreWitnesses.
Import Samples.

Lemma createSecureOptions_production_secured_witness :
  is_production (Some "production") = true /\
  isValid (validateOptions (Some "production") (as_read ssl_undefined)) = true /\
  ~ insecure (checked (createSecureOptions (Some "production") ssl_undefined)) /\
  MongoSecurityValidator.ssl (checked (createSecureOptions (Some "production") ssl_undefined))
  = None /\
  MongoSecurityValidator.tls (checked (createSecureOptions (Some "production") ssl_undefined))
  = Some true.
Proof.
  split; [reflexivity|]. split; [reflexivity|].
  destruct (createSecureOptions_production_secured (Some "production") ssl_undefined
              eq_refl eq_refl) as (Hsafe & Hssl & Htls & _).
  split; [exact Hsafe|]. split; [exact Hssl|exact Htls].
Defined.

Lemma closeAllConnections_empties_cache_witness :
  totalConnections (getPoolStats process_with_connection).1 = 1%nat /\
  totalConnections (getPoolStats (closeAllConnections process_with_connection).1).1 = 0%nat.
Proof.
  split; [reflexivity|].
  apply (closeAllConnections_empties_cache process_with_connection).
  - change (map_Forall (fun (_ : string) addr =>
                          is_Some (objects process_with_connection !! addr))
                       (cache_map process_with_connection)).
    apply (bool_decide_unpack _). by vm_compute.
  - change (map_Forall (fun (_ : nat) c => close_failure c = None)
                       (handles process_with_connection)).
    apply (bool_decide_unpack _). by vm_compute.
Defined.

Lemma healthCheck_healthy_report_witness :
  isHealthy (healthCheck quick_ping "default" process_with_connection).1 = true /\
  latency (healthCheck quick_ping "default" process_with_connection).1 = Some 12%Z.
Proof.
  assert (isHealthy (healthCheck quick_ping "default" process_with_connection).1 = true)
    as Hhealthy by reflexivity.
  split; [exact Hhealthy|].
  destruct (healthCheck_healthy_report quick_ping "default" process_with_connection Hhealthy)
    as (h & _ & Hlatency & _).
  exact Hlatency.
Defined.

Lemma healthCheck_without_probe_witness :
  ready_connection "default" fresh_process = None /\
  isHealthy (healthCheck quick_ping "default" fresh_process).1 = false /\
  clock (healthCheck quick_ping "default" fresh_process).2 = clock fresh_process.
Proof.
  split; [reflexivity|].
  destruct (healthCheck_without_probe quick_ping quick_ping "default" fresh_process eq_refl)
    as (_ & Hno & _ & _ & Hclock).
  by split.
Defined.

Lemma healthCheck_while_connecting_witness :
  connections_get "default" process_while_connecting = Some (0%nat, connecting_record) /\
  state (info connecting_record) = CONNECTING /\
  health_state (healthCheck quick_ping "default" process_while_connecting).1 = DISCONNECTED.
Proof.
  split; [reflexivity|]. split; [reflexivity|].
  apply (healthCheck_while_connecting quick_ping "default" process_while_connecting
           0%nat connecting_record); reflexivity.
Defined.



Lemma connect_then_queries_witness :
  passes_validation (H:=node) (NODE_ENV fresh_process) "mongodb://host/db" default_options /\
  exists w' h,
    connect (H:=node) flaky_server "mongodb://host/db" default_options no_callbacks
            fresh_process = (w', Resolves h) /\
    getConnection "default" w' = (Some h, w') /\
    isConnected "default" w' = (true, w').
Proof.
  assert (passes_validation (H:=node) (NODE_ENV fresh_process) "mongodb://host/db"
            default_options) as Hvalid.
  { split; [eexists; split; reflexivity|reflexivity]. }
  split; [exact Hvalid|].
  destruct (connect_then_queries (H:=node)
              (fun _ => ErrorInstance "connect ETIMEDOUT") flaky_server
              "mongodb://host/db" default_options no_callbacks 2%Z
              (ready (mkConnection 2 "localhost" "test" None [])) fresh_process)
    as (w' & h & Hconnect & _ & Hget & Hconnected & _).
  - exact Hvalid.
  - reflexivity.
  - by vm_compute.
  - intros j Hj. assert (j = 1%Z) as -> by lia. reflexivity.
  - reflexivity.
  - by exists w', h.
Defined.

Lemma connect_then_close_witness :
  passes_validation (H:=node) (NODE_ENV fresh_process) "mongodb://host/db" default_options /\
  exists w' h,
    connect (H:=node) healthy_server "mongodb://host/db" default_options no_callbacks
            fresh_process = (w', Resolves h) /\
    cache_map (closeConnection "default" w').1 = cache_map fresh_process /\
    (getConnectionInfo "default" (closeConnection "default" w').1).1 = None.
Proof.
  assert (passes_validation (H:=node) (NODE_ENV fresh_process) "mongodb://host/db"
            default_options) as Hvalid.
  { split; [eexists; split; reflexivity|reflexivity]. }
  split; [exact Hvalid|].
  destruct (connect_then_close (H:=node)
              (fun _ => ErrorInstance "unused") healthy_server
              "mongodb://host/db" default_options no_callbacks 1%Z
              (ready (mkConnection 2 "localhost" "test" None [])) fresh_process)
    as (w' & h & Hconnect & Hmap & _ & Hinfo & _).
  - exact Hvalid.
  - reflexivity.
  - by vm_compute.
  - intros j Hj. lia.
  - reflexivity.
  - reflexivity.
  - by exists w', h.
Defined.

Lemma connect_refused_before_setup_witness :
  ~ passes_validation (H:=node) (NODE_ENV fresh_process) "mongodb://host/" default_options /\
  exists errs w',
    (connect (H:=node) healthy_server "mongodb://host/" default_options no_callbacks
             fresh_process
     = (w', RejectsWith (ErrorInstance ("Security validation failed: "
                                        ++ JsString.join ", " errs))) \/
     connect (H:=node) healthy_server "mongodb://host/" default_options no_callbacks
             fresh_process
     = (w', RejectsWith (ErrorInstance ("Options validation failed: "
                                        ++ JsString.join ", " errs)))) /\
    global_cache w' = None.
Proof.
  assert (~ passes_validation (H:=node) (NODE_ENV fresh_process) "mongodb://host/"
            default_options) as Hnot.
  { intros [(rv & Hrv & Hvalid) _]. vm_compute in Hrv. injection Hrv as <-. discriminate. }
  split; [exact Hnot|].
  destruct (connect_refused_before_setup (H:=node) healthy_server "mongodb://host/"
              default_options no_callbacks fresh_process Hnot)
    as (errs & w' & _ & Hconnect & Hcache & _).
  by exists errs, w'.
Defined.

Lemma getMongoUri_returns_first_valid_witness :
  getMongoUri (H:=node) environment_with_database_url None fresh_process
  = (fresh_process, Normal "mongodb://host/db") /\
  exists rv,
    validateURI (H:=node) None "mongodb://host/db" None = Normal rv /\ isValid rv = true.
Proof.
  assert (getMongoUri (H:=node) environment_with_database_url None fresh_process
          = (fresh_process, Normal "mongodb://host/db")) as Hget by reflexivity.
  split; [exact Hget|].
  destruct (getMongoUri_returns_first_valid (H:=node) environment_with_database_url None
              fresh_process fresh_process "mongodb://host/db" Hget) as (_ & Hvalid & _).
  exact Hvalid.
Defined.

Lemma quickConnect_rejections_wrapped_witness :
  quickConnect (H:=node) no_environment healthy_server None no_quick_options fresh_process
  = (fresh_process,
     RejectsWith (ErrorInstance "Quick connect failed: MongoDB URI not found. Set one of: MONGODB_URI, MONGO_URI, DATABASE_URL environment variables, or provide fallbackUri")) /\
  exists reason,
    ErrorInstance "Quick connect failed: MongoDB URI not found. Set one of: MONGODB_URI, MONGO_URI, DATABASE_URL environment variables, or provide fallbackUri"
    = ErrorInstance ("Quick connect failed: " ++ reason).
Proof.
  assert (quickConnect (H:=node) no_environment healthy_server None no_quick_options
            fresh_process
          = (fresh_process,
             RejectsWith (ErrorInstance "Quick connect failed: MongoDB URI not found. Set one of: MONGODB_URI, MONGO_URI, DATABASE_URL environment variables, or provide fallbackUri")))
    as Hquick by reflexivity.
  split; [exact Hquick|].
  exact (quickConnect_rejections_wrapped (H:=node) no_environment healthy_server None
           no_quick_options fresh_process fresh_process _ Hquick).
Defined.

Lemma connectMongo_ignores_DATABASE_URL_witness :
  Index.connectMongo (H:=node) environment_with_database_url healthy_server None
    default_options no_callbacks fresh_process
  = (fresh_process,
     RejectsWith (ErrorInstance "MongoDB URI is required. Provide it as parameter or set MONGODB_URI environment variable.")) /\
  (getMongoUri (H:=node) environment_with_database_url None fresh_process).2
  = Normal "mongodb://host/db".
Proof.
  destruct (connectMongo_ignores_DATABASE_URL (H:=node) environment_with_database_url
              healthy_server None default_options no_callbacks fresh_process
              "mongodb://host/db" eq_refl eq_refl eq_refl) as [Hrefused Huri].
  split; [exact Hrefused|].
  apply Huri; [reflexivity|discriminate|].
  eexists. split; reflexivity.
Defined.


Lemma connect_with_empty_name_witness :
  opt_connectionName unnamed_options = Some "" /\
  exists w' h,
    connect (H:=node) healthy_server "mongodb://host/db" unnamed_options no_callbacks
            fresh_process = (w', Resolves h) /\
    (getConnection "default" w').1 = Some h /\
    (getConnection "" w').1 = None.
Proof.
  split; [reflexivity|].
  destruct (connect_with_empty_name (H:=node)
              (fun _ => ErrorInstance "unused") healthy_server
              "mongodb://host/db" unnamed_options no_callbacks 1%Z
              (ready (mkConnection 2 "localhost" "test" None [])) fresh_process)
    as (w' & h & Hconnect & Hdefault & Hempty & _).
  - reflexivity.
  - split; [eexists; split; reflexivity|reflexivity].
  - reflexivity.
  - reflexivity.
  - by vm_compute.
  - intros j Hj. lia.
  - reflexivity.
  - by exists w', h.
Defined.

End MoreWitnesses.
